(** * discret11audio: the raw audio parser of gst-plugins-base

    A shallow embedding of gst/discret11/gstdiscret11audioparse.c (with the
    declarations of gstdiscret11audioparse.h and gstdiscret11parse.h): the two
    parser configurations, the selection of the current one, the frame
    geometry (bytes per frame, alignment), the conversion between caps and
    configurations, and the channel reordering of outgoing frames.

    C integers are mathematical integers with the wrap-around of their type
    written out.  The two position arrays of a configuration are lists whose
    length is the size of the array; the loops and the memcpy calls of the
    parser that index them stop with [OutOfBounds] where they leave the
    array.  The helpers of the GStreamer audio library that the file calls
    but does not define are gathered in the interface [GstAudio]; every
    theorem holds for all implementations of that interface unless it says
    otherwise. *)

From Stdlib Require Import ZArith Lia Bool String List.
From stdpp Require Import base list.
Import ListNotations.
Local Open Scope Z_scope.

(** ** C integer types *)

Module CInt.

(** Conversion to [guint] (32 bits, unsigned). *)
Definition to_guint (z : Z) : Z := z mod 2 ^ 32.

(** Conversion to [gint] (32 bits, two's complement). *)
Definition to_gint (z : Z) : Z := (z + 2 ^ 31) mod 2 ^ 32 - 2 ^ 31.

(** Conversion to [guint64]. *)
Definition to_guint64 (z : Z) : Z := z mod 2 ^ 64.

Definition is_guint (z : Z) : Prop := 0 <= z < 2 ^ 32.
Definition is_gint (z : Z) : Prop := - 2 ^ 31 <= z < 2 ^ 31.

End CInt.
Import CInt.

(** Modelled from the spec: GST_ROUND_UP_8 (a macro of gstutils.h, which is not
    part of these sources) rounds its argument up to a multiple of 8; written
    the way the macro is, [((num) + 7) & ~7]. *)
Definition GST_ROUND_UP_8 (num : Z) : Z := Z.land (num + 7) (Z.lnot 7).

(** ** A failed [g_assert], an array access out of bounds

    A function that passes through a [g_assert] returns [Ok] with its result,
    or [AssertionFailed] when the assertion aborts the program.  A function
    that reads or writes an entry past the end of an array returns
    [OutOfBounds]: from there on the behaviour of the C program is undefined
    (the access lands in whatever follows the array in memory), and the
    embedding follows the run no further. *)

Inductive result (A : Type) : Type :=
| Ok (a : A)
| AssertionFailed
| OutOfBounds.
Arguments Ok {A} a.
Arguments AssertionFailed {A}.
Arguments OutOfBounds {A}.

Definition bind {A B : Type} (r : result A) (k : A -> result B) : result B :=
  match r with
  | Ok a => k a
  | AssertionFailed => AssertionFailed
  | OutOfBounds => OutOfBounds
  end.

Notation "'let*' x ':=' r 'in' k" := (bind r (fun x => k))
  (at level 10, x name, r at level 100, k at level 200).

Definition g_assert (b : bool) : result unit :=
  if b then Ok tt else AssertionFailed.

(** ** Data model *)

(** [enum _GstDiscret11AudioParseFormat], in the order of the header. *)
Inductive GstDiscret11AudioParseFormat : Type :=
| GST_DISCRET11_AUDIO_PARSE_FORMAT_PCM
| GST_DISCRET11_AUDIO_PARSE_FORMAT_MULAW
| GST_DISCRET11_AUDIO_PARSE_FORMAT_ALAW.

Definition format_eqb (a b : GstDiscret11AudioParseFormat) : bool :=
  match a, b with
  | GST_DISCRET11_AUDIO_PARSE_FORMAT_PCM, GST_DISCRET11_AUDIO_PARSE_FORMAT_PCM
  | GST_DISCRET11_AUDIO_PARSE_FORMAT_MULAW, GST_DISCRET11_AUDIO_PARSE_FORMAT_MULAW
  | GST_DISCRET11_AUDIO_PARSE_FORMAT_ALAW, GST_DISCRET11_AUDIO_PARSE_FORMAT_ALAW => true
  | _, _ => false
  end.

(** [enum _GstDiscret11ParseConfig] of gstdiscret11parse.h. *)
Inductive GstDiscret11ParseConfig : Type :=
| GST_DISCRET11_PARSE_CONFIG_CURRENT
| GST_DISCRET11_PARSE_CONFIG_SINKCAPS
| GST_DISCRET11_PARSE_CONFIG_PROPERTIES.

(** [GstAudioFormat] and [GstAudioChannelPosition] are enumerations of the
    audio library; a value is its integer code. *)
Definition GstAudioFormat : Type := Z.
Definition GstAudioChannelPosition : Type := Z.

(** The part of [GstAudioFormatInfo] that the parser reads. *)
Record GstAudioFormatInfo : Type := {
  GST_AUDIO_FORMAT_INFO_WIDTH : Z
}.

Inductive GstAudioLayout : Type :=
| GST_AUDIO_LAYOUT_INTERLEAVED
| GST_AUDIO_LAYOUT_NON_INTERLEAVED.

Definition layout_eqb (a b : GstAudioLayout) : bool :=
  match a, b with
  | GST_AUDIO_LAYOUT_INTERLEAVED, GST_AUDIO_LAYOUT_INTERLEAVED
  | GST_AUDIO_LAYOUT_NON_INTERLEAVED, GST_AUDIO_LAYOUT_NON_INTERLEAVED => true
  | _, _ => false
  end.

(** The fields of [GstAudioInfo] that the GST_AUDIO_INFO_* accessors used by
    the parser read. *)
Record GstAudioInfo : Type := {
  GST_AUDIO_INFO_FORMAT : GstAudioFormat;
  GST_AUDIO_INFO_LAYOUT : GstAudioLayout;
  GST_AUDIO_INFO_RATE : Z;
  GST_AUDIO_INFO_CHANNELS : Z;
  GST_AUDIO_INFO_BPF : Z;
  GST_AUDIO_INFO_POSITION : list GstAudioChannelPosition
}.

(** A caps value is read through its first structure only: a media type name
    and typed fields. *)
Inductive GValue : Type :=
| G_TYPE_INT (i : Z)
| GST_TYPE_BITMASK (m : Z)
| G_TYPE_STRING (s : string).

Record GstStructure : Type := {
  structure_name : string;
  structure_fields : list (string * GValue)
}.

Definition GstCaps : Type := GstStructure.

Definition GstBuffer : Type := list Byte.byte.

(** [struct _GstDiscret11AudioParseConfig].  The two position arrays are
    lists; the length of the list is the size of the array, 64 in the header
    ([array_size]), and an access at an index that the list does not have is
    out of bounds. *)
Record GstDiscret11AudioParseConfig : Type := {
  ready : bool;
  format : GstDiscret11AudioParseFormat;
  pcm_format : GstAudioFormat;
  bpf : Z;
  sample_rate : Z;
  num_channels : Z;
  interleaved : bool;
  channel_positions : list GstAudioChannelPosition;
  reordered_channel_positions : list GstAudioChannelPosition;
  needs_channel_reordering : bool
}.

Definition set_ready (c : GstDiscret11AudioParseConfig) (v : bool) :=
  {| ready := v; format := format c; pcm_format := pcm_format c; bpf := bpf c;
     sample_rate := sample_rate c; num_channels := num_channels c;
     interleaved := interleaved c; channel_positions := channel_positions c;
     reordered_channel_positions := reordered_channel_positions c;
     needs_channel_reordering := needs_channel_reordering c |}.

Definition set_format (c : GstDiscret11AudioParseConfig)
    (v : GstDiscret11AudioParseFormat) :=
  {| ready := ready c; format := v; pcm_format := pcm_format c; bpf := bpf c;
     sample_rate := sample_rate c; num_channels := num_channels c;
     interleaved := interleaved c; channel_positions := channel_positions c;
     reordered_channel_positions := reordered_channel_positions c;
     needs_channel_reordering := needs_channel_reordering c |}.

Definition set_pcm_format (c : GstDiscret11AudioParseConfig) (v : GstAudioFormat) :=
  {| ready := ready c; format := format c; pcm_format := v; bpf := bpf c;
     sample_rate := sample_rate c; num_channels := num_channels c;
     interleaved := interleaved c; channel_positions := channel_positions c;
     reordered_channel_positions := reordered_channel_positions c;
     needs_channel_reordering := needs_channel_reordering c |}.

Definition set_bpf (c : GstDiscret11AudioParseConfig) (v : Z) :=
  {| ready := ready c; format := format c; pcm_format := pcm_format c; bpf := v;
     sample_rate := sample_rate c; num_channels := num_channels c;
     interleaved := interleaved c; channel_positions := channel_positions c;
     reordered_channel_positions := reordered_channel_positions c;
     needs_channel_reordering := needs_channel_reordering c |}.

Definition set_sample_rate (c : GstDiscret11AudioParseConfig) (v : Z) :=
  {| ready := ready c; format := format c; pcm_format := pcm_format c; bpf := bpf c;
     sample_rate := v; num_channels := num_channels c;
     interleaved := interleaved c; channel_positions := channel_positions c;
     reordered_channel_positions := reordered_channel_positions c;
     needs_channel_reordering := needs_channel_reordering c |}.

Definition set_num_channels (c : GstDiscret11AudioParseConfig) (v : Z) :=
  {| ready := ready c; format := format c; pcm_format := pcm_format c; bpf := bpf c;
     sample_rate := sample_rate c; num_channels := v;
     interleaved := interleaved c; channel_positions := channel_positions c;
     reordered_channel_positions := reordered_channel_positions c;
     needs_channel_reordering := needs_channel_reordering c |}.

Definition set_interleaved (c : GstDiscret11AudioParseConfig) (v : bool) :=
  {| ready := ready c; format := format c; pcm_format := pcm_format c; bpf := bpf c;
     sample_rate := sample_rate c; num_channels := num_channels c;
     interleaved := v; channel_positions := channel_positions c;
     reordered_channel_positions := reordered_channel_positions c;
     needs_channel_reordering := needs_channel_reordering c |}.

Definition set_channel_positions (c : GstDiscret11AudioParseConfig)
    (v : list GstAudioChannelPosition) :=
  {| ready := ready c; format := format c; pcm_format := pcm_format c; bpf := bpf c;
     sample_rate := sample_rate c; num_channels := num_channels c;
     interleaved := interleaved c; channel_positions := v;
     reordered_channel_positions := reordered_channel_positions c;
     needs_channel_reordering := needs_channel_reordering c |}.

Definition set_reordered_channel_positions (c : GstDiscret11AudioParseConfig)
    (v : list GstAudioChannelPosition) :=
  {| ready := ready c; format := format c; pcm_format := pcm_format c; bpf := bpf c;
     sample_rate := sample_rate c; num_channels := num_channels c;
     interleaved := interleaved c; channel_positions := channel_positions c;
     reordered_channel_positions := v;
     needs_channel_reordering := needs_channel_reordering c |}.

Definition set_needs_channel_reordering (c : GstDiscret11AudioParseConfig) (v : bool) :=
  {| ready := ready c; format := format c; pcm_format := pcm_format c; bpf := bpf c;
     sample_rate := sample_rate c; num_channels := num_channels c;
     interleaved := interleaved c; channel_positions := channel_positions c;
     reordered_channel_positions := reordered_channel_positions c;
     needs_channel_reordering := v |}.

(** What [current_config] points to: "Points either to properties_config or to
    sink_caps_config. This is never NULL." *)
Inductive ConfigPtr : Type :=
| ptr_properties_config
| ptr_sink_caps_config.

(** [struct _GstDiscret11AudioParse], with the state of its parents that the
    file changes: [src_caps_set] of GstDiscret11Parse, the minimum frame size
    of GstBaseParse, and the error messages posted with GST_ELEMENT_ERROR. *)
Record GstDiscret11AudioParse : Type := {
  src_caps_set : bool;
  min_frame_size : Z;
  element_errors : list string;
  properties_config : GstDiscret11AudioParseConfig;
  sink_caps_config : GstDiscret11AudioParseConfig;
  current_config : ConfigPtr
}.

Definition set_src_caps_set (s : GstDiscret11AudioParse) (v : bool) :=
  {| src_caps_set := v; min_frame_size := min_frame_size s;
     element_errors := element_errors s;
     properties_config := properties_config s;
     sink_caps_config := sink_caps_config s; current_config := current_config s |}.

Definition set_min_frame_size (s : GstDiscret11AudioParse) (v : Z) :=
  {| src_caps_set := src_caps_set s; min_frame_size := v;
     element_errors := element_errors s;
     properties_config := properties_config s;
     sink_caps_config := sink_caps_config s; current_config := current_config s |}.

Definition add_element_error (s : GstDiscret11AudioParse) (v : string) :=
  {| src_caps_set := src_caps_set s; min_frame_size := min_frame_size s;
     element_errors := v :: element_errors s;
     properties_config := properties_config s;
     sink_caps_config := sink_caps_config s; current_config := current_config s |}.

Definition set_properties_config (s : GstDiscret11AudioParse)
    (v : GstDiscret11AudioParseConfig) :=
  {| src_caps_set := src_caps_set s; min_frame_size := min_frame_size s;
     element_errors := element_errors s;
     properties_config := v;
     sink_caps_config := sink_caps_config s; current_config := current_config s |}.

Definition set_sink_caps_config (s : GstDiscret11AudioParse)
    (v : GstDiscret11AudioParseConfig) :=
  {| src_caps_set := src_caps_set s; min_frame_size := min_frame_size s;
     element_errors := element_errors s;
     properties_config := properties_config s;
     sink_caps_config := v; current_config := current_config s |}.

Definition set_current_config (s : GstDiscret11AudioParse) (v : ConfigPtr) :=
  {| src_caps_set := src_caps_set s; min_frame_size := min_frame_size s;
     element_errors := element_errors s;
     properties_config := properties_config s;
     sink_caps_config := sink_caps_config s; current_config := v |}.

Definition deref (s : GstDiscret11AudioParse) (p : ConfigPtr) :
    GstDiscret11AudioParseConfig :=
  match p with
  | ptr_properties_config => properties_config s
  | ptr_sink_caps_config => sink_caps_config s
  end.

Definition store (s : GstDiscret11AudioParse) (p : ConfigPtr)
    (c : GstDiscret11AudioParseConfig) : GstDiscret11AudioParse :=
  match p with
  | ptr_properties_config => set_properties_config s c
  | ptr_sink_caps_config => set_sink_caps_config s c
  end.

Definition ConfigPtr_eqb (p q : ConfigPtr) : bool :=
  match p, q with
  | ptr_properties_config, ptr_properties_config
  | ptr_sink_caps_config, ptr_sink_caps_config => true
  | _, _ => false
  end.

(** ** The audio library, as the parser uses it

    gst_audio_format_get_info, the channel position helpers, the GstAudioInfo
    conversions and gst_audio_buffer_reorder_channels belong to gst-libs and
    are not defined in the parser.  A function that fills an array through a
    pointer takes the array as it was and returns it as it leaves it; a
    function that returns a pointer returns [None] for NULL.  What the
    library itself reads and writes through the pointers it is given is not
    part of the parser and is not followed here. *)

Class GstAudio : Type := {
  GST_AUDIO_FORMAT_S16 : GstAudioFormat;
  gst_audio_format_get_info : GstAudioFormat -> GstAudioFormatInfo;
  gst_audio_channel_get_fallback_mask : Z -> Z;
  gst_audio_channel_positions_from_mask :
    Z -> Z -> list GstAudioChannelPosition ->
    bool * list GstAudioChannelPosition;
  gst_audio_check_valid_channel_positions :
    list GstAudioChannelPosition -> Z -> bool -> bool;
  gst_audio_channel_positions_to_valid_order :
    list GstAudioChannelPosition -> Z -> bool * list GstAudioChannelPosition;
  gst_audio_channel_positions_to_mask :
    list GstAudioChannelPosition -> Z -> bool -> option Z;
  gst_audio_info_from_caps : GstCaps -> option GstAudioInfo;
  gst_audio_info_init : GstAudioInfo;
  gst_audio_info_set_format :
    GstAudioInfo -> GstAudioFormat -> Z -> Z ->
    list GstAudioChannelPosition -> GstAudioInfo;
  gst_audio_info_to_caps : GstAudioInfo -> option GstCaps;
  gst_audio_buffer_reorder_channels :
    GstBuffer -> GstAudioFormat -> Z ->
    list GstAudioChannelPosition -> list GstAudioChannelPosition -> GstBuffer
}.

(** ** GstStructure and GstBuffer accessors

    Modelled from the spec: a capability description is a media type with
    attributes; these accessors of the GStreamer core (not part of these
    sources) read one attribute of a given type, and fail when it is absent
    or of another type. *)

Definition gst_structure_has_name (s : GstStructure) (n : string) : bool :=
  String.eqb (structure_name s) n.

Definition gst_structure_set_name (s : GstStructure) (n : string) : GstStructure :=
  {| structure_name := n; structure_fields := structure_fields s |}.

Fixpoint gst_structure_get_value (fields : list (string * GValue)) (f : string)
    : option GValue :=
  match fields with
  | [] => None
  | (k, v) :: rest =>
      if String.eqb k f then Some v else gst_structure_get_value rest f
  end.

Definition gst_structure_get_int (s : GstStructure) (f : string) : option Z :=
  match gst_structure_get_value (structure_fields s) f with
  | Some (G_TYPE_INT i) => Some i
  | _ => None
  end.

Definition gst_structure_get_bitmask (s : GstStructure) (f : string) : option Z :=
  match gst_structure_get_value (structure_fields s) f with
  | Some (GST_TYPE_BITMASK m) => Some m
  | _ => None
  end.

(** [gst_caps_new_simple (name, "rate", G_TYPE_INT, rate, "channels",
    G_TYPE_INT, channels, "channel-mask", GST_TYPE_BITMASK, mask, NULL)]; the
    two [guint] arguments are read back as [gint]. *)
Definition gst_caps_new_simple (n : string) (rate channels mask : Z) : GstCaps :=
  {| structure_name := n;
     structure_fields :=
       [ ("rate"%string, G_TYPE_INT (to_gint rate));
         ("channels"%string, G_TYPE_INT (to_gint channels));
         ("channel-mask"%string, GST_TYPE_BITMASK mask) ] |}.

(** Modelled from the spec: [gst_buffer_copy_region (buf, flags, 0, size)] is a
    new buffer consisting of the first [size] bytes of the input. *)
Definition gst_buffer_copy_region (buf : GstBuffer) (size : Z) : GstBuffer :=
  take (Z.to_nat size) buf.

(** The size of [channel_positions] and [reordered_channel_positions] in
    the header. *)
Definition array_size : nat := 64.

(** [array[i]], read. *)
Definition array_get (array : list GstAudioChannelPosition) (i : nat)
    : result GstAudioChannelPosition :=
  match array !! i with
  | Some p => Ok p
  | None => OutOfBounds
  end.

(** [array[i] = p]. *)
Definition array_set (array : list GstAudioChannelPosition) (i : nat)
    (p : GstAudioChannelPosition) : result (list GstAudioChannelPosition) :=
  if (i <? length array)%nat then Ok (<[ i := p ]> array) else OutOfBounds.

(** [for (i = 0; i < count; ++i) body], on the state [s]. *)
Definition for_loop {S : Type} (count : nat) (body : S -> nat -> result S)
    (s : S) : result S :=
  fold_left (fun (r : result S) (i : nat) => let* s := r in body s i)
    (seq 0 count) (Ok s).

(** [memcpy (dst, src, sizeof (GstAudioChannelPosition) * n)] on position
    arrays: the first [n] entries of [dst] become those of [src].  It reads
    [n] entries of [src] and writes [n] entries of [dst], so it is out of
    bounds when either array has fewer. *)
Definition memcpy_positions (dst src : list GstAudioChannelPosition) (n : Z)
    : result (list GstAudioChannelPosition) :=
  if (Z.to_nat n <=? length src)%nat && (Z.to_nat n <=? length dst)%nat
  then Ok (take (Z.to_nat n) src ++ drop (Z.to_nat n) dst)
  else OutOfBounds.

(** [round_up_pow2], on a [guint]. *)
Definition round_up_pow2 (n : Z) : Z :=
  let n := to_guint (n - 1) in
  let n := Z.lor n (Z.shiftr n 1) in
  let n := Z.lor n (Z.shiftr n 2) in
  let n := Z.lor n (Z.shiftr n 4) in
  let n := Z.lor n (Z.shiftr n 8) in
  let n := Z.lor n (Z.shiftr n 16) in
  to_guint (n + 1).

Definition DEFAULT_FORMAT := GST_DISCRET11_AUDIO_PARSE_FORMAT_PCM.
Definition DEFAULT_SAMPLE_RATE : Z := 44100.
Definition DEFAULT_NUM_CHANNELS : Z := 2.
Definition DEFAULT_INTERLEAVED : bool := true.

(** ** The parser *)

Section Parser.

Context {audio : GstAudio}.

Definition DEFAULT_PCM_FORMAT : GstAudioFormat := GST_AUDIO_FORMAT_S16.

Definition gst_discret11_audio_parse_is_using_sink_caps
    (self : GstDiscret11AudioParse) : bool :=
  ConfigPtr_eqb (current_config self) ptr_sink_caps_config.

(** The two assertions [current_config != NULL] hold by the type of
    [current_config]. *)
Definition gst_discret11_audio_parse_get_config_ptr
    (self : GstDiscret11AudioParse) (config : GstDiscret11ParseConfig)
    : ConfigPtr :=
  match config with
  | GST_DISCRET11_PARSE_CONFIG_PROPERTIES => ptr_properties_config
  | GST_DISCRET11_PARSE_CONFIG_SINKCAPS => ptr_sink_caps_config
  | GST_DISCRET11_PARSE_CONFIG_CURRENT => current_config self
  end.

Definition gst_discret11_audio_parse_set_config_channels
    (config : GstDiscret11AudioParseConfig) (n_channels channel_mask : Z)
    (set_positions : bool) : result (bool * GstDiscret11AudioParseConfig) :=
  let* _ := g_assert (0 <? n_channels) in
  let config := set_num_channels config n_channels in
  let config := set_needs_channel_reordering config false in
  if set_positions then
    let channel_mask :=
      if channel_mask =? 0
      then gst_audio_channel_get_fallback_mask (to_gint (num_channels config))
      else channel_mask in
    let '(ok, positions) :=
      gst_audio_channel_positions_from_mask (to_gint (num_channels config))
        channel_mask (channel_positions config) in
    Ok (ok, set_channel_positions config positions)
  else
    Ok (true, config).

Definition gst_discret11_audio_parse_update_channel_reordering_flag
    (config : GstDiscret11AudioParseConfig)
    : result (bool * GstDiscret11AudioParseConfig) :=
  let* _ := g_assert (0 <? num_channels config) in
  if gst_audio_check_valid_channel_positions (channel_positions config)
       (to_gint (num_channels config)) true
  then Ok (true, set_needs_channel_reordering config false)
  else
    let config := set_needs_channel_reordering config true in
    let* reordered :=
      memcpy_positions (reordered_channel_positions config)
        (channel_positions config) (num_channels config) in
    let config := set_reordered_channel_positions config reordered in
    let '(ok, positions) :=
      gst_audio_channel_positions_to_valid_order
        (reordered_channel_positions config) (to_gint (num_channels config)) in
    Ok (ok, set_reordered_channel_positions config positions).

(** The format is one of the three enumerators, so the [default:] branch is
    not reached; [gst_audio_format_get_info] is total on the enumeration, so
    the assertion on its result holds.  The product of a [gint] and a
    [guint] is computed in [guint]. *)
Definition gst_discret11_audio_parse_update_config_bpf
    (config : GstDiscret11AudioParseConfig) : GstDiscret11AudioParseConfig :=
  match format config with
  | GST_DISCRET11_AUDIO_PARSE_FORMAT_PCM =>
      let fmt_info := gst_audio_format_get_info (pcm_format config) in
      set_bpf config
        (to_guint (to_guint (GST_AUDIO_FORMAT_INFO_WIDTH fmt_info)
                   * num_channels config) / 8)
  | GST_DISCRET11_AUDIO_PARSE_FORMAT_ALAW
  | GST_DISCRET11_AUDIO_PARSE_FORMAT_MULAW =>
      set_bpf config (to_guint (1 * num_channels config))
  end.

Definition gst_discret11_audio_parse_init_config
    (config : GstDiscret11AudioParseConfig)
    : result GstDiscret11AudioParseConfig :=
  let config := set_ready config false in
  let config := set_format config DEFAULT_FORMAT in
  let config := set_pcm_format config DEFAULT_PCM_FORMAT in
  let config := set_bpf config 0 in
  let config := set_sample_rate config DEFAULT_SAMPLE_RATE in
  let config := set_num_channels config DEFAULT_NUM_CHANNELS in
  let config := set_interleaved config DEFAULT_INTERLEAVED in
  let config := set_needs_channel_reordering config false in
  let* r :=
    gst_discret11_audio_parse_set_config_channels config
      (num_channels config) 0 true in
  Ok (snd r).

(** Instance initialisation, on the object as its parents left it. *)
Definition gst_discret11_audio_parse_init (self : GstDiscret11AudioParse)
    : result GstDiscret11AudioParse :=
  let* pc := gst_discret11_audio_parse_init_config (properties_config self) in
  let self := set_properties_config self pc in
  let* sc := gst_discret11_audio_parse_init_config (sink_caps_config self) in
  let self := set_sink_caps_config self sc in
  let self := set_current_config self ptr_properties_config in
  let self :=
    set_properties_config self (set_ready (properties_config self) true) in
  Ok (set_properties_config self
        (gst_discret11_audio_parse_update_config_bpf (properties_config self))).

Definition gst_discret11_audio_parse_stop (self : GstDiscret11AudioParse)
    : GstDiscret11AudioParse :=
  set_sink_caps_config self (set_ready (sink_caps_config self) false).

Definition gst_discret11_audio_parse_set_current_config
    (self : GstDiscret11AudioParse) (config : GstDiscret11ParseConfig)
    : result (bool * GstDiscret11AudioParse) :=
  match config with
  | GST_DISCRET11_PARSE_CONFIG_PROPERTIES =>
      Ok (true, set_current_config self ptr_properties_config)
  | GST_DISCRET11_PARSE_CONFIG_SINKCAPS =>
      Ok (true, set_current_config self ptr_sink_caps_config)
  | GST_DISCRET11_PARSE_CONFIG_CURRENT => AssertionFailed
  end.

Definition gst_discret11_audio_parse_get_current_config
    (self : GstDiscret11AudioParse) : GstDiscret11ParseConfig :=
  if gst_discret11_audio_parse_is_using_sink_caps self
  then GST_DISCRET11_PARSE_CONFIG_SINKCAPS
  else GST_DISCRET11_PARSE_CONFIG_PROPERTIES.

Definition gst_discret11_audio_parse_get_config_frame_size
    (self : GstDiscret11AudioParse) (config : GstDiscret11ParseConfig) : Z :=
  bpf (deref self (gst_discret11_audio_parse_get_config_ptr self config)).

Definition gst_discret11_audio_parse_is_config_ready
    (self : GstDiscret11AudioParse) (config : GstDiscret11ParseConfig) : bool :=
  ready (deref self (gst_discret11_audio_parse_get_config_ptr self config)).

(** The width is a [gint]; [round_up_pow2] takes and returns a [guint]. *)
Definition gst_discret11_audio_parse_get_alignment
    (self : GstDiscret11AudioParse) (config : GstDiscret11ParseConfig) : Z :=
  let config_ptr :=
    deref self (gst_discret11_audio_parse_get_config_ptr self config) in
  if negb (format_eqb (format config_ptr) GST_DISCRET11_AUDIO_PARSE_FORMAT_PCM)
  then 1
  else
    let width :=
      Z.quot (GST_AUDIO_FORMAT_INFO_WIDTH
                (gst_audio_format_get_info (pcm_format config_ptr))) 8 in
    let width := to_gint (GST_ROUND_UP_8 width) in
    let width := to_gint (round_up_pow2 (to_guint width)) in
    width.

(** The result is the returned [gboolean] and [*processed_data]. *)
Definition gst_discret11_audio_parse_process
    (self : GstDiscret11AudioParse) (config : GstDiscret11ParseConfig)
    (in_data : GstBuffer) (total_num_in_bytes num_valid_in_bytes : Z)
    : bool * option GstBuffer :=
  let config_ptr :=
    deref self (gst_discret11_audio_parse_get_config_ptr self config) in
  if format_eqb (format config_ptr) GST_DISCRET11_AUDIO_PARSE_FORMAT_PCM
     && needs_channel_reordering config_ptr
  then
    let outbuf := gst_buffer_copy_region in_data num_valid_in_bytes in
    let outbuf :=
      gst_audio_buffer_reorder_channels outbuf (pcm_format config_ptr)
        (to_gint (num_channels config_ptr)) (channel_positions config_ptr)
        (reordered_channel_positions config_ptr) in
    (true, Some outbuf)
  else
    (true, None).

(** Modelled from the spec: gst_discret11_parse_invalidate_src_caps
    (declared in gstdiscret11parse.h, defined outside these sources)
    invalidates the previously published output capability: the flag
    [src_caps_set] of the parent is cleared. *)
Definition gst_discret11_parse_invalidate_src_caps
    (self : GstDiscret11AudioParse) : GstDiscret11AudioParse :=
  set_src_caps_set self false.

(** The tail shared by the setters of the properties that change the frame
    size: [if (!is_using_sink_caps) { invalidate_src_caps;
    gst_base_parse_set_min_frame_size (bpf); }]. *)
Definition invalidate_and_resize (self : GstDiscret11AudioParse)
    : GstDiscret11AudioParse :=
  if negb (gst_discret11_audio_parse_is_using_sink_caps self)
  then set_min_frame_size (gst_discret11_parse_invalidate_src_caps self)
         (bpf (properties_config self))
  else self.

Definition invalidate_only (self : GstDiscret11AudioParse)
    : GstDiscret11AudioParse :=
  if negb (gst_discret11_audio_parse_is_using_sink_caps self)
  then gst_discret11_parse_invalidate_src_caps self
  else self.

(** A property identifier with the value it is set to.  [valarray] is
    [None] for a NULL array. *)
Inductive Property : Type :=
| PROP_FORMAT (new_format : GstDiscret11AudioParseFormat)
| PROP_PCM_FORMAT (new_pcm_format : GstAudioFormat)
| PROP_SAMPLE_RATE (value : Z)
| PROP_NUM_CHANNELS (value : Z)
| PROP_INTERLEAVED (new_interleaved : bool)
| PROP_CHANNEL_POSITIONS (valarray : option (list GstAudioChannelPosition)).

(** [for (i = 0; i < count; ++i) positions[i] = valarray[i]]: the loop of
    the channel-positions property, which runs to [num_channels] whatever
    the size of [positions].  The value array holds [num_channels] values
    when the loop starts, so [g_value_array_get_nth] is within it. *)
Definition copy_valarray (valarray : list GstAudioChannelPosition) (count : Z)
    (positions : list GstAudioChannelPosition)
    : result (list GstAudioChannelPosition) :=
  for_loop (Z.to_nat count)
    (fun (ps : list GstAudioChannelPosition) (i : nat) =>
       let* val := array_get valarray i in
       array_set ps i val)
    positions.

Definition gst_discret11_audio_parse_set_property
    (self : GstDiscret11AudioParse) (prop : Property)
    : result GstDiscret11AudioParse :=
  match prop with
  | PROP_FORMAT new_format =>
      if negb (format_eqb new_format (format (properties_config self))) then
        let self :=
          set_properties_config self
            (set_format (properties_config self) new_format) in
        let self :=
          set_properties_config self
            (gst_discret11_audio_parse_update_config_bpf
               (properties_config self)) in
        Ok (invalidate_and_resize self)
      else Ok self
  | PROP_PCM_FORMAT new_pcm_format =>
      if negb (new_pcm_format =? pcm_format (properties_config self)) then
        let self :=
          set_properties_config self
            (set_pcm_format (properties_config self) new_pcm_format) in
        let self :=
          set_properties_config self
            (gst_discret11_audio_parse_update_config_bpf
               (properties_config self)) in
        Ok (invalidate_and_resize self)
      else Ok self
  | PROP_SAMPLE_RATE value =>
      let new_sample_rate := to_guint value in
      if negb (new_sample_rate =? sample_rate (properties_config self)) then
        let self :=
          set_properties_config self
            (set_sample_rate (properties_config self) new_sample_rate) in
        Ok (invalidate_only self)
      else Ok self
  | PROP_NUM_CHANNELS value =>
      let new_num_channels := to_guint value in
      if negb (new_num_channels =? num_channels (properties_config self)) then
        let* r :=
          gst_discret11_audio_parse_set_config_channels
            (properties_config self) new_num_channels 0 true in
        let self := set_properties_config self (snd r) in
        let self :=
          set_properties_config self
            (set_num_channels (properties_config self) new_num_channels) in
        let self :=
          set_properties_config self
            (gst_discret11_audio_parse_update_config_bpf
               (properties_config self)) in
        Ok (invalidate_and_resize self)
      else Ok self
  | PROP_INTERLEAVED new_interleaved =>
      if negb (Bool.eqb new_interleaved (interleaved (properties_config self)))
      then
        let self :=
          set_properties_config self
            (set_interleaved (properties_config self) new_interleaved) in
        Ok (invalidate_only self)
      else Ok self
  | PROP_CHANNEL_POSITIONS valarray =>
      let config := properties_config self in
      match valarray with
      | Some [] =>
          Ok (add_element_error self
                "channel position property holds an empty array")
      | None =>
          let* self :=
            if 0 <? num_channels config then
              let* r :=
                gst_discret11_audio_parse_set_config_channels
                  (properties_config self) (num_channels config) 0 true in
              Ok (set_properties_config self (snd r))
            else Ok self in
          let self :=
            set_properties_config self
              (gst_discret11_audio_parse_update_config_bpf
                 (properties_config self)) in
          Ok (invalidate_and_resize self)
      | Some values =>
          let n_values := to_guint (Z.of_nat (length values)) in
          let* config :=
            if negb (n_values =? num_channels config) then
              let* r :=
                gst_discret11_audio_parse_set_config_channels config
                  n_values 0 false in
              Ok (snd r)
            else Ok config in
          let* positions :=
            copy_valarray values (num_channels config)
              (channel_positions config) in
          let config := set_channel_positions config positions in
          let* r :=
            gst_discret11_audio_parse_update_channel_reordering_flag config in
          let self := set_properties_config self (snd r) in
          let self :=
            set_properties_config self
              (gst_discret11_audio_parse_update_config_bpf
                 (properties_config self)) in
          Ok (invalidate_and_resize self)
      end
  end.

(** The caps are read through their first structure.  The result is the
    returned [gboolean] and the configuration as the call leaves it. *)
Definition gst_discret11_audio_parse_caps_to_config
    (caps : GstCaps) (config : GstDiscret11AudioParseConfig)
    : result (bool * GstDiscret11AudioParseConfig) :=
  let structure := caps in
  let caps :=
    if gst_structure_has_name structure "audio/x-unaligned-raw"
    then gst_structure_set_name caps "audio/x-raw"
    else caps in
  let structure := caps in
  let* r :=
    if gst_structure_has_name structure "audio/x-raw" then
      match gst_audio_info_from_caps caps with
      | None => Ok (false, config)
      | Some info =>
          let n_channels := to_guint (GST_AUDIO_INFO_CHANNELS info) in
          let config :=
            set_format config GST_DISCRET11_AUDIO_PARSE_FORMAT_PCM in
          let config := set_pcm_format config (GST_AUDIO_INFO_FORMAT info) in
          let config := set_bpf config (to_guint (GST_AUDIO_INFO_BPF info)) in
          let config :=
            set_sample_rate config (to_guint (GST_AUDIO_INFO_RATE info)) in
          let config :=
            set_interleaved config
              (layout_eqb (GST_AUDIO_INFO_LAYOUT info)
                 GST_AUDIO_LAYOUT_INTERLEAVED) in
          let* r :=
            gst_discret11_audio_parse_set_config_channels config
              n_channels 0 false in
          let config := snd r in
          let* positions :=
            memcpy_positions (channel_positions config)
              (GST_AUDIO_INFO_POSITION info) n_channels in
          let config := set_channel_positions config positions in
          Ok (true, config)
      end
    else if gst_structure_has_name structure "audio/x-alaw"
            || gst_structure_has_name structure "audio/x-mulaw" then
      let config :=
        set_format config
          (if gst_structure_has_name structure "audio/x-alaw"
           then GST_DISCRET11_AUDIO_PARSE_FORMAT_ALAW
           else GST_DISCRET11_AUDIO_PARSE_FORMAT_MULAW) in
      match gst_structure_get_int structure "rate" with
      | None => Ok (false, config)
      | Some i =>
          let config := set_sample_rate config (to_guint i) in
          match gst_structure_get_int structure "channels" with
          | None => Ok (false, config)
          | Some i =>
              let n_channels := to_guint i in
              let channel_mask :=
                match gst_structure_get_bitmask structure "channel-mask" with
                | Some m => m
                | None =>
                    gst_audio_channel_get_fallback_mask (to_gint n_channels)
                end in
              let* r :=
                gst_discret11_audio_parse_set_config_channels config
                  n_channels channel_mask true in
              if negb (fst r) then Ok (false, snd r)
              else Ok (true, set_bpf (snd r) (to_guint (1 * n_channels)))
          end
      end
    else Ok (false, config) in
  let ret := fst r in
  let config := snd r in
  Ok (ret, if ret then set_ready config true else config).

(** The layout that the configuration publishes. *)
Definition published_positions (config : GstDiscret11AudioParseConfig)
    : list GstAudioChannelPosition :=
  if needs_channel_reordering config
  then reordered_channel_positions config
  else channel_positions config.

(** The result is the returned [gboolean] and [*caps] ([None] for NULL).
    The assertion [caps != NULL] is on the caller's pointer; the [default:]
    branch is not reached.  For PCM the result of gst_audio_info_to_caps is
    stored as it is, NULL or not, and TRUE is returned. *)
Definition gst_discret11_audio_parse_config_to_caps
    (config : GstDiscret11AudioParseConfig) : bool * option GstCaps :=
  if bpf config =? 0 then (false, None)
  else
    let positions := published_positions config in
    match format config with
    | GST_DISCRET11_AUDIO_PARSE_FORMAT_PCM =>
        let info := gst_audio_info_init in
        let info :=
          gst_audio_info_set_format info (pcm_format config)
            (to_gint (sample_rate config)) (to_gint (num_channels config))
            positions in
        (true, gst_audio_info_to_caps info)
    | GST_DISCRET11_AUDIO_PARSE_FORMAT_ALAW
    | GST_DISCRET11_AUDIO_PARSE_FORMAT_MULAW =>
        match gst_audio_channel_positions_to_mask positions
                (to_gint (num_channels config)) true with
        | None => (false, None)
        | Some channel_mask =>
            (true,
             Some (gst_caps_new_simple
                     (if format_eqb (format config)
                           GST_DISCRET11_AUDIO_PARSE_FORMAT_ALAW
                      then "audio/x-alaw" else "audio/x-mulaw")
                     (sample_rate config) (num_channels config)
                     channel_mask))
        end
    end.

Definition gst_discret11_audio_parse_set_config_from_caps
    (self : GstDiscret11AudioParse) (config : GstDiscret11ParseConfig)
    (caps : GstCaps) : result (bool * GstDiscret11AudioParse) :=
  let p := gst_discret11_audio_parse_get_config_ptr self config in
  let* r := gst_discret11_audio_parse_caps_to_config caps (deref self p) in
  Ok (fst r, store self p (snd r)).

Definition gst_discret11_audio_parse_get_caps_from_config
    (self : GstDiscret11AudioParse) (config : GstDiscret11ParseConfig)
    : bool * option GstCaps :=
  gst_discret11_audio_parse_config_to_caps
    (deref self (gst_discret11_audio_parse_get_config_ptr self config)).

End Parser.

(** ** Channel reordering of a buffer

    Modelled from the spec: gst_audio_buffer_reorder_channels (audio library,
    not part of these sources) permutes the samples of every complete frame
    "from channel_positions order to reordered_positions order (a fixed
    permutation of channel slots within each frame, sample width and frame
    count unchanged)", "the permutation defined by mapping
    channel_positions[i] -> reordered_positions[i]": the sample of the channel
    at slot [i] of the source order goes to the slot that holds the same
    position in the target order. *)

Fixpoint index_of (p : GstAudioChannelPosition)
    (l : list GstAudioChannelPosition) : option nat :=
  match l with
  | [] => None
  | q :: rest => if p =? q then Some O else option_map S (index_of p rest)
  end.

(** The sample at slot [i] of a frame whose samples are [bps] bytes wide. *)
Definition sample_at (bps : nat) (frame : list Byte.byte) (i : nat)
    : list Byte.byte :=
  take bps (drop (i * bps) frame).

(** Slot [j] of the reordered frame takes the sample of the source slot that
    holds position [to !! j]; it keeps its own sample when the source order
    does not hold that position. *)
Definition source_slot (from to : list GstAudioChannelPosition) (j : nat) : nat :=
  match to !! j with
  | Some p => match index_of p from with Some i => i | None => j end
  | None => j
  end.

Definition reorder_frame (bps channels : nat)
    (from to : list GstAudioChannelPosition) (frame : list Byte.byte)
    : list Byte.byte :=
  concat (map (fun j => sample_at bps frame (source_slot from to j))
              (seq 0 channels)).

(** Frame by frame over the buffer; a trailing partial frame is left as it
    is.  [fuel] bounds the number of frames. *)
Fixpoint reorder_frames (fuel frame_size : nat)
    (f : list Byte.byte -> list Byte.byte) (buf : list Byte.byte)
    : list Byte.byte :=
  match fuel with
  | O => buf
  | S fuel' =>
      if (0 <? frame_size)%nat && (frame_size <=? length buf)%nat
      then f (take frame_size buf)
           ++ reorder_frames fuel' frame_size f (drop frame_size buf)
      else buf
  end.

Definition reorder_channels_spec (width : Z) (buf : GstBuffer) (channels : Z)
    (from to : list GstAudioChannelPosition) : GstBuffer :=
  let bps := Z.to_nat (width / 8) in
  let n := Z.to_nat channels in
  reorder_frames (length buf) (n * bps)
    (reorder_frame bps n (take n from) (take n to)) buf.

(** ** A reference implementation of the audio library

    Modelled from the spec: the helpers of the audio library, which are not
    part of these sources, in the words of the spec: the sample width of a
    PCM format (16 bits for S16LE; a 20-bit format is stored in 24 bits), the
    "documented fallback mask for the given count", the derivation of
    positions from a mask, the check that positions are "a valid canonical
    ordering" (no "duplicate non-unpositioned entries", no "unknown position
    codes"), the "canonical-order permutation of the same position set", the
    mask of a layout, and the reading and building of raw-PCM capabilities
    from "sample format, rate, channel count, layout (channel positions), and
    interleaving flag".  It serves to run the parser on concrete inputs. *)

Module Reference.

Definition GST_AUDIO_CHANNEL_POSITION_NONE : Z := -3.
Definition GST_AUDIO_CHANNEL_POSITION_MONO : Z := -2.
Definition GST_AUDIO_CHANNEL_POSITION_INVALID : Z := -1.
Definition GST_AUDIO_CHANNEL_POSITION_FRONT_LEFT : Z := 0.
Definition GST_AUDIO_CHANNEL_POSITION_FRONT_RIGHT : Z := 1.
Definition GST_AUDIO_CHANNEL_POSITION_FRONT_CENTER : Z := 2.
Definition GST_AUDIO_CHANNEL_POSITION_LFE1 : Z := 3.
Definition GST_AUDIO_CHANNEL_POSITION_REAR_LEFT : Z := 4.
Definition GST_AUDIO_CHANNEL_POSITION_REAR_RIGHT : Z := 5.

(** Number of positions that a channel mask can name. *)
Definition NUM_POSITIONS : Z := 28.

(** Format code, name and sample width in bits. *)
Definition formats : list (Z * (string * Z)) :=
  [ (0, ("UNKNOWN"%string, 0)); (1, ("ENCODED"%string, 0));
    (2, ("S8"%string, 8)); (3, ("U8"%string, 8));
    (4, ("S16LE"%string, 16)); (5, ("S16BE"%string, 16));
    (6, ("U16LE"%string, 16)); (7, ("U16BE"%string, 16));
    (8, ("S24_32LE"%string, 32)); (9, ("S24_32BE"%string, 32));
    (10, ("U24_32LE"%string, 32)); (11, ("U24_32BE"%string, 32));
    (12, ("S32LE"%string, 32)); (13, ("S32BE"%string, 32));
    (14, ("U32LE"%string, 32)); (15, ("U32BE"%string, 32));
    (16, ("S24LE"%string, 24)); (17, ("S24BE"%string, 24));
    (18, ("U24LE"%string, 24)); (19, ("U24BE"%string, 24));
    (20, ("S20LE"%string, 24)); (21, ("S20BE"%string, 24));
    (22, ("U20LE"%string, 24)); (23, ("U20BE"%string, 24));
    (24, ("S18LE"%string, 24)); (25, ("S18BE"%string, 24));
    (26, ("U18LE"%string, 24)); (27, ("U18BE"%string, 24));
    (28, ("F32LE"%string, 32)); (29, ("F32BE"%string, 32));
    (30, ("F64LE"%string, 64)); (31, ("F64BE"%string, 64)) ].

Definition GST_AUDIO_FORMAT_S16LE : GstAudioFormat := 4.
Definition GST_AUDIO_FORMAT_S20LE : GstAudioFormat := 20.
Definition GST_AUDIO_FORMAT_S32LE : GstAudioFormat := 12.

Fixpoint format_by_code (fs : list (Z * (string * Z))) (code : Z)
    : option (string * Z) :=
  match fs with
  | [] => None
  | (c, d) :: rest => if c =? code then Some d else format_by_code rest code
  end.

Fixpoint format_by_name (fs : list (Z * (string * Z))) (n : string)
    : option Z :=
  match fs with
  | [] => None
  | (c, (m, _)) :: rest =>
      if String.eqb m n then Some c else format_by_name rest n
  end.

Definition format_width (f : GstAudioFormat) : Z :=
  match format_by_code formats f with
  | Some (_, w) => w
  | None => 0
  end.

Definition get_info (f : GstAudioFormat) : GstAudioFormatInfo :=
  {| GST_AUDIO_FORMAT_INFO_WIDTH := format_width f |}.

(** Mono has no mask; stereo is front left and right; then 2.1, quad, 5.0,
    5.1, 6.1 and 7.1. *)
Definition get_fallback_mask (channels : Z) : Z :=
  match channels with
  | 2 => 0x3
  | 3 => 0xb
  | 4 => 0x33
  | 5 => 0x37
  | 6 => 0x3f
  | 7 => 0x13f
  | 8 => 0xc3f
  | _ => 0
  end.

(** The first [n] entries of [position] overwritten with those of [src]. *)
Definition overwrite (position src : list GstAudioChannelPosition) (n : Z)
    : list GstAudioChannelPosition :=
  take (Z.to_nat n) src ++ drop (Z.to_nat n) position.

(** The positions of the set bits of [mask], lowest first. *)
Definition mask_positions (mask : Z) : list GstAudioChannelPosition :=
  filter (fun i => Z.testbit mask i) (map Z.of_nat (seq 0 64)).

Definition positions_from_mask (channels mask : Z)
    (position : list GstAudioChannelPosition)
    : bool * list GstAudioChannelPosition :=
  if mask =? 0 then
    if channels =? 1 then
      (true, overwrite position [GST_AUDIO_CHANNEL_POSITION_MONO] 1)
    else if channels =? 2 then
      (true,
       overwrite position
         [GST_AUDIO_CHANNEL_POSITION_FRONT_LEFT;
          GST_AUDIO_CHANNEL_POSITION_FRONT_RIGHT] 2)
    else (false, position)
  else
    let ps := take (Z.to_nat channels) (mask_positions mask) in
    (true, overwrite position ps (Z.of_nat (length ps))).

Fixpoint increasing (l : list Z) : bool :=
  match l with
  | a :: (b :: _) as rest => (a <? b) && increasing rest
  | _ => true
  end.

Fixpoint no_duplicate (l : list Z) : bool :=
  match l with
  | [] => true
  | a :: rest => negb (existsb (Z.eqb a) rest) && no_duplicate rest
  end.

Definition check_valid_channel_positions
    (position : list GstAudioChannelPosition) (channels : Z)
    (force_order : bool) : bool :=
  let ps := take (Z.to_nat channels) position in
  match ps with
  | [] => false
  | p :: _ =>
      if (channels =? 1) && (p =? GST_AUDIO_CHANNEL_POSITION_MONO) then true
      else if p =? GST_AUDIO_CHANNEL_POSITION_NONE then true
      else
        forallb (fun q => (0 <=? q) && (q <? NUM_POSITIONS)) ps
        && no_duplicate ps
        && (negb force_order || increasing ps)
  end.

Fixpoint insert_sorted (x : Z) (l : list Z) : list Z :=
  match l with
  | [] => [x]
  | y :: rest => if x <=? y then x :: l else y :: insert_sorted x rest
  end.

Definition sort_positions (l : list Z) : list Z :=
  fold_right insert_sorted [] l.

Definition positions_to_valid_order
    (position : list GstAudioChannelPosition) (channels : Z)
    : bool * list GstAudioChannelPosition :=
  if negb (check_valid_channel_positions position channels false)
  then (false, position)
  else
    match position with
    | p :: _ =>
        if (p =? GST_AUDIO_CHANNEL_POSITION_NONE)
           || (p =? GST_AUDIO_CHANNEL_POSITION_MONO)
        then (true, position)
        else
          (true,
           overwrite position
             (sort_positions (take (Z.to_nat channels) position)) channels)
    | [] => (true, position)
    end.

Definition positions_to_mask (position : list GstAudioChannelPosition)
    (channels : Z) (force_order : bool) : option Z :=
  if check_valid_channel_positions position channels force_order then
    Some (fold_right
            (fun p m => if 0 <=? p then Z.lor (Z.shiftl 1 p) m else m)
            0 (take (Z.to_nat channels) position))
  else None.

Definition unpositioned (channels : Z) : list GstAudioChannelPosition :=
  replicate (Z.to_nat channels) GST_AUDIO_CHANNEL_POSITION_NONE.

Definition info_init : GstAudioInfo :=
  {| GST_AUDIO_INFO_FORMAT := 0;
     GST_AUDIO_INFO_LAYOUT := GST_AUDIO_LAYOUT_INTERLEAVED;
     GST_AUDIO_INFO_RATE := 0; GST_AUDIO_INFO_CHANNELS := 0;
     GST_AUDIO_INFO_BPF := 0; GST_AUDIO_INFO_POSITION := [] |}.

(** An invalid layout is replaced by the unpositioned one. *)
Definition info_set_format (info : GstAudioInfo) (f : GstAudioFormat)
    (rate channels : Z) (position : list GstAudioChannelPosition)
    : GstAudioInfo :=
  {| GST_AUDIO_INFO_FORMAT := f;
     GST_AUDIO_INFO_LAYOUT := GST_AUDIO_INFO_LAYOUT info;
     GST_AUDIO_INFO_RATE := rate;
     GST_AUDIO_INFO_CHANNELS := channels;
     GST_AUDIO_INFO_BPF := format_width f * channels / 8;
     GST_AUDIO_INFO_POSITION :=
       if check_valid_channel_positions position channels true
       then take (Z.to_nat channels) position
       else unpositioned channels |}.

Definition layout_name (l : GstAudioLayout) : string :=
  match l with
  | GST_AUDIO_LAYOUT_INTERLEAVED => "interleaved"
  | GST_AUDIO_LAYOUT_NON_INTERLEAVED => "non-interleaved"
  end.

(** No caps (NULL) for an unknown format or for a layout that has no mask. *)
Definition info_to_caps (info : GstAudioInfo) : option GstCaps :=
  match format_by_code formats (GST_AUDIO_INFO_FORMAT info),
        positions_to_mask (GST_AUDIO_INFO_POSITION info)
          (GST_AUDIO_INFO_CHANNELS info) true with
  | Some (n, _), Some m =>
      Some {| structure_name := "audio/x-raw";
              structure_fields :=
                [ ("format"%string, G_TYPE_STRING n);
                  ("layout"%string,
                   G_TYPE_STRING (layout_name (GST_AUDIO_INFO_LAYOUT info)));
                  ("rate"%string, G_TYPE_INT (GST_AUDIO_INFO_RATE info));
                  ("channels"%string,
                   G_TYPE_INT (GST_AUDIO_INFO_CHANNELS info));
                  ("channel-mask"%string, GST_TYPE_BITMASK m) ] |}
  | _, _ => None
  end.

Definition gst_structure_get_string (s : GstStructure) (f : string)
    : option string :=
  match gst_structure_get_value (structure_fields s) f with
  | Some (G_TYPE_STRING v) => Some v
  | _ => None
  end.

Definition layout_of_name (n : string) : option GstAudioLayout :=
  if String.eqb n "interleaved" then Some GST_AUDIO_LAYOUT_INTERLEAVED
  else if String.eqb n "non-interleaved"
  then Some GST_AUDIO_LAYOUT_NON_INTERLEAVED
  else None.

Definition info_from_caps (caps : GstCaps) : option GstAudioInfo :=
  if negb (gst_structure_has_name caps "audio/x-raw") then None else
  match gst_structure_get_string caps "format",
        gst_structure_get_string caps "layout",
        gst_structure_get_int caps "rate",
        gst_structure_get_int caps "channels" with
  | Some fname, Some lname, Some rate, Some channels =>
      match format_by_name formats fname, layout_of_name lname with
      | Some f, Some l =>
          if (f <=? 1) || (rate <? 1) || (channels <? 1) || (64 <? channels)
          then None
          else
            let position :=
              match gst_structure_get_bitmask caps "channel-mask" with
              | None =>
                  if channels =? 1 then Some [GST_AUDIO_CHANNEL_POSITION_MONO]
                  else if channels =? 2
                  then Some [GST_AUDIO_CHANNEL_POSITION_FRONT_LEFT;
                             GST_AUDIO_CHANNEL_POSITION_FRONT_RIGHT]
                  else None
              | Some m =>
                  if m =? 0 then Some (unpositioned channels)
                  else
                    let ps := mask_positions m in
                    if Z.of_nat (length ps) =? channels then Some ps else None
              end in
            match position with
            | None => None
            | Some ps =>
                Some {| GST_AUDIO_INFO_FORMAT := f;
                        GST_AUDIO_INFO_LAYOUT := l;
                        GST_AUDIO_INFO_RATE := rate;
                        GST_AUDIO_INFO_CHANNELS := channels;
                        GST_AUDIO_INFO_BPF := format_width f * channels / 8;
                        GST_AUDIO_INFO_POSITION := ps |}
            end
      | _, _ => None
      end
  | _, _, _, _ => None
  end.

Definition audio : GstAudio :=
  {| GST_AUDIO_FORMAT_S16 := GST_AUDIO_FORMAT_S16LE;
     gst_audio_format_get_info := get_info;
     gst_audio_channel_get_fallback_mask := get_fallback_mask;
     gst_audio_channel_positions_from_mask := positions_from_mask;
     gst_audio_check_valid_channel_positions := check_valid_channel_positions;
     gst_audio_channel_positions_to_valid_order := positions_to_valid_order;
     gst_audio_channel_positions_to_mask := positions_to_mask;
     gst_audio_info_from_caps := info_from_caps;
     gst_audio_info_init := info_init;
     gst_audio_info_set_format := info_set_format;
     gst_audio_info_to_caps := info_to_caps;
     gst_audio_buffer_reorder_channels :=
       fun buf f channels from to =>
         reorder_channels_spec (format_width f) buf channels from to |}.

(** The object as its parents leave it before instance initialisation:
    zero-filled memory. *)
Definition zeroed_config : GstDiscret11AudioParseConfig :=
  {| ready := false; format := GST_DISCRET11_AUDIO_PARSE_FORMAT_PCM;
     pcm_format := 0; bpf := 0; sample_rate := 0; num_channels := 0;
     interleaved := false; channel_positions := replicate 64 0;
     reordered_channel_positions := replicate 64 0;
     needs_channel_reordering := false |}.

Definition zeroed_element : GstDiscret11AudioParse :=
  {| src_caps_set := false; min_frame_size := 0; element_errors := [];
     properties_config := zeroed_config; sink_caps_config := zeroed_config;
     current_config := ptr_properties_config |}.

End Reference.

(** ** Units per second, reading properties, and sequences of operations *)

(** [GstFormat] of the GStreamer core, in the order of its enumerators. *)
Inductive GstFormat : Type :=
| GST_FORMAT_UNDEFINED
| GST_FORMAT_DEFAULT
| GST_FORMAT_BYTES
| GST_FORMAT_TIME
| GST_FORMAT_BUFFERS
| GST_FORMAT_PERCENT.

Definition gst_discret11_audio_parse_is_unit_format_supported
    (unit_format : GstFormat) : bool :=
  match unit_format with
  | GST_FORMAT_BYTES | GST_FORMAT_DEFAULT => true
  | _ => false
  end.

(** The result is [( *units_per_sec_n, *units_per_sec_d )].  The product of
    the two [guint] fields is computed in [guint] before it is stored in the
    [gsize]; the [default:] branch is [g_assert_not_reached]. *)
Definition gst_discret11_audio_parse_get_units_per_second
    (self : GstDiscret11AudioParse) (unit_format : GstFormat)
    (config : GstDiscret11ParseConfig) : result (Z * Z) :=
  let config_ptr :=
    deref self (gst_discret11_audio_parse_get_config_ptr self config) in
  match unit_format with
  | GST_FORMAT_BYTES =>
      Ok (to_guint (sample_rate config_ptr * bpf config_ptr), 1)
  | GST_FORMAT_DEFAULT => Ok (sample_rate config_ptr, 1)
  | _ => AssertionFailed
  end.

(** The identifiers of the properties; [Property] pairs one with a value. *)
Inductive PropertyId : Type :=
| ID_PROP_FORMAT
| ID_PROP_PCM_FORMAT
| ID_PROP_SAMPLE_RATE
| ID_PROP_NUM_CHANNELS
| ID_PROP_INTERLEAVED
| ID_PROP_CHANNEL_POSITIONS.

Definition property_id (prop : Property) : PropertyId :=
  match prop with
  | PROP_FORMAT _ => ID_PROP_FORMAT
  | PROP_PCM_FORMAT _ => ID_PROP_PCM_FORMAT
  | PROP_SAMPLE_RATE _ => ID_PROP_SAMPLE_RATE
  | PROP_NUM_CHANNELS _ => ID_PROP_NUM_CHANNELS
  | PROP_INTERLEAVED _ => ID_PROP_INTERLEAVED
  | PROP_CHANNEL_POSITIONS _ => ID_PROP_CHANNEL_POSITIONS
  end.

(** [g_value_array_insert (valarray, index, value)]. *)
Definition g_value_array_insert (valarray : list GstAudioChannelPosition)
    (index : nat) (value : GstAudioChannelPosition)
    : list GstAudioChannelPosition :=
  take index valarray ++ value :: drop index valarray.

(** The value that [gst_discret11_audio_parse_get_property] stores; the two
    [guint] fields are read as [gint], and the position array is NULL when
    the channel count is zero.  The loop over the positions reads
    [channel_positions[i]] for every [i] below [num_channels]. *)
Definition gst_discret11_audio_parse_get_property
    (self : GstDiscret11AudioParse) (prop_id : PropertyId) : result Property :=
  match prop_id with
  | ID_PROP_FORMAT => Ok (PROP_FORMAT (format (properties_config self)))
  | ID_PROP_PCM_FORMAT =>
      Ok (PROP_PCM_FORMAT (pcm_format (properties_config self)))
  | ID_PROP_SAMPLE_RATE =>
      Ok (PROP_SAMPLE_RATE (to_gint (sample_rate (properties_config self))))
  | ID_PROP_NUM_CHANNELS =>
      Ok (PROP_NUM_CHANNELS (to_gint (num_channels (properties_config self))))
  | ID_PROP_INTERLEAVED =>
      Ok (PROP_INTERLEAVED (interleaved (properties_config self)))
  | ID_PROP_CHANNEL_POSITIONS =>
      let config := properties_config self in
      if 0 <? num_channels config then
        let* valarray :=
          for_loop (Z.to_nat (num_channels config))
            (fun (valarray : list GstAudioChannelPosition) (i : nat) =>
               let* val := array_get (channel_positions config) i in
               Ok (g_value_array_insert valarray i val))
            [] in
        Ok (PROP_CHANNEL_POSITIONS (Some valarray))
      else Ok (PROP_CHANNEL_POSITIONS None)
  end.

(** The entry points through which the base class and the application
    change the element, and their effect on its state. *)
Inductive Operation : Type :=
| OP_SET_PROPERTY (prop : Property)
| OP_STOP
| OP_SET_CURRENT_CONFIG (config : GstDiscret11ParseConfig)
| OP_SET_CONFIG_FROM_CAPS (config : GstDiscret11ParseConfig) (caps : GstCaps).

Definition run_operation {audio : GstAudio} (self : GstDiscret11AudioParse)
    (op : Operation) : result GstDiscret11AudioParse :=
  match op with
  | OP_SET_PROPERTY prop => gst_discret11_audio_parse_set_property self prop
  | OP_STOP => Ok (gst_discret11_audio_parse_stop self)
  | OP_SET_CURRENT_CONFIG config =>
      let* r := gst_discret11_audio_parse_set_current_config self config in
      Ok (snd r)
  | OP_SET_CONFIG_FROM_CAPS config caps =>
      let* r := gst_discret11_audio_parse_set_config_from_caps self config caps in
      Ok (snd r)
  end.

Fixpoint run_operations {audio : GstAudio} (self : GstDiscret11AudioParse)
    (ops : list Operation) : result GstDiscret11AudioParse :=
  match ops with
  | [] => Ok self
  | op :: rest =>
      let* self' := run_operation self op in
      run_operations self' rest
  end.

(** The values for which a property can be read back as it was set: the
    integers are in the range of [gint], and a position array is not NULL,
    not empty and fits the position array of the configuration. *)
Definition readable_back (self : GstDiscret11AudioParse) (prop : Property)
    : Prop :=
  match prop with
  | PROP_SAMPLE_RATE value | PROP_NUM_CHANNELS value => is_gint value
  | PROP_CHANNEL_POSITIONS (Some values) =>
      values <> []
      /\ (length values
          <= length (channel_positions (properties_config self)))%nat
      /\ Z.of_nat (length values) < 2 ^ 31
  | PROP_CHANNEL_POSITIONS None => False
  | _ => True
  end.

(** A configuration whose [guint] fields are in range. *)
Definition guint_fields (config : GstDiscret11AudioParseConfig) : Prop :=
  is_guint (sample_rate config) /\ is_guint (num_channels config)
  /\ is_guint (bpf config).

(** Caps with a channel-mask attribute put in front. *)
Definition with_channel_mask (caps : GstCaps) (mask : Z) : GstCaps :=
  {| structure_name := structure_name caps;
     structure_fields :=
       ("channel-mask"%string, GST_TYPE_BITMASK mask) :: structure_fields caps |}.

(** ** Definitions used by the statements *)

(** The alignment in the words of the specification: "the smallest power of
    two >= the sample width in bytes, with the sample width first rounded up
    to a multiple of 8 bits before the byte conversion", and 1 for A-law and
    mu-law. *)
Definition smallest_pow2_ge (n : Z) : Z := 2 ^ Z.log2_up n.

Definition alignment_spec {audio : GstAudio}
    (config : GstDiscret11AudioParseConfig) : Z :=
  match format config with
  | GST_DISCRET11_AUDIO_PARSE_FORMAT_PCM =>
      smallest_pow2_ge
        ((GST_AUDIO_FORMAT_INFO_WIDTH
            (gst_audio_format_get_info (pcm_format config)) + 7) / 8)
  | _ => 1
  end.

(** A combination of encoding, sample width and channel count is valid when
    the channel count is a [guint] and, for PCM, the sample width is a whole
    number of bytes and one frame fits a [guint]. *)
Definition valid_combination {audio : GstAudio}
    (config : GstDiscret11AudioParseConfig) : Prop :=
  let width :=
    GST_AUDIO_FORMAT_INFO_WIDTH
      (gst_audio_format_get_info (pcm_format config)) in
  is_guint (num_channels config)
  /\ (format config = GST_DISCRET11_AUDIO_PARSE_FORMAT_PCM ->
      0 <= width /\ width mod 8 = 0 /\ width * num_channels config < 2 ^ 32).

(** The channel mask that the conversion of A-law and mu-law caps hands to
    the library: the channel-mask of the caps, and the fallback mask of the
    channel count when the caps have none or have the mask 0. *)
Definition effective_mask {audio : GstAudio} (caps : GstCaps) (channels : Z)
    : Z :=
  match gst_structure_get_bitmask caps "channel-mask" with
  | Some m =>
      if m =? 0 then gst_audio_channel_get_fallback_mask channels else m
  | None => gst_audio_channel_get_fallback_mask channels
  end.

(** The invariant of the header: a configuration that is ready has a
    nonzero [bpf]. *)
Definition ready_has_frame_size (config : GstDiscret11AudioParseConfig) : Prop :=
  ready config = true -> bpf config <> 0.

Module Examples.

Import Reference.

(** The element after instance initialisation. *)
Definition element : GstDiscret11AudioParse :=
  match gst_discret11_audio_parse_init (audio := audio) zeroed_element with
  | Ok self => self
  | _ => zeroed_element
  end.

(** The element after the base class selected the sink caps configuration
    (use-sink-caps), before any caps arrived. *)
Definition element_using_sink_caps : GstDiscret11AudioParse :=
  match gst_discret11_audio_parse_set_current_config element
          GST_DISCRET11_PARSE_CONFIG_SINKCAPS with
  | Ok (_, self) => self
  | _ => element
  end.

Definition alaw_8000_mono : GstCaps :=
  {| structure_name := "audio/x-alaw";
     structure_fields :=
       [ ("rate"%string, G_TYPE_INT 8000);
         ("channels"%string, G_TYPE_INT 1) ] |}.

Definition mulaw_16000_no_channels : GstCaps :=
  {| structure_name := "audio/x-mulaw";
     structure_fields := [ ("rate"%string, G_TYPE_INT 16000) ] |}.

Definition unaligned_s16le_48000_stereo : GstCaps :=
  {| structure_name := "audio/x-unaligned-raw";
     structure_fields :=
       [ ("format"%string, G_TYPE_STRING "S16LE");
         ("layout"%string, G_TYPE_STRING "interleaved");
         ("rate"%string, G_TYPE_INT 48000);
         ("channels"%string, G_TYPE_INT 2);
         ("channel-mask"%string, GST_TYPE_BITMASK 3) ] |}.

(** The element with the properties configuration current, after A-law
    sink caps were converted into the sink caps configuration. *)
Definition element_negotiated_alaw : GstDiscret11AudioParse :=
  match gst_discret11_audio_parse_set_config_from_caps (audio := audio)
          element GST_DISCRET11_PARSE_CONFIG_SINKCAPS alaw_8000_mono with
  | Ok (_, self) => self
  | _ => element
  end.

(** The element after the channel-positions property was set to
    front right, front left. *)
Definition element_swapped_stereo : GstDiscret11AudioParse :=
  match gst_discret11_audio_parse_set_property (audio := audio) element
          (PROP_CHANNEL_POSITIONS
             (Some [GST_AUDIO_CHANNEL_POSITION_FRONT_RIGHT;
                    GST_AUDIO_CHANNEL_POSITION_FRONT_LEFT])) with
  | Ok self => self
  | _ => element
  end.

(** The sink caps configuration after unaligned raw caps were converted
    into it, and the caps that this configuration publishes. *)
Definition negotiated_raw : GstDiscret11AudioParseConfig :=
  match gst_discret11_audio_parse_caps_to_config (audio := audio)
          unaligned_s16le_48000_stereo (sink_caps_config element) with
  | Ok (_, config) => config
  | _ => sink_caps_config element
  end.

Definition published_raw : GstCaps :=
  match gst_discret11_audio_parse_config_to_caps (audio := audio)
          negotiated_raw with
  | (_, Some caps) => caps
  | (_, None) => unaligned_s16le_48000_stereo
  end.

(** Two stereo frames of 16-bit samples and one excess byte. *)
Definition nine_bytes : GstBuffer :=
  [ Byte.x01; Byte.x02; Byte.x03; Byte.x04; Byte.x05; Byte.x06; Byte.x07;
    Byte.x08; Byte.x09 ].

End Examples.

Module MoreExamples.

Import Reference.

Definition swapped_stereo : Property :=
  PROP_CHANNEL_POSITIONS
    (Some [GST_AUDIO_CHANNEL_POSITION_FRONT_RIGHT;
           GST_AUDIO_CHANNEL_POSITION_FRONT_LEFT]).

(** A stream of operations on the initialised element: A-law sink caps
    arrive, the stream stops, and the channel count is set to 6. *)
Definition operations : list Operation :=
  [ OP_SET_CONFIG_FROM_CAPS GST_DISCRET11_PARSE_CONFIG_SINKCAPS
      Examples.alaw_8000_mono;
    OP_STOP;
    OP_SET_PROPERTY (PROP_NUM_CHANNELS 6) ].

Definition element_after_operations : GstDiscret11AudioParse :=
  match run_operations (audio := audio) Examples.element operations with
  | Ok self => self
  | _ => Examples.element
  end.

Definition alaw_published : GstCaps :=
  gst_caps_new_simple "audio/x-alaw" 8000 1 0.

(** A-law caps of three channels whose mask names two positions only. *)
Definition alaw_three_channels_mask_3 : GstCaps :=
  {| structure_name := "audio/x-alaw";
     structure_fields :=
       [ ("rate"%string, G_TYPE_INT 8000);
         ("channels"%string, G_TYPE_INT 3);
         ("channel-mask"%string, GST_TYPE_BITMASK 3) ] |}.

(** A-law caps of two channels without positions (mask 0), and of two
    channels at front left and front right (mask 3). *)
Definition alaw_stereo_mask_0 : GstCaps :=
  {| structure_name := "audio/x-alaw";
     structure_fields :=
       [ ("rate"%string, G_TYPE_INT 8000);
         ("channels"%string, G_TYPE_INT 2);
         ("channel-mask"%string, GST_TYPE_BITMASK 0) ] |}.

Definition alaw_stereo_mask_3 : GstCaps :=
  {| structure_name := "audio/x-alaw";
     structure_fields :=
       [ ("rate"%string, G_TYPE_INT 8000);
         ("channels"%string, G_TYPE_INT 2);
         ("channel-mask"%string, GST_TYPE_BITMASK 3) ] |}.

(** Nine positions in descending order, and 65 times front left. *)
Definition nine_reversed : list GstAudioChannelPosition :=
  [8; 7; 6; 5; 4; 3; 2; 1; 0].

Definition sixty_five_positions : list GstAudioChannelPosition :=
  replicate 65 GST_AUDIO_CHANNEL_POSITION_FRONT_LEFT.

(** The element after the channel count was set to 100. *)
Definition element_hundred_channels : GstDiscret11AudioParse :=
  match gst_discret11_audio_parse_set_property (audio := audio)
          Examples.element (PROP_NUM_CHANNELS 100) with
  | Ok self => self
  | _ => Examples.element
  end.

(** The element after the channel positions were set to the nine reversed
    positions. *)
Definition element_nine_reversed : GstDiscret11AudioParse :=
  match gst_discret11_audio_parse_set_property (audio := audio)
          Examples.element (PROP_CHANNEL_POSITIONS (Some nine_reversed)) with
  | Ok self => self
  | _ => Examples.element
  end.

End MoreExamples.

(** ** Basic facts *)

Lemma to_guint_small (z : Z) : is_guint z -> to_guint z = z.
Proof. unfold is_guint, to_guint. intros H. apply Z.mod_small. lia. Qed.

Lemma to_gint_small (z : Z) : is_gint z -> to_gint z = z.
Proof.
  unfold is_gint, to_gint. intros H.
  rewrite Z.mod_small by lia. lia.
Qed.

Lemma to_guint_range (z : Z) : is_guint (to_guint z).
Proof. unfold is_guint, to_guint. apply Z.mod_pos_bound. lia. Qed.

Lemma to_gint_to_guint (z : Z) : is_gint z -> to_gint (to_guint z) = z.
Proof.
  unfold is_gint, to_gint, to_guint. intros H.
  rewrite Z.add_mod_idemp_l by lia.
  rewrite Z.mod_small by lia. lia.
Qed.

Lemma format_eqb_eq (a b : GstDiscret11AudioParseFormat) :
  format_eqb a b = true <-> a = b.
Proof. destruct a, b; simpl; split; intros H; congruence. Qed.

Lemma format_eqb_refl (a : GstDiscret11AudioParseFormat) : format_eqb a a = true.
Proof. destruct a; reflexivity. Qed.

Lemma set_name_same (caps : GstCaps) (n : string) :
  gst_structure_has_name caps n = true -> gst_structure_set_name caps n = caps.
Proof.
  unfold gst_structure_has_name, gst_structure_set_name. intros H.
  apply String.eqb_eq in H. destruct caps; simpl in *. congruence.
Qed.

(** [memcpy] succeeds exactly when both arrays have [n] entries. *)
Lemma memcpy_positions_Ok (dst src r : list GstAudioChannelPosition) (n : Z) :
  memcpy_positions dst src n = Ok r
  <-> (Z.to_nat n <= length src)%nat /\ (Z.to_nat n <= length dst)%nat
      /\ r = take (Z.to_nat n) src ++ drop (Z.to_nat n) dst.
Proof.
  unfold memcpy_positions.
  destruct (Z.to_nat n <=? length src)%nat eqn:Hs;
    destruct (Z.to_nat n <=? length dst)%nat eqn:Hd; simpl;
    try apply Nat.leb_le in Hs; try apply Nat.leb_le in Hd;
    try apply Nat.leb_gt in Hs; try apply Nat.leb_gt in Hd;
    split; try discriminate; try (intros (? & ? & ?); lia).
  - intros H. inversion H. auto.
  - intros (_ & _ & ->). reflexivity.
Qed.

Lemma memcpy_positions_OutOfBounds (dst src : list GstAudioChannelPosition)
    (n : Z) :
  memcpy_positions dst src n = OutOfBounds
  <-> (length src < Z.to_nat n)%nat \/ (length dst < Z.to_nat n)%nat.
Proof.
  unfold memcpy_positions.
  destruct (Z.to_nat n <=? length src)%nat eqn:Hs;
    destruct (Z.to_nat n <=? length dst)%nat eqn:Hd; simpl;
    try apply Nat.leb_le in Hs; try apply Nat.leb_le in Hd;
    try apply Nat.leb_gt in Hs; try apply Nat.leb_gt in Hd;
    split; try discriminate; try (intros [? | ?]; lia); auto.
Qed.

Lemma memcpy_positions_no_assertion (dst src : list GstAudioChannelPosition)
    (n : Z) :
  memcpy_positions dst src n <> AssertionFailed.
Proof. unfold memcpy_positions. destruct (_ && _); discriminate. Qed.

Lemma memcpy_positions_copied (dst src r : list GstAudioChannelPosition)
    (n : Z) :
  memcpy_positions dst src n = Ok r ->
  take (Z.to_nat n) r = take (Z.to_nat n) src
  /\ drop (Z.to_nat n) r = drop (Z.to_nat n) dst
  /\ length r = length dst.
Proof.
  intros H. apply memcpy_positions_Ok in H. destruct H as (Hs & Hd & ->).
  split; [| split].
  - apply take_app_length'. rewrite length_take. lia.
  - apply drop_app_length'. rewrite length_take. lia.
  - rewrite length_app, length_take, length_drop. lia.
Qed.

(** One more round of a loop. *)
Lemma for_loop_S {S : Type} (count : nat) (body : S -> nat -> result S)
    (s : S) :
  for_loop (Datatypes.S count) body s
  = let* s' := for_loop count body s in body s' count.
Proof. unfold for_loop. rewrite seq_S, fold_left_app. reflexivity. Qed.

(** The copy loop succeeds exactly when both arrays have [count] entries,
    fails no assertion, and then has overwritten the first [count]
    entries. *)
Lemma copy_valarray_Ok (values positions r : list GstAudioChannelPosition)
    (count : nat) :
  copy_valarray values (Z.of_nat count) positions = Ok r
  <-> (count <= length values)%nat /\ (count <= length positions)%nat
      /\ r = take count values ++ drop count positions.
Proof.
  unfold copy_valarray. rewrite Nat2Z.id. revert r.
  induction count as [| count IH]; intros r.
  - unfold for_loop. simpl. rewrite drop_0. split.
    + intros H. inversion H. repeat split; lia.
    + intros (_ & _ & ->). reflexivity.
  - rewrite for_loop_S.
    destruct (for_loop count _ positions) as [ps | |] eqn:Hloop; simpl.
    + destruct (proj1 (IH ps) eq_refl) as (Hv & Hp & ->).
      unfold array_get, array_set.
      destruct (values !! count) as [v |] eqn:Hget; simpl.
      * pose proof Hget as Hget0. apply lookup_lt_Some in Hget.
        rewrite length_app, length_take, length_drop.
        replace (count `min` length values + (length positions - count))%nat
          with (length positions) by lia.
        destruct (count <? length positions)%nat eqn:Hlt;
          [apply Nat.ltb_lt in Hlt | apply Nat.ltb_ge in Hlt].
        -- assert (<[count:=v]> (take count values ++ drop count positions)
                   = take (Datatypes.S count) values
                     ++ drop (Datatypes.S count) positions) as Heq.
           { destruct (lookup_lt_is_Some_2 positions count Hlt) as [q Hq].
             rewrite insert_app_r_alt by (rewrite length_take; lia).
             rewrite length_take.
             replace (count - count `min` length values)%nat with 0%nat
               by lia.
             rewrite (drop_S positions q count Hq). simpl.
             rewrite (take_S_r values count v Hget0).
             rewrite <- app_assoc. reflexivity. }
           split.
           ++ intros H. inversion H. repeat split; try lia. exact Heq.
           ++ intros (_ & _ & ->). rewrite Heq. reflexivity.
        -- split; [discriminate | intros (_ & ? & _); lia].
      * apply lookup_ge_None in Hget.
        split; [discriminate | intros (? & _ & _); lia].
    + split; [discriminate |]. intros (Hv & Hp & _).
      pose proof (proj2 (IH _)
                    (conj (Nat.lt_le_incl _ _ Hv)
                       (conj (Nat.lt_le_incl _ _ Hp) eq_refl))) as Hc.
      discriminate.
    + split; [discriminate |]. intros (Hv & Hp & _).
      pose proof (proj2 (IH _)
                    (conj (Nat.lt_le_incl _ _ Hv)
                       (conj (Nat.lt_le_incl _ _ Hp) eq_refl))) as Hc.
      discriminate.
Qed.

Lemma gst_structure_get_int_In (caps : GstStructure) (f : string) (i : Z) :
  gst_structure_get_int caps f = Some i ->
  In (f, G_TYPE_INT i) (structure_fields caps).
Proof.
  unfold gst_structure_get_int.
  induction (structure_fields caps) as [| [k v] fields IH]; simpl;
    [discriminate |].
  destruct (String.eqb k f) eqn:E.
  - apply String.eqb_eq in E. subst k.
    destruct v; intros H; inversion H. auto.
  - auto.
Qed.

(** ** Alignment *)

Section Alignment.

Context {audio : GstAudio}.

Lemma round_up_8_then_pow2 (q : Z) :
  1 <= q <= 8 ->
  to_gint (round_up_pow2 (to_guint (to_gint (GST_ROUND_UP_8 q)))) = 8.
Proof.
  intros H.
  assert (q = 1 \/ q = 2 \/ q = 3 \/ q = 4 \/ q = 5 \/ q = 6 \/ q = 7 \/ q = 8)
    as Hq by lia.
  repeat (destruct Hq as [-> | Hq]; [reflexivity |]). subst q. reflexivity.
Qed.

Lemma smallest_pow2_ge_le_4 (k : Z) : 1 <= k <= 4 -> smallest_pow2_ge k <= 4.
Proof.
  intros H.
  assert (k = 1 \/ k = 2 \/ k = 3 \/ k = 4) as Hk by lia.
  repeat (destruct Hk as [-> | Hk]; [vm_compute; discriminate |]).
  subst k. vm_compute. discriminate.
Qed.

(** C1: the alignment operation returns 1 for A-law and mu-law, as the
    specification says.  For PCM it divides the sample width by 8 before
    rounding up to a multiple of 8, so it returns 8 for every sample
    width from 8 to 64 bits, whereas the smallest power of two that holds
    the sample is at most 4 for widths up to 32 bits. *)
Theorem get_alignment_pcm_is_8 (self : GstDiscret11AudioParse)
    (config : GstDiscret11ParseConfig) :
  let config_ptr :=
    deref self (gst_discret11_audio_parse_get_config_ptr self config) in
  let width :=
    GST_AUDIO_FORMAT_INFO_WIDTH
      (gst_audio_format_get_info (pcm_format config_ptr)) in
  (format config_ptr <> GST_DISCRET11_AUDIO_PARSE_FORMAT_PCM ->
   gst_discret11_audio_parse_get_alignment self config = 1
   /\ alignment_spec config_ptr = 1)
  /\ (format config_ptr = GST_DISCRET11_AUDIO_PARSE_FORMAT_PCM ->
      8 <= width <= 64 ->
      gst_discret11_audio_parse_get_alignment self config = 8)
  /\ (format config_ptr = GST_DISCRET11_AUDIO_PARSE_FORMAT_PCM ->
      8 <= width <= 32 ->
      alignment_spec config_ptr
      < gst_discret11_audio_parse_get_alignment self config).
Proof.
  intros config_ptr width.
  assert (format config_ptr = GST_DISCRET11_AUDIO_PARSE_FORMAT_PCM ->
          8 <= width <= 64 ->
          gst_discret11_audio_parse_get_alignment self config = 8) as Hpcm.
  { intros Hf Hw. unfold gst_discret11_audio_parse_get_alignment.
    fold config_ptr. rewrite Hf. simpl. fold width.
    apply round_up_8_then_pow2.
    rewrite Z.quot_div_nonneg by lia.
    clearbody width. Z.div_mod_to_equations. lia. }
  split; [| split].
  - intros Hf. unfold gst_discret11_audio_parse_get_alignment, alignment_spec.
    fold config_ptr. destruct (format config_ptr); try congruence; auto.
  - exact Hpcm.
  - intros Hf Hw. rewrite Hpcm by (auto; lia).
    unfold alignment_spec. rewrite Hf. fold width.
    assert (smallest_pow2_ge ((width + 7) / 8) <= 4); [| lia].
    apply smallest_pow2_ge_le_4.
    clearbody width. Z.div_mod_to_equations. lia.
Qed.

End Alignment.

Lemma get_alignment_pcm_is_8_witness :
  gst_discret11_audio_parse_get_alignment (audio := Reference.audio)
    Examples.element GST_DISCRET11_PARSE_CONFIG_PROPERTIES = 8
  /\ alignment_spec (audio := Reference.audio)
       (properties_config Examples.element) = 2.
Proof.
  split.
  - apply (get_alignment_pcm_is_8 (audio := Reference.audio) Examples.element
             GST_DISCRET11_PARSE_CONFIG_PROPERTIES);
      [reflexivity | vm_compute; split; discriminate].
  - reflexivity.
Defined.

(** ** Bytes per frame *)

Section BytesPerFrame.

Context {audio : GstAudio}.

(** C2: for every valid combination of encoding, sample width and channel
    count, update_bpf sets bpf to (sample_width / 8) * channel_count for
    PCM and to 1 * channel_count for A-law and mu-law. *)
Theorem update_config_bpf_value (config : GstDiscret11AudioParseConfig) :
  valid_combination config ->
  bpf (gst_discret11_audio_parse_update_config_bpf config)
  = match format config with
    | GST_DISCRET11_AUDIO_PARSE_FORMAT_PCM =>
        GST_AUDIO_FORMAT_INFO_WIDTH
          (gst_audio_format_get_info (pcm_format config)) / 8
        * num_channels config
    | _ => 1 * num_channels config
    end.
Proof.
  unfold valid_combination, gst_discret11_audio_parse_update_config_bpf.
  intros [Hn Hpcm].
  destruct (format config); simpl.
  - destruct (Hpcm eq_refl) as (Hw0 & Hw8 & Hfit).
    set (w := GST_AUDIO_FORMAT_INFO_WIDTH
                (gst_audio_format_get_info (pcm_format config))) in *.
    unfold is_guint in Hn.
    apply Z.div_exact in Hw8; [| lia].
    destruct (Z.eq_dec (num_channels config) 0) as [Hz | Hz].
    + rewrite Hz, !Z.mul_0_r. reflexivity.
    + assert (is_guint w) as Hw by (unfold is_guint; nia).
      rewrite (to_guint_small w Hw).
      rewrite to_guint_small by (unfold is_guint; nia).
      rewrite Hw8 at 1.
      rewrite <- Z.mul_assoc, Z.mul_comm, Z.div_mul by lia. lia.
  - rewrite to_guint_small; [reflexivity |]. unfold is_guint in *. lia.
  - rewrite to_guint_small; [reflexivity |]. unfold is_guint in *. lia.
Qed.

End BytesPerFrame.

Lemma update_config_bpf_value_witness :
  bpf (gst_discret11_audio_parse_update_config_bpf (audio := Reference.audio)
         (properties_config Examples.element)) = 16 / 8 * 2.
Proof.
  apply (update_config_bpf_value (audio := Reference.audio)
           (properties_config Examples.element)).
  vm_compute. split; [split; [discriminate | reflexivity] |].
  intros _. split; [discriminate | split; reflexivity].
Defined.

(** ** Selection of the current configuration *)

(** C3, as stated, fails on the code: the element that was told to use the
    sink caps configuration reports it as current although it is not ready,
    and the element whose sink caps configuration became ready while the
    properties configuration is selected still reports the properties
    configuration. *)
Lemma get_current_config_ignores_ready :
  (ready (sink_caps_config Examples.element_using_sink_caps) = false
   /\ gst_discret11_audio_parse_get_current_config
        Examples.element_using_sink_caps
      = GST_DISCRET11_PARSE_CONFIG_SINKCAPS)
  /\ (ready (sink_caps_config Examples.element_negotiated_alaw) = true
      /\ gst_discret11_audio_parse_get_current_config
           Examples.element_negotiated_alaw
         = GST_DISCRET11_PARSE_CONFIG_PROPERTIES).
Proof. repeat split. Qed.

(** C3, amended: the get-current-configuration operation returns the sink
    caps configuration exactly when [current_config] designates it (as last
    selected through set_current_config) and the properties configuration
    otherwise, whatever the ready flags are; it is a function of the element
    state, which it does not change. *)
Theorem get_current_config_follows_pointer (self : GstDiscret11AudioParse) :
  (gst_discret11_audio_parse_get_current_config self
   = GST_DISCRET11_PARSE_CONFIG_SINKCAPS
   <-> current_config self = ptr_sink_caps_config)
  /\ (gst_discret11_audio_parse_get_current_config self
      = GST_DISCRET11_PARSE_CONFIG_PROPERTIES
      <-> current_config self = ptr_properties_config)
  /\ (forall (config : GstDiscret11ParseConfig) (ok : bool)
        (self' : GstDiscret11AudioParse),
        gst_discret11_audio_parse_set_current_config self config
        = Ok (ok, self') ->
        gst_discret11_audio_parse_get_current_config self' = config)
  /\ (forall (ready_flag : bool),
        gst_discret11_audio_parse_get_current_config
          (set_sink_caps_config self
             (set_ready (sink_caps_config self) ready_flag))
        = gst_discret11_audio_parse_get_current_config self).
Proof.
  unfold gst_discret11_audio_parse_get_current_config,
    gst_discret11_audio_parse_is_using_sink_caps.
  repeat split; try (destruct (current_config self); simpl; congruence).
  intros config ok self' H.
  destruct config; simpl in H; inversion H; reflexivity.
Qed.

(** ** Capabilities to configuration *)

Section CapsToConfig.

Context {audio : GstAudio}.

Lemma set_config_channels_ready (config : GstDiscret11AudioParseConfig)
    (n mask : Z) (set_positions ok : bool)
    (config' : GstDiscret11AudioParseConfig) :
  gst_discret11_audio_parse_set_config_channels config n mask set_positions
  = Ok (ok, config') ->
  ready config' = ready config /\ bpf config' = bpf config
  /\ num_channels config' = n /\ needs_channel_reordering config' = false
  /\ format config' = format config /\ pcm_format config' = pcm_format config
  /\ sample_rate config' = sample_rate config /\ 0 < n.
Proof.
  unfold gst_discret11_audio_parse_set_config_channels, g_assert.
  destruct (0 <? n) eqn:Hn; simpl; [| discriminate].
  apply Z.ltb_lt in Hn.
  destruct set_positions.
  - destruct (gst_audio_channel_positions_from_mask _ _ _) as [b ps].
    intros H. inversion H. subst. simpl. auto 10.
  - intros H. inversion H. subst. simpl. auto 10.
Qed.

(** A failed conversion leaves the ready flag and bpf as they were. *)
Lemma caps_to_config_failure_fields (caps : GstCaps)
    (config config' : GstDiscret11AudioParseConfig) :
  gst_discret11_audio_parse_caps_to_config caps config = Ok (false, config') ->
  ready config' = ready config /\ bpf config' = bpf config.
Proof.
  unfold gst_discret11_audio_parse_caps_to_config.
  set (caps' := if gst_structure_has_name caps "audio/x-unaligned-raw"
                then gst_structure_set_name caps "audio/x-raw" else caps).
  destruct (gst_structure_has_name caps' "audio/x-raw").
  - destruct (gst_audio_info_from_caps caps') as [info |]; simpl.
    + destruct (gst_discret11_audio_parse_set_config_channels _ _ _ _)
        as [[ok c1] | |]; simpl; try discriminate.
      destruct (memcpy_positions _ _ _); simpl; intros H; inversion H.
    + intros H. inversion H. auto.
  - destruct (gst_structure_has_name caps' "audio/x-alaw"
              || gst_structure_has_name caps' "audio/x-mulaw").
    + destruct (gst_structure_get_int caps' "rate") as [rate |];
        [| simpl; intros H; inversion H; auto].
      destruct (gst_structure_get_int caps' "channels") as [channels |];
        [| simpl; intros H; inversion H; auto].
      destruct (gst_discret11_audio_parse_set_config_channels _ _ _ _)
        as [[ok c1] | |] eqn:Hset; simpl; try discriminate.
      destruct ok; simpl; intros H; inversion H; subst.
      apply set_config_channels_ready in Hset. simpl in Hset.
      destruct Hset as (Hr & Hb & _). auto.
    + simpl. intros H. inversion H. auto.
Qed.

(** C4, amended: when the capability-to-configuration conversion fails it
    returns FALSE to the caller and leaves the ready flag and bpf of the
    target as they were, so a target that was not ready stays not ready;
    for an unsupported media type and for raw caps that cannot be parsed
    the target is not modified at all. *)
Theorem caps_to_config_failure (caps : GstCaps)
    (config config' : GstDiscret11AudioParseConfig) :
  gst_discret11_audio_parse_caps_to_config caps config = Ok (false, config') ->
  ready config' = ready config
  /\ bpf config' = bpf config
  /\ (gst_structure_has_name caps "audio/x-alaw" = false ->
      gst_structure_has_name caps "audio/x-mulaw" = false ->
      config' = config).
Proof.
  intros Hfail.
  destruct (caps_to_config_failure_fields caps config config' Hfail)
    as [Hready Hbpf].
  split; [exact Hready |]. split; [exact Hbpf |].
  intros Halaw Hmulaw. revert Hfail.
  unfold gst_discret11_audio_parse_caps_to_config.
  set (caps' := if gst_structure_has_name caps "audio/x-unaligned-raw"
                then gst_structure_set_name caps "audio/x-raw" else caps).
  destruct (gst_structure_has_name caps' "audio/x-raw") eqn:Hraw.
  - destruct (gst_audio_info_from_caps caps') as [info |]; simpl.
    + destruct (gst_discret11_audio_parse_set_config_channels _ _ _ _)
        as [[ok c1] | |]; simpl; try discriminate.
      destruct (memcpy_positions _ _ _); simpl; intros H; inversion H.
    + intros H. inversion H. reflexivity.
  - assert (gst_structure_has_name caps' "audio/x-alaw"
            || gst_structure_has_name caps' "audio/x-mulaw" = false) as ->.
    { subst caps'. revert Hraw.
      unfold gst_structure_has_name, gst_structure_set_name in *.
      destruct (String.eqb (structure_name caps) "audio/x-unaligned-raw");
        simpl; [discriminate |].
      rewrite Halaw, Hmulaw. reflexivity. }
    simpl. intros H. inversion H. reflexivity.
Qed.

End CapsToConfig.

(** C4, as stated, fails on the code: a mu-law caps without a channels
    attribute fails to convert, yet the sink caps configuration that A-law
    caps had made ready stays ready with its format and sample rate
    overwritten and its channel count and bpf as before. *)
Lemma caps_to_config_failure_keeps_ready_and_modifies :
  let before := sink_caps_config Examples.element_negotiated_alaw in
  exists after : GstDiscret11AudioParseConfig,
    gst_discret11_audio_parse_caps_to_config (audio := Reference.audio)
      Examples.mulaw_16000_no_channels before = Ok (false, after)
    /\ ready before = true /\ ready after = true
    /\ format before = GST_DISCRET11_AUDIO_PARSE_FORMAT_ALAW
    /\ format after = GST_DISCRET11_AUDIO_PARSE_FORMAT_MULAW
    /\ sample_rate before = 8000 /\ sample_rate after = 16000
    /\ after <> before.
Proof.
  eexists. split; [vm_compute; reflexivity |].
  repeat split; try reflexivity. intros H. discriminate H.
Qed.

Lemma caps_to_config_failure_witness :
  ready (set_format
           (set_sample_rate (sink_caps_config Examples.element_negotiated_alaw)
              16000)
           GST_DISCRET11_AUDIO_PARSE_FORMAT_MULAW)
  = ready (sink_caps_config Examples.element_negotiated_alaw).
Proof.
  apply (caps_to_config_failure (audio := Reference.audio)
           Examples.mulaw_16000_no_channels
           (sink_caps_config Examples.element_negotiated_alaw)).
  vm_compute. reflexivity.
Defined.

(** ** Configuration to capabilities *)

Section ConfigToCaps.

Context {audio : GstAudio}.

(** C5: for every configuration whose bpf is 0 the configuration-to-
    capability conversion fails, returns FALSE and sets the caps pointer to
    NULL; no capability is produced. *)
Theorem config_to_caps_zero_bpf (self : GstDiscret11AudioParse)
    (config : GstDiscret11ParseConfig)
    (c : GstDiscret11AudioParseConfig) :
  bpf c = 0 ->
  gst_discret11_audio_parse_config_to_caps c = (false, None)
  /\ (deref self (gst_discret11_audio_parse_get_config_ptr self config) = c ->
      gst_discret11_audio_parse_get_caps_from_config self config
      = (false, None)).
Proof.
  intros H.
  assert (gst_discret11_audio_parse_config_to_caps c = (false, None)) as Hc.
  { unfold gst_discret11_audio_parse_config_to_caps. rewrite H. reflexivity. }
  split; [exact Hc |].
  intros Hd. unfold gst_discret11_audio_parse_get_caps_from_config.
  rewrite Hd. exact Hc.
Qed.



End ConfigToCaps.

Lemma config_to_caps_zero_bpf_witness :
  gst_discret11_audio_parse_config_to_caps (audio := Reference.audio)
    (sink_caps_config Examples.element) = (false, None).
Proof.
  exact (proj1 (config_to_caps_zero_bpf (audio := Reference.audio)
                  Examples.element GST_DISCRET11_PARSE_CONFIG_SINKCAPS
                  (sink_caps_config Examples.element) eq_refl)).
Defined.



(** ** Frame transform *)

Section Reorder.

Local Open Scope nat_scope.

Lemma index_of_lt (p : GstAudioChannelPosition)
    (l : list GstAudioChannelPosition) (i : nat) :
  index_of p l = Some i -> i < length l.
Proof.
  revert i. induction l as [| q l IH]; simpl; intros i H; [discriminate |].
  destruct (p =? q)%Z.
  - inversion H. lia.
  - destruct (index_of p l) as [k |]; simpl in H; inversion H.
    specialize (IH k eq_refl). lia.
Qed.

Lemma index_of_lookup (p : GstAudioChannelPosition)
    (l : list GstAudioChannelPosition) (i : nat) :
  index_of p l = Some i -> l !! i = Some p.
Proof.
  revert i. induction l as [| q l IH]; simpl; intros i H; [discriminate |].
  destruct (p =? q)%Z eqn:E.
  - inversion H. apply Z.eqb_eq in E. subst. reflexivity.
  - destruct (index_of p l) as [k |]; simpl in H; inversion H.
    simpl. auto.
Qed.

Lemma source_slot_lt (from to : list GstAudioChannelPosition) (j n : nat) :
  j < n -> length from <= n -> source_slot from to j < n.
Proof.
  intros Hj Hlen. unfold source_slot.
  destruct (to !! j) as [p |]; [| exact Hj].
  destruct (index_of p from) as [i |] eqn:E; [| exact Hj].
  apply index_of_lt in E. lia.
Qed.

Lemma length_sample_at (bps n i : nat) (frame : list Byte.byte) :
  length frame = n * bps -> i < n -> length (sample_at bps frame i) = bps.
Proof.
  intros Hlen Hi. unfold sample_at.
  rewrite length_take, length_drop, Hlen. nia.
Qed.

Lemma length_concat_uniform {A : Type} (b : nat) (ls : list (list A)) :
  (forall x, In x ls -> length x = b) -> length (concat ls) = length ls * b.
Proof.
  induction ls as [| x ls IH]; simpl; intros H; [reflexivity |].
  rewrite length_app, IH, (H x) by auto. reflexivity.
Qed.

(** The piece at index [j] of a concatenation of pieces of one size. *)
Lemma concat_uniform_piece {A : Type} (b : nat) (ls : list (list A))
    (j : nat) (x : list A) :
  (forall y, In y ls -> length y = b) ->
  ls !! j = Some x -> take b (drop (j * b) (concat ls)) = x.
Proof.
  revert j. induction ls as [| y ls IH]; intros j Hall Hj; [discriminate |].
  assert (length y = b) as Hy by (apply Hall; simpl; auto).
  destruct j as [| j]; simpl in *.
  - inversion Hj. subst y. apply take_app_length'. auto.
  - rewrite drop_app, (drop_ge y) by lia. simpl.
    replace (b + j * b - length y) with (j * b) by lia.
    apply IH; auto.
Qed.

Lemma reorder_frame_pieces (bps n : nat)
    (from to : list GstAudioChannelPosition) (frame : list Byte.byte) :
  length frame = n * bps -> length from <= n ->
  forall y,
    In y (map (fun j => sample_at bps frame (source_slot from to j)) (seq 0 n)) ->
    length y = bps.
Proof.
  intros Hlen Hfrom y Hy. apply in_map_iff in Hy as (j & <- & Hj).
  apply in_seq in Hj. apply (length_sample_at bps n); [exact Hlen |].
  apply source_slot_lt; [lia | exact Hfrom].
Qed.

Lemma length_reorder_frame (bps n : nat)
    (from to : list GstAudioChannelPosition) (frame : list Byte.byte) :
  length frame = n * bps -> length from <= n ->
  length (reorder_frame bps n from to frame) = n * bps.
Proof.
  intros Hlen Hfrom. unfold reorder_frame.
  rewrite (length_concat_uniform bps)
    by (apply reorder_frame_pieces; assumption).
  rewrite length_map, length_seq. reflexivity.
Qed.

(** Within a frame, slot [j] of the result holds the sample of the source
    slot that carries the position of target slot [j]. *)
Lemma reorder_frame_sample (bps n j : nat)
    (from to : list GstAudioChannelPosition) (frame : list Byte.byte) :
  length frame = n * bps -> length from <= n -> j < n ->
  sample_at bps (reorder_frame bps n from to frame) j
  = sample_at bps frame (source_slot from to j).
Proof.
  intros Hlen Hfrom Hj. unfold sample_at at 1. unfold reorder_frame.
  apply concat_uniform_piece.
  - apply reorder_frame_pieces; assumption.
  - rewrite list_lookup_fmap, lookup_seq_lt by exact Hj. reflexivity.
Qed.

Lemma length_reorder_frames (fuel frame_size : nat)
    (f : list Byte.byte -> list Byte.byte) (buf : list Byte.byte) :
  (forall frame, length frame = frame_size -> length (f frame) = frame_size) ->
  length (reorder_frames fuel frame_size f buf) = length buf.
Proof.
  intros Hf. revert buf. induction fuel as [| fuel IH]; intros buf; simpl;
    [reflexivity |].
  destruct (0 <? frame_size) eqn:H0; simpl; [| reflexivity].
  destruct (frame_size <=? length buf) eqn:H1; [| reflexivity].
  apply Nat.leb_le in H1.
  rewrite length_app, IH, Hf, length_drop by (rewrite length_take; lia). lia.
Qed.

(** Frame [m] of the result is the transform of frame [m] of the input. *)
Lemma reorder_frames_frame (frame_size : nat)
    (f : list Byte.byte -> list Byte.byte) (m fuel : nat)
    (buf : list Byte.byte) :
  (forall frame, length frame = frame_size -> length (f frame) = frame_size) ->
  0 < frame_size -> S m * frame_size <= length buf -> m < fuel ->
  take frame_size (drop (m * frame_size) (reorder_frames fuel frame_size f buf))
  = f (take frame_size (drop (m * frame_size) buf)).
Proof.
  intros Hf Hpos. revert fuel buf.
  induction m as [| m IH]; intros fuel buf Hlen Hfuel;
    (destruct fuel as [| fuel]; [lia |]); simpl reorder_frames;
    (assert ((0 <? frame_size) = true) as -> by (apply Nat.ltb_lt; lia));
    (assert ((frame_size <=? length buf) = true) as ->
       by (apply Nat.leb_le; lia)); simpl andb; cbv iota.
  - change (0 * frame_size) with 0. rewrite !drop_0.
    apply take_app_length'. rewrite Hf; [reflexivity |].
    rewrite length_take. lia.
  - assert (length (f (take frame_size buf)) = frame_size) as Hlf
      by (apply Hf; rewrite length_take; lia).
    rewrite drop_app, (drop_ge (f _)) by (rewrite Hlf; simpl; lia).
    rewrite Hlf. simpl app.
    replace (frame_size + m * frame_size - frame_size)
      with (m * frame_size) by lia.
    rewrite IH by (rewrite ?length_drop; simpl in *; lia).
    rewrite drop_drop.
    replace (frame_size + m * frame_size) with (S m * frame_size) by lia.
    reflexivity.
Qed.

Lemma frame_of_prefix {A : Type} (l : list A) (v k frame_size : nat) :
  k + frame_size <= v ->
  take frame_size (drop k (take v l)) = take frame_size (drop k l).
Proof.
  intros H. rewrite !take_drop_commute, take_take.
  replace ((k + frame_size) `min` v) with (k + frame_size) by lia.
  reflexivity.
Qed.

End Reorder.

Section Process.

Context {audio : GstAudio}.

(** C7: for every configuration and every input buffer that holds at least
    the valid bytes, the process operation produces a new buffer exactly
    when the encoding is PCM and needs_reorder is true, and signals "no
    transform" (NULL) in every other case.  The new buffer is the
    reordering of the first valid_byte_count bytes of the input; its length
    is exactly valid_byte_count; and, with whole frames of
    [channels * bytes_per_sample] bytes, the sample at slot [j] of each of
    its frames is the sample of the input frame at the slot of the source
    order that carries the position of slot [j] of the target order.  The
    operation returns no configuration: it reads the element and changes
    nothing in it. *)
Theorem process_reorders_when_needed (self : GstDiscret11AudioParse)
    (config : GstDiscret11ParseConfig) (in_data : GstBuffer)
    (total_num_in_bytes num_valid_in_bytes : Z) :
  (forall buf f channels from to,
      gst_audio_buffer_reorder_channels buf f channels from to
      = reorder_channels_spec
          (GST_AUDIO_FORMAT_INFO_WIDTH (gst_audio_format_get_info f))
          buf channels from to) ->
  0 <= num_valid_in_bytes <= Z.of_nat (length in_data) ->
  let config_ptr :=
    deref self (gst_discret11_audio_parse_get_config_ptr self config) in
  let bps :=
    Z.to_nat (GST_AUDIO_FORMAT_INFO_WIDTH
                (gst_audio_format_get_info (pcm_format config_ptr)) / 8) in
  let channels := Z.to_nat (to_gint (num_channels config_ptr)) in
  let result :=
    gst_discret11_audio_parse_process self config in_data
      total_num_in_bytes num_valid_in_bytes in
  fst result = true
  /\ (is_Some (snd result)
      <-> format config_ptr = GST_DISCRET11_AUDIO_PARSE_FORMAT_PCM
          /\ needs_channel_reordering config_ptr = true)
  /\ (forall outbuf : GstBuffer,
        snd result = Some outbuf ->
        Z.of_nat (length outbuf) = num_valid_in_bytes
        /\ forall m j : nat,
             (0 < bps)%nat -> (j < channels)%nat ->
             (Z.of_nat (S m * (channels * bps)) <= num_valid_in_bytes) ->
             sample_at bps
               (take (channels * bps) (drop (m * (channels * bps)) outbuf)) j
             = sample_at bps
                 (take (channels * bps) (drop (m * (channels * bps)) in_data))
                 (source_slot
                    (take channels (channel_positions config_ptr))
                    (take channels (reordered_channel_positions config_ptr))
                    j)).
Proof.
  intros Hlib Hvalid config_ptr bps channels result.
  subst result. unfold gst_discret11_audio_parse_process.
  fold config_ptr.
  destruct (format_eqb (format config_ptr)
              GST_DISCRET11_AUDIO_PARSE_FORMAT_PCM) eqn:Hf; simpl.
  2: { split; [reflexivity |]. split.
       - split; [intros [x Hx]; discriminate |].
         intros [Hpcm _]. rewrite Hpcm in Hf. discriminate.
       - intros outbuf H. discriminate. }
  apply format_eqb_eq in Hf.
  destruct (needs_channel_reordering config_ptr) eqn:Hn; simpl.
  2: { split; [reflexivity |]. split.
       - split; [intros [x Hx]; discriminate | intros [_ H]; discriminate].
       - intros outbuf H. discriminate. }
  split; [reflexivity |]. split; [split; eauto |].
  intros outbuf H. inversion H as [Hout]. clear H.
  rewrite Hlib. unfold reorder_channels_spec, gst_buffer_copy_region.
  fold bps. fold channels.
  set (valid := take (Z.to_nat num_valid_in_bytes) in_data).
  assert (length valid = Z.to_nat num_valid_in_bytes) as Hlen
    by (subst valid; rewrite length_take; lia).
  assert (forall frame : list Byte.byte,
            length frame = (channels * bps)%nat ->
            length
              (reorder_frame bps channels
                 (take channels (channel_positions config_ptr))
                 (take channels (reordered_channel_positions config_ptr))
                 frame) = (channels * bps)%nat) as Hframe.
  { intros frame Hfl. apply length_reorder_frame; [exact Hfl |].
    rewrite length_take. lia. }
  split.
  - rewrite length_reorder_frames by exact Hframe. lia.
  - intros m j Hbps Hj Hm.
    rewrite reorder_frames_frame; try exact Hframe; try nia.
    rewrite reorder_frame_sample; try lia.
    + f_equal. subst valid. apply frame_of_prefix. lia.
    + rewrite length_take, length_drop. lia.
    + rewrite length_take. lia.
Qed.

End Process.


Lemma process_reorders_when_needed_witness :
  is_Some
    (snd (gst_discret11_audio_parse_process (audio := Reference.audio)
            Examples.element_swapped_stereo
            GST_DISCRET11_PARSE_CONFIG_PROPERTIES Examples.nine_bytes 9 8))
  <-> format
        (deref Examples.element_swapped_stereo
           (gst_discret11_audio_parse_get_config_ptr
              Examples.element_swapped_stereo
              GST_DISCRET11_PARSE_CONFIG_PROPERTIES))
      = GST_DISCRET11_AUDIO_PARSE_FORMAT_PCM
      /\ needs_channel_reordering
           (deref Examples.element_swapped_stereo
              (gst_discret11_audio_parse_get_config_ptr
                 Examples.element_swapped_stereo
                 GST_DISCRET11_PARSE_CONFIG_PROPERTIES)) = true.
Proof.
  assert (0 <= 8 <= Z.of_nat (length Examples.nine_bytes)) as Hvalid
    by (vm_compute; split; discriminate).
  exact (proj1 (proj2 (process_reorders_when_needed (audio := Reference.audio)
           Examples.element_swapped_stereo
           GST_DISCRET11_PARSE_CONFIG_PROPERTIES Examples.nine_bytes 9 8
           (fun buf f channels from to => eq_refl) Hvalid))).
Defined.

(** The frames of the example are swapped sample by sample. *)
Example process_swaps_stereo :
  gst_discret11_audio_parse_process (audio := Reference.audio)
    Examples.element_swapped_stereo GST_DISCRET11_PARSE_CONFIG_PROPERTIES
    Examples.nine_bytes 9 8
  = (true, Some [ Byte.x03; Byte.x04; Byte.x01; Byte.x02;
                  Byte.x07; Byte.x08; Byte.x05; Byte.x06 ]).
Proof. vm_compute. reflexivity. Qed.

(** ** Round trip *)

Section RoundTrip.

Context {audio : GstAudio}.



(** Raw caps that the audio library parses, with at least one channel, a
    position for every channel and no more channels than the position array
    holds, convert to a ready configuration; it converts back when its frame
    size is not zero. *)
Lemma raw_caps_roundtrip_succeeds (caps : GstCaps) (info : GstAudioInfo)
    (config : GstDiscret11AudioParseConfig) :
  gst_structure_has_name caps "audio/x-raw"
  || gst_structure_has_name caps "audio/x-unaligned-raw" = true ->
  gst_audio_info_from_caps (gst_structure_set_name caps "audio/x-raw")
  = Some info ->
  0 < to_guint (GST_AUDIO_INFO_CHANNELS info) ->
  (Z.to_nat (to_guint (GST_AUDIO_INFO_CHANNELS info))
   <= length (GST_AUDIO_INFO_POSITION info))%nat ->
  (Z.to_nat (to_guint (GST_AUDIO_INFO_CHANNELS info))
   <= length (channel_positions config))%nat ->
  to_guint (GST_AUDIO_INFO_BPF info) <> 0 ->
  exists config' : GstDiscret11AudioParseConfig,
    gst_discret11_audio_parse_caps_to_config caps config = Ok (true, config')
    /\ ready config' = true
    /\ fst (gst_discret11_audio_parse_config_to_caps config') = true.
Proof.
  intros Hname Hfrom Hchan Hsrc Hdst Hbpf.
  unfold gst_discret11_audio_parse_caps_to_config.
  assert ((if gst_structure_has_name caps "audio/x-unaligned-raw"
           then gst_structure_set_name caps "audio/x-raw" else caps)
          = gst_structure_set_name caps "audio/x-raw") as ->.
  { destruct (gst_structure_has_name caps "audio/x-unaligned-raw");
      [reflexivity |].
    rewrite orb_false_r in Hname. symmetry. apply set_name_same, Hname. }
  assert (gst_structure_has_name (gst_structure_set_name caps "audio/x-raw")
            "audio/x-raw" = true) as -> by reflexivity.
  rewrite Hfrom.
  unfold gst_discret11_audio_parse_set_config_channels, g_assert.
  apply Z.ltb_lt in Hchan. rewrite Hchan. simpl.
  rewrite (proj2 (memcpy_positions_Ok _ _ _ _)
             (conj Hsrc (conj Hdst eq_refl))).
  simpl.
  eexists. split; [reflexivity |]. split; [reflexivity |].
  unfold gst_discret11_audio_parse_config_to_caps. simpl.
  apply Z.eqb_neq in Hbpf. rewrite Hbpf. reflexivity.
Qed.

(** C8, amended: for every capability description of a supported media kind
    that converts to a configuration, the configuration holds the encoding,
    the sample rate and the channel count of the caps, and what it converts
    back to is determined as follows.  Raw caps, aligned or unaligned, come
    back as whatever the library builds from the sample format, rate,
    channel count and positions that it read from them, unless the frame
    size it read is 0.  A-law and mu-law caps come back, under their own
    media type and with their rate and channel count, exactly when the
    positions that the library derived from their channel mask have a mask
    in canonical order, and then with that mask; it is the mask of the caps
    when the caps have a nonzero mask that the library maps to positions
    and back to itself. *)
Theorem caps_config_caps_roundtrip (caps : GstCaps)
    (config config' : GstDiscret11AudioParseConfig) :
  (forall (f : string) (i : Z),
      gst_structure_get_int caps f = Some i -> is_gint i) ->
  (forall info : GstAudioInfo,
      gst_audio_info_from_caps (gst_structure_set_name caps "audio/x-raw")
      = Some info ->
      is_gint (GST_AUDIO_INFO_RATE info)
      /\ 0 <= GST_AUDIO_INFO_CHANNELS info < 2 ^ 31) ->
  gst_discret11_audio_parse_caps_to_config caps config = Ok (true, config') ->
  ready config' = true
  /\ needs_channel_reordering config' = false
  /\ if gst_structure_has_name caps "audio/x-raw"
        || gst_structure_has_name caps "audio/x-unaligned-raw"
     then
       format config' = GST_DISCRET11_AUDIO_PARSE_FORMAT_PCM
       /\ exists info : GstAudioInfo,
            gst_audio_info_from_caps
              (gst_structure_set_name caps "audio/x-raw") = Some info
            /\ pcm_format config' = GST_AUDIO_INFO_FORMAT info
            /\ sample_rate config' = to_guint (GST_AUDIO_INFO_RATE info)
            /\ num_channels config' = GST_AUDIO_INFO_CHANNELS info
            /\ take (Z.to_nat (GST_AUDIO_INFO_CHANNELS info))
                 (channel_positions config')
               = take (Z.to_nat (GST_AUDIO_INFO_CHANNELS info))
                   (GST_AUDIO_INFO_POSITION info)
            /\ gst_discret11_audio_parse_config_to_caps config'
               = if to_guint (GST_AUDIO_INFO_BPF info) =? 0
                 then (false, None)
                 else (true,
                       gst_audio_info_to_caps
                         (gst_audio_info_set_format gst_audio_info_init
                            (GST_AUDIO_INFO_FORMAT info)
                            (GST_AUDIO_INFO_RATE info)
                            (GST_AUDIO_INFO_CHANNELS info)
                            (channel_positions config')))
     else
       exists rate channels : Z,
         gst_structure_get_int caps "rate" = Some rate
         /\ gst_structure_get_int caps "channels" = Some channels
         /\ to_guint channels <> 0
         /\ (format config' = GST_DISCRET11_AUDIO_PARSE_FORMAT_ALAW
             <-> structure_name caps = "audio/x-alaw"%string)
         /\ format config' <> GST_DISCRET11_AUDIO_PARSE_FORMAT_PCM
         /\ sample_rate config' = to_guint rate
         /\ num_channels config' = to_guint channels
         /\ gst_audio_channel_positions_from_mask channels
              (effective_mask caps channels) (channel_positions config)
            = (true, channel_positions config')
         /\ gst_discret11_audio_parse_config_to_caps config'
            = match gst_audio_channel_positions_to_mask
                      (channel_positions config') channels true with
              | Some mask_out =>
                  (true,
                   Some {| structure_name := structure_name caps;
                           structure_fields :=
                             [ ("rate"%string, G_TYPE_INT rate);
                               ("channels"%string, G_TYPE_INT channels);
                               ("channel-mask"%string,
                                GST_TYPE_BITMASK mask_out) ] |})
              | None => (false, None)
              end
         /\ (forall m : Z,
               gst_structure_get_bitmask caps "channel-mask" = Some m ->
               m <> 0 ->
               gst_audio_channel_positions_to_mask
                 (snd (gst_audio_channel_positions_from_mask channels m
                         (channel_positions config))) channels true
               = Some m ->
               exists out : GstCaps,
                 gst_discret11_audio_parse_config_to_caps config'
                 = (true, Some out)
                 /\ gst_structure_get_bitmask out "channel-mask" = Some m).
Proof.
  intros Hints Hinfo.
  unfold gst_discret11_audio_parse_caps_to_config.
  pose proof (set_name_same caps "audio/x-raw") as Hsame.
  destruct (gst_structure_has_name caps "audio/x-unaligned-raw") eqn:Hun;
    [rewrite orb_true_r;
     assert (gst_structure_has_name
               (gst_structure_set_name caps "audio/x-raw") "audio/x-raw"
             = true) as -> by reflexivity
    | rewrite orb_false_r;
      destruct (gst_structure_has_name caps "audio/x-raw") eqn:Hraw;
      [rewrite <- (Hsame eq_refl) at 1 |]].
  1, 2:
    destruct (gst_audio_info_from_caps
                (gst_structure_set_name caps "audio/x-raw"))
      as [info |] eqn:Hfrom; [| simpl; discriminate];
    destruct (Hinfo info eq_refl) as (Hrate & Hchan);
    unfold gst_discret11_audio_parse_set_config_channels, g_assert;
    destruct (0 <? to_guint (GST_AUDIO_INFO_CHANNELS info)); simpl;
      [| discriminate];
    destruct (memcpy_positions _ _ _) as [positions | |] eqn:Hcopy; simpl;
      try discriminate;
    apply memcpy_positions_copied in Hcopy; destruct Hcopy as (Htake & _);
    intros H; inversion H; subst config'; clear H;
    unfold gst_discret11_audio_parse_config_to_caps, published_positions;
    simpl;
    rewrite (to_guint_small (GST_AUDIO_INFO_CHANNELS info)) in *
      by (unfold is_guint; lia);
    rewrite (to_gint_to_guint _ Hrate);
    rewrite (to_gint_small (GST_AUDIO_INFO_CHANNELS info))
      by (unfold is_gint; lia);
    split; [reflexivity |]; split; [reflexivity |]; split; [reflexivity |];
    exists info; repeat (split; [reflexivity |]);
    split; [exact Htake | reflexivity].
  (* A-law and mu-law *)
  clear Hsame Hinfo.
  destruct (gst_structure_has_name caps "audio/x-alaw"
            || gst_structure_has_name caps "audio/x-mulaw") eqn:Hlaw;
    [| simpl; discriminate].
  destruct (gst_structure_get_int caps "rate") as [rate |] eqn:Hrate;
    [| simpl; discriminate].
  destruct (gst_structure_get_int caps "channels") as [channels |] eqn:Hchan;
    [| simpl; discriminate].
  pose proof (Hints _ _ Hrate) as Hr. pose proof (Hints _ _ Hchan) as Hc.
  unfold gst_discret11_audio_parse_set_config_channels, g_assert.
  destruct (0 <? to_guint channels) eqn:Hpos; simpl; [| discriminate].
  apply Z.ltb_lt in Hpos.
  rewrite (to_gint_to_guint _ Hc).
  match goal with
  | |- context [gst_audio_channel_positions_from_mask channels ?m ?ps] =>
      assert (m = effective_mask caps channels) as Hmask
        by (unfold effective_mask;
            destruct (gst_structure_get_bitmask caps "channel-mask")
              as [m0 |];
            [reflexivity
            | destruct (gst_audio_channel_get_fallback_mask channels =? 0);
              reflexivity]);
      rewrite Hmask
  end.
  destruct (gst_audio_channel_positions_from_mask channels
              (effective_mask caps channels) (channel_positions config))
    as [ok positions] eqn:Hfrom.
  simpl. destruct ok; simpl; [| discriminate].
  intros H; inversion H; subst config'; clear H.
  unfold gst_discret11_audio_parse_config_to_caps, published_positions.
  simpl. rewrite (to_gint_to_guint _ Hc).
  rewrite Z.mul_1_l, (to_guint_small (to_guint channels))
    by apply to_guint_range.
  assert ((to_guint channels =? 0) = false) as -> by (apply Z.eqb_neq; lia).
  split; [reflexivity |]. split; [reflexivity |].
  exists rate, channels.
  assert (to_gint (to_guint rate) = rate) as Hrg
    by (apply to_gint_to_guint; exact Hr).
  unfold gst_caps_new_simple. rewrite Hrg, (to_gint_to_guint _ Hc).
  unfold gst_structure_has_name in *.
  assert (forall m : Z,
             gst_structure_get_bitmask caps "channel-mask" = Some m ->
             m <> 0 -> effective_mask caps channels = m) as Heff.
  { intros m Hsome Hm0. unfold effective_mask. rewrite Hsome.
    apply Z.eqb_neq in Hm0. rewrite Hm0. reflexivity. }
  destruct (String.eqb (structure_name caps) "audio/x-alaw") eqn:Ha; simpl.
  - apply String.eqb_eq in Ha.
    repeat split; auto; try congruence; try lia.
    + rewrite Ha.
      destruct (gst_audio_channel_positions_to_mask positions channels true);
        reflexivity.
    + intros m Hsome Hm0 Hback. rewrite (Heff m Hsome Hm0) in Hfrom.
      rewrite Hfrom in Hback. simpl in Hback. rewrite Hback.
      eexists. split; reflexivity.
  - simpl in Hlaw. apply String.eqb_eq in Hlaw. apply String.eqb_neq in Ha.
    repeat split; auto; try congruence; try lia.
    + rewrite Hlaw.
      destruct (gst_audio_channel_positions_to_mask positions channels true);
        reflexivity.
    + intros m Hsome Hm0 Hback. rewrite (Heff m Hsome Hm0) in Hfrom.
      rewrite Hfrom in Hback. simpl in Hback. rewrite Hback.
      eexists. split; reflexivity.
Qed.

End RoundTrip.

(** ** The invariant of ready configurations *)

Section Invariant.

Context {audio : GstAudio}.

(** Stopping the stream keeps the invariant of both configurations. *)
Lemma stop_preserves_invariant (self : GstDiscret11AudioParse) :
  ready_has_frame_size (properties_config self) ->
  ready_has_frame_size
    (properties_config (gst_discret11_audio_parse_stop self))
  /\ ready_has_frame_size
       (sink_caps_config (gst_discret11_audio_parse_stop self)).
Proof.
  unfold ready_has_frame_size, gst_discret11_audio_parse_stop. simpl.
  intros H. split; [exact H | discriminate].
Qed.

(** Construction establishes the invariant when 16-bit samples are the
    default. *)
Lemma init_establishes_invariant (self self' : GstDiscret11AudioParse) :
  GST_AUDIO_FORMAT_INFO_WIDTH (gst_audio_format_get_info GST_AUDIO_FORMAT_S16)
  = 16 ->
  gst_discret11_audio_parse_init self = Ok self' ->
  bpf (properties_config self') = 4
  /\ ready (properties_config self') = true
  /\ ready (sink_caps_config self') = false
  /\ current_config self' = ptr_properties_config.
Proof.
  intros Hwidth.
  unfold gst_discret11_audio_parse_init, gst_discret11_audio_parse_init_config,
    gst_discret11_audio_parse_set_config_channels, g_assert.
  simpl.
  destruct (gst_audio_channel_positions_from_mask _ _ _) as [ok1 ps1]. simpl.
  destruct (gst_audio_channel_positions_from_mask _ _ _) as [ok2 ps2]. simpl.
  intros H. inversion H. subst self'. clear H.
  unfold gst_discret11_audio_parse_update_config_bpf. simpl.
  unfold DEFAULT_PCM_FORMAT. rewrite Hwidth. auto.
Qed.

(** The conversion of caps keeps the invariant, provided the frame size that
    the audio library reports for raw caps is not zero. *)
Lemma caps_to_config_preserves_invariant (caps : GstCaps) (ok : bool)
    (config config' : GstDiscret11AudioParseConfig) :
  (forall info : GstAudioInfo,
      gst_audio_info_from_caps (gst_structure_set_name caps "audio/x-raw")
      = Some info -> to_guint (GST_AUDIO_INFO_BPF info) <> 0) ->
  ready_has_frame_size config ->
  gst_discret11_audio_parse_caps_to_config caps config = Ok (ok, config') ->
  ready_has_frame_size config'.
Proof.
  intros Hinfo Hinv Hconv. unfold ready_has_frame_size in *.
  destruct ok.
  2: { destruct (caps_to_config_failure_fields caps config config' Hconv)
         as (-> & ->). exact Hinv. }
  intros _. revert Hconv.
  unfold gst_discret11_audio_parse_caps_to_config.
  pose proof (set_name_same caps "audio/x-raw") as Hsame.
  destruct (gst_structure_has_name caps "audio/x-unaligned-raw") eqn:Hun;
    [assert (gst_structure_has_name
               (gst_structure_set_name caps "audio/x-raw") "audio/x-raw"
             = true) as -> by reflexivity
    | destruct (gst_structure_has_name caps "audio/x-raw") eqn:Hraw;
      [rewrite <- (Hsame eq_refl) at 1 |]].
  1, 2:
    destruct (gst_audio_info_from_caps
                (gst_structure_set_name caps "audio/x-raw"))
      as [info |] eqn:Hfrom; [| simpl; discriminate];
    specialize (Hinfo info eq_refl);
    unfold gst_discret11_audio_parse_set_config_channels, g_assert;
    destruct (0 <? to_guint (GST_AUDIO_INFO_CHANNELS info)); simpl;
      [| discriminate];
    destruct (memcpy_positions _ _ _); simpl; try discriminate;
    intros H; inversion H; subst config'; simpl; exact Hinfo.
  destruct (gst_structure_has_name caps "audio/x-alaw"
            || gst_structure_has_name caps "audio/x-mulaw");
    [| simpl; discriminate].
  destruct (gst_structure_get_int caps "rate") as [rate |];
    [| simpl; discriminate].
  destruct (gst_structure_get_int caps "channels") as [channels |];
    [| simpl; discriminate].
  unfold gst_discret11_audio_parse_set_config_channels, g_assert.
  destruct (0 <? to_guint channels) eqn:Hpos; simpl; [| discriminate].
  destruct (gst_audio_channel_positions_from_mask _ _ _) as [b ps]. simpl.
  destruct b; simpl; [| discriminate].
  intros H. inversion H. subst config'. simpl.
  apply Z.ltb_lt in Hpos. rewrite Z.mul_1_l.
  rewrite (to_guint_small (to_guint channels)) by apply to_guint_range. lia.
Qed.

End Invariant.

(** ** The properties *)

Section Properties.

Context {audio : GstAudio}.

(** C9: the header requires a ready configuration to have a nonzero bpf,
    and the properties configuration is always ready.  Setting the
    num-channels property of an element with 16-bit PCM samples to
    268435456, a value of its range, makes the product of the sample width
    and the channel count wrap around to 0: the configuration stays ready
    and its bpf becomes 0. *)
Theorem set_num_channels_breaks_invariant (self : GstDiscret11AudioParse) :
  ready (properties_config self) = true ->
  format (properties_config self) = GST_DISCRET11_AUDIO_PARSE_FORMAT_PCM ->
  GST_AUDIO_FORMAT_INFO_WIDTH
    (gst_audio_format_get_info (pcm_format (properties_config self))) = 16 ->
  num_channels (properties_config self) <> 268435456 ->
  exists self' : GstDiscret11AudioParse,
    gst_discret11_audio_parse_set_property self (PROP_NUM_CHANNELS 268435456)
    = Ok self'
    /\ ready (properties_config self') = true
    /\ num_channels (properties_config self') = 268435456
    /\ bpf (properties_config self') = 0
    /\ ~ ready_has_frame_size (properties_config self').
Proof.
  intros Hready Hformat Hwidth Hn.
  unfold gst_discret11_audio_parse_set_property.
  change (to_guint 268435456) with 268435456.
  apply Z.eqb_neq in Hn. rewrite Z.eqb_sym in Hn. rewrite Hn. simpl negb.
  cbv iota.
  unfold gst_discret11_audio_parse_set_config_channels, g_assert.
  change (0 <? 268435456) with true. simpl bind.
  destruct (gst_audio_channel_positions_from_mask _ _ _) as [ok positions].
  simpl bind. eexists. split; [reflexivity |].
  assert (bpf (gst_discret11_audio_parse_update_config_bpf
                 (set_num_channels
                    (set_channel_positions
                       (set_needs_channel_reordering
                          (set_num_channels (properties_config self)
                             268435456) false) positions) 268435456)) = 0)
    as Hbpf.
  { unfold gst_discret11_audio_parse_update_config_bpf. simpl.
    rewrite Hformat. simpl. rewrite Hwidth. reflexivity. }
  assert (forall s : GstDiscret11AudioParse,
            properties_config (invalidate_and_resize s) = properties_config s)
    as Hinv.
  { intros s. unfold invalidate_and_resize.
    destruct (negb _); reflexivity. }
  rewrite Hinv. simpl properties_config.
  assert (forall c : GstDiscret11AudioParseConfig,
            ready (gst_discret11_audio_parse_update_config_bpf c) = ready c
            /\ num_channels (gst_discret11_audio_parse_update_config_bpf c)
               = num_channels c) as Hkeep.
  { intros c. unfold gst_discret11_audio_parse_update_config_bpf.
    destruct (format c); simpl; auto. }
  rewrite Hbpf. rewrite !(proj1 (Hkeep _)), !(proj2 (Hkeep _)). simpl.
  repeat split; auto.
  unfold ready_has_frame_size. rewrite Hbpf, (proj1 (Hkeep _)). simpl.
  intros H. apply H; auto.
Qed.

End Properties.

Section ChannelPositions.

Context {audio : GstAudio}.

Lemma update_config_bpf_fields (c : GstDiscret11AudioParseConfig) :
  let c' := gst_discret11_audio_parse_update_config_bpf c in
  ready c' = ready c /\ format c' = format c /\ pcm_format c' = pcm_format c
  /\ num_channels c' = num_channels c
  /\ channel_positions c' = channel_positions c
  /\ reordered_channel_positions c' = reordered_channel_positions c
  /\ needs_channel_reordering c' = needs_channel_reordering c
  /\ bpf (gst_discret11_audio_parse_update_config_bpf c') = bpf c'.
Proof.
  unfold gst_discret11_audio_parse_update_config_bpf.
  destruct (format c) eqn:E; simpl; rewrite ?E; simpl; auto 10.
Qed.

Lemma invalidate_and_resize_configs (s : GstDiscret11AudioParse) :
  properties_config (invalidate_and_resize s) = properties_config s
  /\ sink_caps_config (invalidate_and_resize s) = sink_caps_config s
  /\ current_config (invalidate_and_resize s) = current_config s.
Proof.
  unfold invalidate_and_resize. destruct (negb _); simpl; auto.
Qed.

Lemma update_config_bpf_rate (c : GstDiscret11AudioParseConfig) :
  sample_rate (gst_discret11_audio_parse_update_config_bpf c) = sample_rate c
  /\ interleaved (gst_discret11_audio_parse_update_config_bpf c)
     = interleaved c.
Proof.
  unfold gst_discret11_audio_parse_update_config_bpf.
  destruct (format c); simpl; auto.
Qed.

(** The frame size that the update computes. *)
Lemma update_config_bpf_bpf (c : GstDiscret11AudioParseConfig) :
  bpf (gst_discret11_audio_parse_update_config_bpf c)
  = match format c with
    | GST_DISCRET11_AUDIO_PARSE_FORMAT_PCM =>
        to_guint (to_guint (GST_AUDIO_FORMAT_INFO_WIDTH
                              (gst_audio_format_get_info (pcm_format c)))
                  * num_channels c) / 8
    | _ => to_guint (1 * num_channels c)
    end.
Proof.
  unfold gst_discret11_audio_parse_update_config_bpf.
  destruct (format c); reflexivity.
Qed.

(** The update of the reordering flag writes the flag and the reordered
    positions only. *)
Lemma update_channel_reordering_flag_fields
    (config config' : GstDiscret11AudioParseConfig) (ok : bool) :
  gst_discret11_audio_parse_update_channel_reordering_flag config
  = Ok (ok, config') ->
  ready config' = ready config /\ format config' = format config
  /\ pcm_format config' = pcm_format config /\ bpf config' = bpf config
  /\ sample_rate config' = sample_rate config
  /\ num_channels config' = num_channels config
  /\ interleaved config' = interleaved config
  /\ channel_positions config' = channel_positions config
  /\ needs_channel_reordering config'
     = negb (gst_audio_check_valid_channel_positions
               (channel_positions config) (to_gint (num_channels config)) true)
  /\ 0 < num_channels config.
Proof.
  unfold gst_discret11_audio_parse_update_channel_reordering_flag, g_assert.
  destruct (0 <? num_channels config) eqn:Hpos; simpl; [| discriminate].
  apply Z.ltb_lt in Hpos.
  destruct (gst_audio_check_valid_channel_positions _ _ _).
  - intros H. inversion H. subst. simpl. auto 12.
  - destruct (memcpy_positions _ _ _) as [copied | |]; simpl;
      try discriminate.
    destruct (gst_audio_channel_positions_to_valid_order _ _) as [b ps].
    intros H. inversion H. subst. simpl. auto 12.
Qed.

(** The update of the reordering flag returns when there is a channel and
    both position arrays hold [num_channels] entries; it is out of bounds
    when the order is not valid and one of the arrays holds fewer. *)
Lemma update_channel_reordering_flag_returns
    (config : GstDiscret11AudioParseConfig) :
  0 < num_channels config ->
  (Z.to_nat (num_channels config) <= length (channel_positions config))%nat ->
  (Z.to_nat (num_channels config)
   <= length (reordered_channel_positions config))%nat ->
  exists (ok : bool) (config' : GstDiscret11AudioParseConfig),
    gst_discret11_audio_parse_update_channel_reordering_flag config
    = Ok (ok, config').
Proof.
  intros Hpos Hsrc Hdst.
  unfold gst_discret11_audio_parse_update_channel_reordering_flag, g_assert.
  apply Z.ltb_lt in Hpos. rewrite Hpos. simpl.
  destruct (gst_audio_check_valid_channel_positions _ _ _); [eauto |].
  simpl.
  rewrite (proj2 (memcpy_positions_Ok _ _ _ _)
             (conj Hsrc (conj Hdst eq_refl))).
  simpl.
  destruct (gst_audio_channel_positions_to_valid_order _ _) as [b ps].
  eauto.
Qed.

(** C10: what setting the channel-positions property does, for position
    arrays of the 64 entries of the header.  A non-empty array of at most 64
    entries, whether or not its length is the current channel count, sets
    num_channels to its length, is copied to the front of channel_positions,
    and the reordering flag and bpf are recomputed.  An array of more than
    64 entries makes the copy loop write past the end of channel_positions:
    nothing makes room for it.  An empty array is rejected with an element
    error and no configuration is modified.  A NULL value, when there is a
    channel, clears the reordering flag, recomputes bpf and leaves in
    channel_positions what the library derives from the fallback mask of
    the current channel count, whether or not the library reports
    success. *)
Theorem set_channel_positions_property (self : GstDiscret11AudioParse) :
  length (channel_positions (properties_config self)) = array_size ->
  length (reordered_channel_positions (properties_config self)) = array_size ->
  (forall values : list GstAudioChannelPosition,
      values <> [] ->
      (length values <= array_size)%nat ->
      exists self' : GstDiscret11AudioParse,
        gst_discret11_audio_parse_set_property self
          (PROP_CHANNEL_POSITIONS (Some values)) = Ok self'
        /\ num_channels (properties_config self')
           = Z.of_nat (length values)
        /\ channel_positions (properties_config self')
           = values
             ++ drop (length values)
                  (channel_positions (properties_config self))
        /\ needs_channel_reordering (properties_config self')
           = negb (gst_audio_check_valid_channel_positions
                     (channel_positions (properties_config self'))
                     (Z.of_nat (length values)) true)
        /\ bpf (properties_config self')
           = match format (properties_config self) with
             | GST_DISCRET11_AUDIO_PARSE_FORMAT_PCM =>
                 to_guint
                   (to_guint
                      (GST_AUDIO_FORMAT_INFO_WIDTH
                         (gst_audio_format_get_info
                            (pcm_format (properties_config self))))
                    * Z.of_nat (length values)) / 8
             | _ => Z.of_nat (length values)
             end
        /\ sink_caps_config self' = sink_caps_config self
        /\ current_config self' = current_config self)
  /\ (forall values : list GstAudioChannelPosition,
        (array_size < length values)%nat ->
        Z.of_nat (length values) < 2 ^ 32 ->
        gst_discret11_audio_parse_set_property self
          (PROP_CHANNEL_POSITIONS (Some values)) = OutOfBounds)
  /\ (exists self' : GstDiscret11AudioParse,
        gst_discret11_audio_parse_set_property self
          (PROP_CHANNEL_POSITIONS (Some [])) = Ok self'
        /\ element_errors self' <> element_errors self
        /\ properties_config self' = properties_config self
        /\ sink_caps_config self' = sink_caps_config self
        /\ current_config self' = current_config self)
  /\ (0 < num_channels (properties_config self) ->
      exists self' : GstDiscret11AudioParse,
        gst_discret11_audio_parse_set_property self
          (PROP_CHANNEL_POSITIONS None) = Ok self'
        /\ num_channels (properties_config self')
           = num_channels (properties_config self)
        /\ channel_positions (properties_config self')
           = snd (gst_audio_channel_positions_from_mask
                    (to_gint (num_channels (properties_config self)))
                    (gst_audio_channel_get_fallback_mask
                       (to_gint (num_channels (properties_config self))))
                    (channel_positions (properties_config self)))
        /\ needs_channel_reordering (properties_config self') = false
        /\ bpf (properties_config self')
           = match format (properties_config self) with
             | GST_DISCRET11_AUDIO_PARSE_FORMAT_PCM =>
                 to_guint
                   (to_guint
                      (GST_AUDIO_FORMAT_INFO_WIDTH
                         (gst_audio_format_get_info
                            (pcm_format (properties_config self))))
                    * num_channels (properties_config self)) / 8
             | _ => to_guint (1 * num_channels (properties_config self))
             end).
Proof.
  intros Hsize Hrsize. unfold array_size in *.
  (* the configuration after the channel count was made the array length *)
  assert (forall values : list GstAudioChannelPosition,
             values <> [] -> Z.of_nat (length values) < 2 ^ 32 ->
             exists config : GstDiscret11AudioParseConfig,
               (if negb (to_guint (Z.of_nat (length values))
                         =? num_channels (properties_config self))
                then
                  let* r :=
                    gst_discret11_audio_parse_set_config_channels
                      (properties_config self)
                      (to_guint (Z.of_nat (length values))) 0 false in
                  Ok (snd r)
                else Ok (properties_config self)) = Ok config
               /\ num_channels config = Z.of_nat (length values)
               /\ channel_positions config
                  = channel_positions (properties_config self)
               /\ reordered_channel_positions config
                  = reordered_channel_positions (properties_config self)
               /\ format config = format (properties_config self)
               /\ pcm_format config = pcm_format (properties_config self))
    as Hcount.
  { intros values Hne Hsmall.
    assert (0 < length values)%nat as Hnonempty
      by (destruct values; [congruence | simpl; lia]).
    rewrite (to_guint_small (Z.of_nat (length values)))
      by (unfold is_guint; lia).
    destruct (Z.of_nat (length values) =? num_channels (properties_config self))
      eqn:Heq; simpl negb; cbv iota.
    - apply Z.eqb_eq in Heq. eexists. split; [reflexivity |]. auto 10.
    - unfold gst_discret11_audio_parse_set_config_channels, g_assert.
      assert ((0 <? Z.of_nat (length values)) = true) as ->
        by (apply Z.ltb_lt; lia).
      simpl. eexists. split; [reflexivity |]. simpl. auto 10. }
  split; [| split; [| split]].
  - intros values Hne Hroom.
    destruct (Hcount values Hne ltac:(lia))
      as (config & Hconfig & Hn & Hps & Hrs & Hf & Hpf).
    assert (0 < length values)%nat as Hnonempty
      by (destruct values; [congruence | simpl; lia]).
    unfold gst_discret11_audio_parse_set_property. cbv beta iota zeta.
    destruct values as [| v values']; [congruence |].
    remember (v :: values') as values eqn:Hvalues.
    clear Hvalues Hne v values'.
    rewrite Hconfig. simpl bind. rewrite Hn, Hps.
    assert (length values
            <= length (channel_positions (properties_config self)))%nat
      as Hfit by lia.
    rewrite (proj2 (copy_valarray_Ok values _ _ (length values))
               (conj (le_n _) (conj Hfit eq_refl))).
    simpl bind. rewrite take_ge by lia.
    set (config1 :=
           set_channel_positions config
             (values ++ drop (length values)
                          (channel_positions (properties_config self)))).
    destruct (update_channel_reordering_flag_returns config1)
      as (ok & config2 & Hupdate).
    { subst config1. simpl. lia. }
    { subst config1. simpl. rewrite Hn, Nat2Z.id, length_app, length_drop.
      lia. }
    { subst config1. simpl. rewrite Hn, Nat2Z.id, Hrs. lia. }
    rewrite Hupdate. simpl bind.
    destruct (update_channel_reordering_flag_fields _ _ _ Hupdate)
      as (_ & Hf2 & Hpf2 & _ & _ & Hn2 & _ & Hps2 & Hneed & _).
    subst config1. simpl in Hf2, Hpf2, Hn2, Hps2, Hneed.
    eexists. split; [reflexivity |].
    rewrite (proj1 (invalidate_and_resize_configs _)),
      (proj1 (proj2 (invalidate_and_resize_configs _))),
      (proj2 (proj2 (invalidate_and_resize_configs _))).
    simpl.
    destruct (update_config_bpf_fields config2)
      as (_ & _ & _ & -> & -> & _ & -> & _).
    rewrite update_config_bpf_bpf.
    rewrite Hn2, Hps2, Hneed, Hf2, Hpf2, Hn, Hf, Hpf.
    rewrite (to_gint_small (Z.of_nat (length values)))
      by (unfold is_gint; lia).
    repeat split; auto.
    destruct (format (properties_config self)); try reflexivity;
      rewrite Z.mul_1_l; apply to_guint_small; unfold is_guint; lia.
  - intros values Hbig Hsmall.
    assert (values <> []) as Hne by (destruct values; simpl in *; [lia | congruence]).
    destruct (Hcount values Hne Hsmall)
      as (config & Hconfig & Hn & Hps & _).
    unfold gst_discret11_audio_parse_set_property. cbv beta iota zeta.
    destruct values as [| v values']; [congruence |].
    remember (v :: values') as values eqn:Hvalues.
    clear Hvalues Hne v values'.
    rewrite Hconfig. simpl bind. rewrite Hn, Hps.
    destruct (copy_valarray values (Z.of_nat (length values))
                (channel_positions (properties_config self)))
      as [r | |] eqn:Hcopy; [| | reflexivity].
    + apply copy_valarray_Ok in Hcopy. lia.
    + exfalso. revert Hcopy. unfold copy_valarray. rewrite Nat2Z.id.
      generalize (length values) as count.
      induction count as [| count IH]; [discriminate |].
      rewrite for_loop_S.
      destruct (for_loop count _ _) as [ps | |]; simpl;
        [| congruence | discriminate].
      unfold array_get, array_set.
      destruct (values !! count); simpl; [| discriminate].
      destruct (count <? length ps)%nat; discriminate.
  - eexists. split; [reflexivity |]. simpl. repeat split; auto.
    intros H. apply (f_equal (@length string)) in H. simpl in H. lia.
  - intros Hpos.
    unfold gst_discret11_audio_parse_set_property.
    apply Z.ltb_lt in Hpos. rewrite Hpos.
    unfold gst_discret11_audio_parse_set_config_channels, g_assert.
    rewrite Hpos. simpl bind. simpl num_channels.
    simpl channel_positions.
    destruct (gst_audio_channel_positions_from_mask _ _ _)
      as [ok positions].
    simpl bind. eexists. split; [reflexivity |].
    rewrite (proj1 (invalidate_and_resize_configs _)).
    simpl.
    destruct (update_config_bpf_fields
                (set_channel_positions
                   (set_needs_channel_reordering
                      (set_num_channels (properties_config self)
                         (num_channels (properties_config self))) false)
                   positions))
      as (_ & _ & _ & -> & -> & _ & -> & _).
    rewrite update_config_bpf_bpf. simpl. auto.
Qed.

End ChannelPositions.

(** ** The theorems at concrete inputs *)


(** C8, as stated, fails on the code.  A-law caps of three channels with
    the channel mask 3 convert successfully, into a ready configuration,
    which does not convert back: the round trip yields no caps.  A-law caps
    of two channels with the channel mask 0 (no positions) convert and come
    back with the channel mask 3 (front left, front right): the layout is
    not preserved. *)
Lemma caps_config_caps_roundtrip_fails :
  (exists config' : GstDiscret11AudioParseConfig,
      gst_discret11_audio_parse_caps_to_config (audio := Reference.audio)
        MoreExamples.alaw_three_channels_mask_3
        (sink_caps_config Examples.element) = Ok (true, config')
      /\ ready config' = true
      /\ gst_discret11_audio_parse_config_to_caps (audio := Reference.audio)
           config' = (false, None))
  /\ (exists (config' : GstDiscret11AudioParseConfig) (out : GstCaps),
        gst_discret11_audio_parse_caps_to_config (audio := Reference.audio)
          MoreExamples.alaw_stereo_mask_0
          (sink_caps_config Examples.element) = Ok (true, config')
        /\ gst_discret11_audio_parse_config_to_caps (audio := Reference.audio)
             config' = (true, Some out)
        /\ gst_structure_get_bitmask MoreExamples.alaw_stereo_mask_0
             "channel-mask" = Some 0
        /\ gst_structure_get_bitmask out "channel-mask" = Some 3).
Proof.
  split.
  - eexists. split; [vm_compute; reflexivity |].
    split; vm_compute; reflexivity.
  - eexists. eexists. split; [vm_compute; reflexivity |].
    split; [vm_compute; reflexivity |]. split; reflexivity.
Qed.

Lemma caps_config_caps_roundtrip_witness :
  ready Examples.negotiated_raw = true
  /\ needs_channel_reordering Examples.negotiated_raw = false
  /\ format Examples.negotiated_raw = GST_DISCRET11_AUDIO_PARSE_FORMAT_PCM
  /\ exists info : GstAudioInfo,
       gst_audio_info_from_caps (GstAudio := Reference.audio)
         (gst_structure_set_name Examples.unaligned_s16le_48000_stereo
            "audio/x-raw") = Some info
       /\ pcm_format Examples.negotiated_raw = GST_AUDIO_INFO_FORMAT info
       /\ sample_rate Examples.negotiated_raw
          = to_guint (GST_AUDIO_INFO_RATE info)
       /\ num_channels Examples.negotiated_raw = GST_AUDIO_INFO_CHANNELS info
       /\ take (Z.to_nat (GST_AUDIO_INFO_CHANNELS info))
            (channel_positions Examples.negotiated_raw)
          = take (Z.to_nat (GST_AUDIO_INFO_CHANNELS info))
              (GST_AUDIO_INFO_POSITION info)
       /\ gst_discret11_audio_parse_config_to_caps (audio := Reference.audio)
            Examples.negotiated_raw
          = if to_guint (GST_AUDIO_INFO_BPF info) =? 0
            then (false, None)
            else (true,
                  gst_audio_info_to_caps (GstAudio := Reference.audio)
                    (gst_audio_info_set_format (GstAudio := Reference.audio)
                       (gst_audio_info_init (GstAudio := Reference.audio))
                       (GST_AUDIO_INFO_FORMAT info)
                       (GST_AUDIO_INFO_RATE info)
                       (GST_AUDIO_INFO_CHANNELS info)
                       (channel_positions Examples.negotiated_raw))).
Proof.
  assert (forall (f : string) (i : Z),
             gst_structure_get_int Examples.unaligned_s16le_48000_stereo f
             = Some i -> is_gint i) as Hints.
  { intros f i H. apply gst_structure_get_int_In in H. simpl in H.
    repeat (destruct H as [H | H]; [inversion H |]); try contradiction;
      (split; [vm_compute; discriminate | reflexivity]). }
  assert (forall info : GstAudioInfo,
             gst_audio_info_from_caps (GstAudio := Reference.audio)
               (gst_structure_set_name Examples.unaligned_s16le_48000_stereo
                  "audio/x-raw") = Some info ->
             is_gint (GST_AUDIO_INFO_RATE info)
             /\ 0 <= GST_AUDIO_INFO_CHANNELS info < 2 ^ 31) as Hinfo.
  { intros info H. vm_compute in H. inversion H. subst. simpl.
    repeat split; vm_compute; discriminate || reflexivity. }
  assert (gst_discret11_audio_parse_caps_to_config (audio := Reference.audio)
            Examples.unaligned_s16le_48000_stereo
            (sink_caps_config Examples.element)
          = Ok (true, Examples.negotiated_raw)) as Hto
    by (vm_compute; reflexivity).
  exact (caps_config_caps_roundtrip (audio := Reference.audio)
           Examples.unaligned_s16le_48000_stereo
           (sink_caps_config Examples.element) Examples.negotiated_raw
           Hints Hinfo Hto).
Defined.

(** A-law caps of two channels at front left and front right come back with
    their media type, rate, channel count and mask. *)
Example alaw_stereo_roundtrip :
  exists config' : GstDiscret11AudioParseConfig,
    gst_discret11_audio_parse_caps_to_config (audio := Reference.audio)
      MoreExamples.alaw_stereo_mask_3 (sink_caps_config Examples.element)
    = Ok (true, config')
    /\ gst_discret11_audio_parse_config_to_caps (audio := Reference.audio)
         config' = (true, Some MoreExamples.alaw_stereo_mask_3).
Proof.
  eexists. split; [vm_compute; reflexivity |]. vm_compute. reflexivity.
Qed.

Lemma set_num_channels_breaks_invariant_witness :
  exists self' : GstDiscret11AudioParse,
    gst_discret11_audio_parse_set_property (audio := Reference.audio)
      Examples.element (PROP_NUM_CHANNELS 268435456) = Ok self'
    /\ ready (properties_config self') = true
    /\ num_channels (properties_config self') = 268435456
    /\ bpf (properties_config self') = 0
    /\ ~ ready_has_frame_size (properties_config self').
Proof.
  apply (set_num_channels_breaks_invariant (audio := Reference.audio)
           Examples.element); try reflexivity.
  vm_compute. discriminate.
Defined.

(** On the initialised element, an array of 65 positions makes the setter
    of the channel-positions property write past the end of
    channel_positions. *)
Lemma set_channel_positions_property_witness :
  gst_discret11_audio_parse_set_property (audio := Reference.audio)
    Examples.element
    (PROP_CHANNEL_POSITIONS (Some MoreExamples.sixty_five_positions))
  = OutOfBounds.
Proof.
  refine (proj1 (proj2 (set_channel_positions_property
                          (audio := Reference.audio) Examples.element
                          eq_refl eq_refl))
            MoreExamples.sixty_five_positions _ _).
  - vm_compute. lia.
  - vm_compute. reflexivity.
Defined.

(** With nine channels, for which the library has no default layout, a
    NULL value leaves the positions that were set before and clears the
    reordering flag, although these positions are not in canonical order. *)
Example null_positions_keep_stale_layout :
  exists self' : GstDiscret11AudioParse,
    gst_discret11_audio_parse_set_property (audio := Reference.audio)
      MoreExamples.element_nine_reversed (PROP_CHANNEL_POSITIONS None)
    = Ok self'
    /\ needs_channel_reordering
         (properties_config MoreExamples.element_nine_reversed) = true
    /\ take 9 (channel_positions (properties_config self'))
       = MoreExamples.nine_reversed
    /\ needs_channel_reordering (properties_config self') = false
    /\ gst_audio_check_valid_channel_positions (GstAudio := Reference.audio)
         (channel_positions (properties_config self')) 9 true = false.
Proof.
  eexists. split; [vm_compute; reflexivity |].
  repeat split; vm_compute; reflexivity.
Qed.

(** ** Rounding up to a power of two *)

(** One step [n | (n >> s)] of the smearing: when the [k] bits below and
    including bit [h] are set and no bit above [h] is, the step sets the
    [k + s] bits below and including [h]. *)
Lemma smear_step (y h k s : Z) :
  0 <= s <= k ->
  (forall i, h < i -> Z.testbit y i = false) ->
  (forall i, 0 <= i -> h - k < i <= h -> Z.testbit y i = true) ->
  (forall i, h < i -> Z.testbit (Z.lor y (Z.shiftr y s)) i = false)
  /\ (forall i, 0 <= i -> h - (k + s) < i <= h ->
        Z.testbit (Z.lor y (Z.shiftr y s)) i = true).
Proof.
  intros Hs Hhigh Hlow. split; intros i Hi.
  - rewrite Z.lor_spec, Hhigh by lia.
    destruct (Z.le_gt_cases 0 i) as [H0 | H0].
    + rewrite Z.shiftr_spec by lia. rewrite Hhigh by lia. reflexivity.
    + rewrite (Z.testbit_neg_r _ i) by lia. reflexivity.
  - intros Hrange. rewrite Z.lor_spec, Z.shiftr_spec by lia.
    destruct (Z.le_gt_cases i (h - k)) as [Hle | Hgt].
    + rewrite (Hlow (i + s)) by lia. apply orb_true_r.
    + rewrite (Hlow i) by lia. reflexivity.
Qed.

(** The five steps turn a positive 32-bit value into the value with all
    bits up to its highest set bit set. *)
Lemma smear_ones (x : Z) :
  0 < x < 2 ^ 32 ->
  let n := Z.lor x (Z.shiftr x 1) in
  let n := Z.lor n (Z.shiftr n 2) in
  let n := Z.lor n (Z.shiftr n 4) in
  let n := Z.lor n (Z.shiftr n 8) in
  let n := Z.lor n (Z.shiftr n 16) in
  n = Z.ones (Z.log2 x + 1).
Proof.
  intros Hx.
  assert (0 <= Z.log2 x < 32) as Hh
    by (split; [apply Z.log2_nonneg | apply Z.log2_lt_pow2; lia]).
  set (h := Z.log2 x) in *.
  assert ((forall i, h < i -> Z.testbit x i = false)
          /\ (forall i, 0 <= i -> h - 1 < i <= h -> Z.testbit x i = true))
    as [H0 L0].
  { split.
    - intros i Hi. apply Z.bits_above_log2; lia.
    - intros i Hi Hr. replace i with h by lia. apply Z.bit_log2. lia. }
  destruct (smear_step x h 1 1 ltac:(lia) H0 L0) as [H1 L1].
  destruct (smear_step _ h 2 2 ltac:(lia) H1 L1) as [H2 L2].
  destruct (smear_step _ h 4 4 ltac:(lia) H2 L2) as [H3 L3].
  destruct (smear_step _ h 8 8 ltac:(lia) H3 L3) as [H4 L4].
  destruct (smear_step _ h 16 16 ltac:(lia) H4 L4) as [H5 L5].
  cbv zeta. apply Z.bits_inj'. intros i Hi.
  destruct (Z.le_gt_cases i h) as [Hle | Hgt].
  - rewrite L5 by lia. rewrite Z.ones_spec_low by lia. reflexivity.
  - rewrite H5 by lia. rewrite Z.ones_spec_high by lia. reflexivity.
Qed.

Lemma round_up_pow2_log2_up (n : Z) :
  1 <= n <= 2 ^ 31 -> round_up_pow2 n = 2 ^ Z.log2_up n.
Proof.
  intros Hn. unfold round_up_pow2.
  rewrite (to_guint_small (n - 1)) by (unfold is_guint; lia).
  destruct (Z.eq_dec n 1) as [-> | Hne]; [reflexivity |].
  pose proof (smear_ones (n - 1) ltac:(lia)) as Hs. cbv zeta in Hs.
  rewrite Hs. rewrite Z.ones_equiv.
  replace (Z.pred (2 ^ (Z.log2 (n - 1) + 1)) + 1)
    with (2 ^ (Z.log2 (n - 1) + 1)) by lia.
  assert (Z.log2_up n = Z.log2 (n - 1) + 1) as ->.
  { unfold Z.log2_up. destruct (1 ?= n) eqn:E.
    - apply Z.compare_eq in E. lia.
    - rewrite <- Z.sub_1_r. lia.
    - apply Z.compare_gt_iff in E. lia. }
  assert (Z.log2 (n - 1) < 31) by (apply Z.log2_lt_pow2; lia).
  pose proof (Z.log2_nonneg (n - 1)).
  apply to_guint_small. unfold is_guint. split; [lia |].
  apply Z.pow_lt_mono_r; lia.
Qed.

(** X1: for every [n] from 1 to 2^31, [round_up_pow2] returns the smallest
    power of two that is at least [n]. *)
Theorem round_up_pow2_smallest (n : Z) :
  1 <= n <= 2 ^ 31 ->
  round_up_pow2 n = 2 ^ Z.log2_up n
  /\ n <= round_up_pow2 n
  /\ (forall k : Z, 0 <= k -> n <= 2 ^ k -> round_up_pow2 n <= 2 ^ k).
Proof.
  intros Hn. pose proof (round_up_pow2_log2_up n Hn) as Heq.
  split; [exact Heq |]. rewrite Heq. split.
  - destruct (Z.eq_dec n 1) as [-> | Hne]; [vm_compute; discriminate |].
    apply Z.log2_up_spec. lia.
  - intros k Hk Hle. apply Z.pow_le_mono_r; [lia |].
    apply Z.log2_up_le_pow2; lia.
Qed.

Lemma round_up_pow2_smallest_witness :
  round_up_pow2 3 = 2 ^ Z.log2_up 3
  /\ 3 <= round_up_pow2 3
  /\ (forall k : Z, 0 <= k -> 3 <= 2 ^ k -> round_up_pow2 3 <= 2 ^ k).
Proof. apply (round_up_pow2_smallest 3). lia. Defined.

(** X2: outside that range the result wraps around: [round_up_pow2] returns
    0, which is no power of two, for 0 and for every [guint] above 2^31. *)
Theorem round_up_pow2_wraps (n : Z) :
  n = 0 \/ 2 ^ 31 < n < 2 ^ 32 -> round_up_pow2 n = 0.
Proof.
  intros [-> | Hn]; [reflexivity |].
  unfold round_up_pow2. rewrite (to_guint_small (n - 1))
    by (unfold is_guint; lia).
  pose proof (smear_ones (n - 1) ltac:(lia)) as Hs. cbv zeta in Hs.
  rewrite Hs.
  assert (Z.log2 (n - 1) = 31) as -> by (apply Z.log2_unique; lia).
  reflexivity.
Qed.

Lemma round_up_pow2_wraps_witness : round_up_pow2 3000000000 = 0.
Proof. apply (round_up_pow2_wraps 3000000000). right. lia. Defined.

Lemma GST_ROUND_UP_8_multiple (num : Z) :
  GST_ROUND_UP_8 num = 8 * ((num + 7) / 8).
Proof.
  unfold GST_ROUND_UP_8. rewrite <- Z.ldiff_land.
  change 7 with (Z.ones 3) at 2.
  rewrite Z.ldiff_ones_r by lia.
  rewrite Z.shiftr_div_pow2, Z.shiftl_mul_pow2 by lia.
  change (2 ^ 3) with 8. lia.
Qed.

Section AlignmentPowerOfTwo.

Context {audio : GstAudio}.

(** X3: for a PCM configuration of any sample width from 8 bits up, the
    alignment is a power of two, at least 8 and at least the sample width in
    bytes. *)
Theorem get_alignment_pcm_power_of_two (self : GstDiscret11AudioParse)
    (config : GstDiscret11ParseConfig) :
  let config_ptr :=
    deref self (gst_discret11_audio_parse_get_config_ptr self config) in
  let width :=
    GST_AUDIO_FORMAT_INFO_WIDTH
      (gst_audio_format_get_info (pcm_format config_ptr)) in
  format config_ptr = GST_DISCRET11_AUDIO_PARSE_FORMAT_PCM ->
  8 <= width < 2 ^ 31 ->
  exists k : Z,
    3 <= k
    /\ gst_discret11_audio_parse_get_alignment self config = 2 ^ k
    /\ width / 8 <= gst_discret11_audio_parse_get_alignment self config.
Proof.
  intros config_ptr width Hformat Hwidth.
  unfold gst_discret11_audio_parse_get_alignment. fold config_ptr.
  rewrite Hformat. simpl. fold width.
  rewrite Z.quot_div_nonneg by lia. rewrite GST_ROUND_UP_8_multiple.
  clearbody width. clear config_ptr Hformat.
  set (q := width / 8).
  assert (1 <= q < 2 ^ 28) as Hq
    by (subst q; split;
        [apply Z.div_le_lower_bound | apply Z.div_lt_upper_bound]; lia).
  set (r := 8 * ((q + 7) / 8)).
  assert (8 <= r /\ q <= r <= 2 ^ 28) as Hr.
  { subst r. clearbody q. Z.div_mod_to_equations. lia. }
  rewrite (to_gint_small r) by (unfold is_gint; lia).
  rewrite (to_guint_small r) by (unfold is_guint; lia).
  rewrite round_up_pow2_log2_up by lia.
  assert (3 <= Z.log2_up r <= 28) as Hk.
  { split.
    - change 3 with (Z.log2_up 8). apply Z.log2_up_le_mono. lia.
    - change 28 with (Z.log2_up (2 ^ 28)). apply Z.log2_up_le_mono. lia. }
  assert (r <= 2 ^ Z.log2_up r <= 2 ^ 28) as Hp.
  { split; [apply Z.log2_up_spec; lia | apply Z.pow_le_mono_r; lia]. }
  rewrite to_gint_small by (unfold is_gint; lia).
  exists (Z.log2_up r). lia.
Qed.

End AlignmentPowerOfTwo.

Lemma get_alignment_pcm_power_of_two_witness :
  exists k : Z,
    3 <= k
    /\ gst_discret11_audio_parse_get_alignment (audio := Reference.audio)
         Examples.element GST_DISCRET11_PARSE_CONFIG_PROPERTIES = 2 ^ k
    /\ GST_AUDIO_FORMAT_INFO_WIDTH
         (gst_audio_format_get_info (GstAudio := Reference.audio)
            (pcm_format
               (deref Examples.element
                  (gst_discret11_audio_parse_get_config_ptr Examples.element
                     GST_DISCRET11_PARSE_CONFIG_PROPERTIES)))) / 8
       <= gst_discret11_audio_parse_get_alignment (audio := Reference.audio)
            Examples.element GST_DISCRET11_PARSE_CONFIG_PROPERTIES.
Proof.
  apply (get_alignment_pcm_power_of_two (audio := Reference.audio)
           Examples.element GST_DISCRET11_PARSE_CONFIG_PROPERTIES).
  - reflexivity.
  - vm_compute. split; [discriminate | reflexivity].
Defined.

(** ** Units per second *)

(** X4: a unit format is supported exactly when the units per second can be
    asked for without failing an assertion.  Both rates have denominator 1;
    the rate in the default unit is the sample rate, and the rate in bytes
    is the sample rate times the frame size, reduced modulo 2^32; it is the
    exact product when the product fits 32 bits. *)
Theorem get_units_per_second_supported (self : GstDiscret11AudioParse)
    (config : GstDiscret11ParseConfig) :
  (forall unit_format : GstFormat,
      gst_discret11_audio_parse_is_unit_format_supported unit_format = true
      <-> gst_discret11_audio_parse_get_units_per_second self unit_format
            config <> AssertionFailed)
  /\ gst_discret11_audio_parse_get_units_per_second self GST_FORMAT_DEFAULT
       config
     = Ok (sample_rate
             (deref self
                (gst_discret11_audio_parse_get_config_ptr self config)), 1)
  /\ (exists bytes_per_second : Z,
        gst_discret11_audio_parse_get_units_per_second self GST_FORMAT_BYTES
          config = Ok (bytes_per_second, 1)
        /\ bytes_per_second
           = (sample_rate
                (deref self
                   (gst_discret11_audio_parse_get_config_ptr self config))
              * gst_discret11_audio_parse_get_config_frame_size self config)
             mod 2 ^ 32
        /\ (0 <= sample_rate
                   (deref self
                      (gst_discret11_audio_parse_get_config_ptr self config))
                 * gst_discret11_audio_parse_get_config_frame_size self config
            < 2 ^ 32 ->
            bytes_per_second
            = sample_rate
                (deref self
                   (gst_discret11_audio_parse_get_config_ptr self config))
              * gst_discret11_audio_parse_get_config_frame_size self config)).
Proof.
  split; [| split].
  - intros unit_format.
    unfold gst_discret11_audio_parse_is_unit_format_supported,
      gst_discret11_audio_parse_get_units_per_second.
    destruct unit_format; split; intros H; congruence.
  - reflexivity.
  - eexists. split; [reflexivity |].
    unfold gst_discret11_audio_parse_get_config_frame_size, to_guint.
    split; [reflexivity |]. intros H. apply Z.mod_small. exact H.
Qed.

(** ** Reading and writing properties *)

(** The loop that reads the positions returns the first [n] of them when
    the array holds as many. *)
Lemma valarray_of_positions (positions : list GstAudioChannelPosition)
    (n : nat) :
  (n <= length positions)%nat ->
  for_loop n
    (fun (valarray : list GstAudioChannelPosition) (i : nat) =>
       let* val := array_get positions i in
       Ok (g_value_array_insert valarray i val))
    [] = Ok (take n positions).
Proof.
  induction n as [| n IH]; intros Hn; [reflexivity |].
  rewrite for_loop_S, IH by lia. simpl.
  destruct (lookup_lt_is_Some_2 positions n) as [v Hv]; [lia |].
  unfold array_get. rewrite Hv. simpl. unfold g_value_array_insert.
  rewrite (take_ge (take n positions)), (drop_ge (take n positions))
    by (rewrite length_take; lia).
  f_equal. symmetry. apply take_S_r. exact Hv.
Qed.

(** It reads past the end of the array when the array holds fewer. *)
Lemma valarray_of_positions_out_of_bounds
    (positions : list GstAudioChannelPosition) (n : nat) :
  (length positions < n)%nat ->
  for_loop n
    (fun (valarray : list GstAudioChannelPosition) (i : nat) =>
       let* val := array_get positions i in
       Ok (g_value_array_insert valarray i val))
    [] = OutOfBounds.
Proof.
  induction n as [| n IH]; intros Hn; [lia |].
  rewrite for_loop_S.
  destruct (Nat.eq_dec n (length positions)) as [-> | Hne].
  - rewrite valarray_of_positions by lia. simpl.
    unfold array_get. rewrite (proj2 (lookup_ge_None _ _)) by lia.
    reflexivity.
  - rewrite IH by lia. reflexivity.
Qed.

Lemma invalidate_only_configs (s : GstDiscret11AudioParse) :
  properties_config (invalidate_only s) = properties_config s
  /\ sink_caps_config (invalidate_only s) = sink_caps_config s
  /\ current_config (invalidate_only s) = current_config s.
Proof. unfold invalidate_only. destruct (negb _); simpl; auto. Qed.

Section PropertyAccess.

Context {audio : GstAudio}.

Lemma set_config_channels_other (config config' : GstDiscret11AudioParseConfig)
    (n mask : Z) (set_positions ok : bool) :
  gst_discret11_audio_parse_set_config_channels config n mask set_positions
  = Ok (ok, config') ->
  interleaved config' = interleaved config
  /\ reordered_channel_positions config' = reordered_channel_positions config
  /\ (set_positions = false -> channel_positions config' = channel_positions config).
Proof.
  unfold gst_discret11_audio_parse_set_config_channels, g_assert.
  destruct (0 <? n); simpl; [| discriminate].
  destruct set_positions.
  - destruct (gst_audio_channel_positions_from_mask _ _ _) as [b ps].
    intros H. inversion H. subst. simpl. repeat split; auto. discriminate.
  - intros H. inversion H. subst. simpl. auto.
Qed.

(** The tails of the setters leave the configurations and the selection
    alone. *)
Ltac unfold_tail :=
  rewrite ?(proj1 (invalidate_and_resize_configs _)),
    ?(proj1 (proj2 (invalidate_and_resize_configs _))),
    ?(proj2 (proj2 (invalidate_and_resize_configs _))),
    ?(proj1 (invalidate_only_configs _)),
    ?(proj1 (proj2 (invalidate_only_configs _))),
    ?(proj2 (proj2 (invalidate_only_configs _))).

(** What no setter writes. *)
Lemma set_property_keeps_frame (self self' : GstDiscret11AudioParse)
    (prop : Property) :
  gst_discret11_audio_parse_set_property self prop = Ok self' ->
  sink_caps_config self' = sink_caps_config self
  /\ current_config self' = current_config self
  /\ ready (properties_config self') = ready (properties_config self).
Proof.
  unfold gst_discret11_audio_parse_set_property.
  destruct prop as [f | f | v | v | b | [values |]].
  - destruct (negb _); intros H; inversion H; subst; auto.
    unfold_tail. simpl.
    rewrite (proj1 (update_config_bpf_fields _)). auto.
  - destruct (negb _); intros H; inversion H; subst; auto.
    unfold_tail. simpl.
    rewrite (proj1 (update_config_bpf_fields _)). auto.
  - destruct (negb _); intros H; inversion H; subst; auto.
    unfold_tail. simpl. auto.
  - destruct (negb _); [| intros H; inversion H; subst; auto].
    destruct (gst_discret11_audio_parse_set_config_channels _ _ _ _)
      as [[ok c1] | |] eqn:Hset; simpl; try discriminate.
    intros H; inversion H; subst. unfold_tail. simpl.
    rewrite (proj1 (update_config_bpf_fields _)). simpl.
    apply set_config_channels_ready in Hset. intuition.
  - destruct (negb _); intros H; inversion H; subst; auto.
    unfold_tail. simpl. auto.
  - destruct values as [| v values'].
    + intros H; inversion H; subst. simpl. auto.
    + cbv beta iota zeta.
      destruct (if negb _ then _ else _) as [c1 | |] eqn:Hc1; simpl;
        try discriminate.
      destruct (copy_valarray _ _ _) as [ps | |]; simpl; try discriminate.
      destruct (gst_discret11_audio_parse_update_channel_reordering_flag _)
        as [[ok2 c2] | |] eqn:Hflag; simpl; try discriminate.
      intros H; inversion H; subst. unfold_tail. simpl.
      rewrite (proj1 (update_config_bpf_fields _)).
      apply update_channel_reordering_flag_fields in Hflag.
      destruct Hflag as (-> & _). simpl.
      assert (ready c1 = ready (properties_config self)) as ->; [| auto].
      destruct (negb _); [| inversion Hc1; reflexivity].
      destruct (gst_discret11_audio_parse_set_config_channels _ _ _ _)
        as [[ok c] | |] eqn:Hset; simpl in Hc1; inversion Hc1; subst.
      apply set_config_channels_ready in Hset. intuition.
  - destruct (0 <? num_channels (properties_config self)).
    + destruct (gst_discret11_audio_parse_set_config_channels _ _ _ _)
        as [[ok c1] | |] eqn:Hset; simpl; try discriminate.
      intros H; inversion H; subst. unfold_tail. simpl.
      rewrite (proj1 (update_config_bpf_fields _)). simpl.
      apply set_config_channels_ready in Hset. intuition.
    + simpl. intros H; inversion H; subst. unfold_tail. simpl.
      rewrite (proj1 (update_config_bpf_fields _)). auto.
Qed.

(** A setting of the channel positions to a non-empty array returns only
    when the array fits channel_positions. *)
Lemma set_property_positions_fit (self self' : GstDiscret11AudioParse)
    (values : list GstAudioChannelPosition) :
  gst_discret11_audio_parse_set_property self
    (PROP_CHANNEL_POSITIONS (Some values)) = Ok self' ->
  values <> [] ->
  Z.of_nat (length values) < 2 ^ 32 ->
  (length values <= length (channel_positions (properties_config self)))%nat.
Proof.
  intros Hset Hne Hsmall. revert Hset.
  unfold gst_discret11_audio_parse_set_property.
  destruct values as [| v values']; [congruence |].
  cbv beta iota zeta.
  remember (v :: values') as values eqn:Hvalues.
  assert (0 < length values)%nat as Hnonempty by (subst; simpl; lia).
  clear Hvalues Hne v values'.
  rewrite (to_guint_small (Z.of_nat (length values)))
    by (unfold is_guint; lia).
  assert (exists c1 : GstDiscret11AudioParseConfig,
             (if negb (Z.of_nat (length values)
                       =? num_channels (properties_config self))
              then
                let* r :=
                  gst_discret11_audio_parse_set_config_channels
                    (properties_config self) (Z.of_nat (length values)) 0
                    false in
                Ok (snd r)
              else Ok (properties_config self)) = Ok c1
             /\ num_channels c1 = Z.of_nat (length values)
             /\ channel_positions c1
                = channel_positions (properties_config self))
    as (c1 & -> & Hn1 & Hp1).
  { destruct (negb _) eqn:E.
    - unfold gst_discret11_audio_parse_set_config_channels, g_assert.
      assert ((0 <? Z.of_nat (length values)) = true) as ->
        by (apply Z.ltb_lt; lia).
      simpl. eexists. split; [reflexivity |]. simpl. auto.
    - apply negb_false_iff, Z.eqb_eq in E. eexists. split; [reflexivity |].
      auto. }
  simpl bind. rewrite Hn1, Hp1.
  destruct (copy_valarray _ _ _) as [ps | |] eqn:Hcopy; simpl;
    try discriminate.
  intros _. apply copy_valarray_Ok in Hcopy. lia.
Qed.

(** X6: a setting of a property that returns, without a failed assertion
    and without an access past the end of a position array, has changed
    neither the sink caps configuration, nor the selection of the current
    configuration, nor the ready flag of the properties configuration; and
    a setting of the channel positions to a non-empty array returns only
    when the array fits channel_positions. *)
Theorem set_property_frame (self self' : GstDiscret11AudioParse)
    (prop : Property) :
  gst_discret11_audio_parse_set_property self prop = Ok self' ->
  sink_caps_config self' = sink_caps_config self
  /\ current_config self' = current_config self
  /\ ready (properties_config self') = ready (properties_config self)
  /\ (forall values : list GstAudioChannelPosition,
        prop = PROP_CHANNEL_POSITIONS (Some values) ->
        values <> [] ->
        Z.of_nat (length values) < 2 ^ 32 ->
        (length values
         <= length (channel_positions (properties_config self)))%nat).
Proof.
  intros Hset.
  destruct (set_property_keeps_frame self self' prop Hset) as (Hs & Hc & Hr).
  repeat (split; [assumption |]).
  intros values -> Hne Hsmall.
  exact (set_property_positions_fit self self' values Hset Hne Hsmall).
Qed.

(** X5: a property that was set is read back as it was set: the encoding,
    the PCM format and the interleaving flag always, the sample rate and the
    channel count when they are in the range of [gint], and a non-empty
    position array that fits the 64 entries of the configuration. *)
Theorem get_property_after_set (self self' : GstDiscret11AudioParse)
    (prop : Property) :
  readable_back self prop ->
  gst_discret11_audio_parse_set_property self prop = Ok self' ->
  gst_discret11_audio_parse_get_property self' (property_id prop) = Ok prop.
Proof.
  unfold gst_discret11_audio_parse_set_property,
    gst_discret11_audio_parse_get_property, readable_back.
  destruct prop as [f | f | v | v | b | [values |]]; simpl property_id;
    cbv iota; intros Hback.
  - destruct (negb _) eqn:E; intros H; inversion H; subst.
    + unfold_tail. simpl.
      rewrite (proj1 (proj2 (update_config_bpf_fields _))). reflexivity.
    + apply negb_false_iff, format_eqb_eq in E. congruence.
  - destruct (negb _) eqn:E; intros H; inversion H; subst.
    + unfold_tail. simpl.
      rewrite (proj1 (proj2 (proj2 (update_config_bpf_fields _)))).
      reflexivity.
    + apply negb_false_iff, Z.eqb_eq in E. congruence.
  - destruct (negb _) eqn:E; intros H; inversion H; subst.
    + unfold_tail. simpl. rewrite (to_gint_to_guint _ Hback). reflexivity.
    + apply negb_false_iff, Z.eqb_eq in E. rewrite <- E.
      rewrite (to_gint_to_guint _ Hback). reflexivity.
  - destruct (negb _) eqn:E.
    + destruct (gst_discret11_audio_parse_set_config_channels _ _ _ _)
        as [[ok c1] | |]; simpl; try discriminate.
      intros H; inversion H; subst. unfold_tail. simpl.
      rewrite (proj1 (proj2 (proj2 (proj2 (update_config_bpf_fields _))))).
      simpl.
      rewrite (to_gint_to_guint _ Hback). reflexivity.
    + intros H; inversion H; subst.
      apply negb_false_iff, Z.eqb_eq in E. rewrite <- E.
      rewrite (to_gint_to_guint _ Hback). reflexivity.
  - destruct (negb _) eqn:E; intros H; inversion H; subst.
    + unfold_tail. simpl. reflexivity.
    + apply negb_false_iff, Bool.eqb_prop in E. congruence.
  - destruct Hback as (Hne & Hroom & Hsmall).
    destruct values as [| v values']; [congruence |].
    cbv beta iota zeta.
    remember (v :: values') as values eqn:Hvalues.
    assert (0 < length values)%nat as Hnonempty by (subst; simpl; lia).
    clear Hvalues Hne v values'.
    rewrite (to_guint_small (Z.of_nat (length values)))
      by (unfold is_guint; lia).
    assert (exists c1 : GstDiscret11AudioParseConfig,
               (if negb (Z.of_nat (length values)
                         =? num_channels (properties_config self))
                then
                  let* r :=
                    gst_discret11_audio_parse_set_config_channels
                      (properties_config self) (Z.of_nat (length values)) 0
                      false in
                  Ok (snd r)
                else Ok (properties_config self)) = Ok c1
               /\ num_channels c1 = Z.of_nat (length values)
               /\ channel_positions c1
                  = channel_positions (properties_config self))
      as (c1 & -> & Hn1 & Hp1).
    { destruct (negb _) eqn:E.
      - unfold gst_discret11_audio_parse_set_config_channels, g_assert.
        assert ((0 <? Z.of_nat (length values)) = true) as ->
          by (apply Z.ltb_lt; lia).
        simpl. eexists. split; [reflexivity |]. simpl. auto.
      - apply negb_false_iff, Z.eqb_eq in E. eexists. split; [reflexivity |].
        auto. }
    simpl bind. rewrite Hn1, Hp1.
    rewrite (proj2 (copy_valarray_Ok values _ _ (length values))
               (conj (le_n _) (conj Hroom eq_refl))).
    simpl bind. rewrite take_ge by lia.
    destruct (gst_discret11_audio_parse_update_channel_reordering_flag _)
      as [[ok2 c2] | |] eqn:Hflag; simpl; try discriminate.
    intros H; inversion H; subst. unfold_tail. simpl.
    apply update_channel_reordering_flag_fields in Hflag.
    destruct Hflag as (_ & _ & _ & _ & _ & Hn2 & _ & Hp2 & _).
    simpl in Hn2, Hp2.
    rewrite (proj1 (proj2 (proj2 (proj2 (update_config_bpf_fields _))))).
    rewrite (proj1 (proj2 (proj2 (proj2 (proj2
               (update_config_bpf_fields _)))))).
    rewrite Hn2, Hp2, Hn1.
    assert ((0 <? Z.of_nat (length values)) = true) as ->
      by (apply Z.ltb_lt; lia).
    rewrite Nat2Z.id.
    rewrite valarray_of_positions
      by (rewrite length_app, length_drop; lia).
    simpl. rewrite take_app_length. reflexivity.
  - contradiction.
Qed.

(** X7: the encoding, the PCM format, the sample rate, the channel count
    and the interleaving flag can be read, and setting one of them to the
    value that was read leaves the element exactly as it is. *)
Theorem set_property_same_value (self : GstDiscret11AudioParse)
    (prop_id : PropertyId) :
  guint_fields (properties_config self) ->
  sample_rate (properties_config self) < 2 ^ 31 ->
  num_channels (properties_config self) < 2 ^ 31 ->
  prop_id <> ID_PROP_CHANNEL_POSITIONS ->
  exists prop : Property,
    gst_discret11_audio_parse_get_property self prop_id = Ok prop
    /\ gst_discret11_audio_parse_set_property self prop = Ok self.
Proof.
  unfold guint_fields, is_guint. intros (Hrate & Hchan & _) Hr Hc Hid.
  unfold gst_discret11_audio_parse_get_property.
  destruct prop_id; try congruence;
    (eexists; split; [reflexivity |]);
    unfold gst_discret11_audio_parse_set_property.
  - rewrite format_eqb_refl. reflexivity.
  - rewrite Z.eqb_refl. reflexivity.
  - rewrite (to_gint_small (sample_rate _)) by (unfold is_gint; lia).
    rewrite (to_guint_small (sample_rate _)) by (unfold is_guint; lia).
    rewrite Z.eqb_refl. reflexivity.
  - rewrite (to_gint_small (num_channels _)) by (unfold is_gint; lia).
    rewrite (to_guint_small (num_channels _)) by (unfold is_guint; lia).
    rewrite Z.eqb_refl. reflexivity.
  - rewrite Bool.eqb_reflx. reflexivity.
Qed.

(** X8: for a setting of a property that returns, without a failed
    assertion and without an access past the end of a position array: while
    the sink caps configuration is the current one, it neither invalidates
    the source caps nor touches the minimum frame size; while the properties
    configuration is the current one, every change of the properties
    configuration invalidates the source caps, and every change of its bpf
    makes the minimum frame size equal to the new bpf. *)
Theorem set_property_notifies_base_parse (self self' : GstDiscret11AudioParse)
    (prop : Property) :
  gst_discret11_audio_parse_set_property self prop = Ok self' ->
  (gst_discret11_audio_parse_is_using_sink_caps self = true ->
   src_caps_set self' = src_caps_set self
   /\ min_frame_size self' = min_frame_size self)
  /\ (gst_discret11_audio_parse_is_using_sink_caps self = false ->
      (properties_config self' <> properties_config self ->
       src_caps_set self' = false)
      /\ (bpf (properties_config self') <> bpf (properties_config self) ->
          min_frame_size self' = bpf (properties_config self'))).
Proof.
  assert (forall s : GstDiscret11AudioParse,
             (gst_discret11_audio_parse_is_using_sink_caps s = true ->
              invalidate_and_resize s = s /\ invalidate_only s = s)
             /\ (gst_discret11_audio_parse_is_using_sink_caps s = false ->
                 src_caps_set (invalidate_and_resize s) = false
                 /\ min_frame_size (invalidate_and_resize s)
                    = bpf (properties_config s)
                 /\ properties_config (invalidate_and_resize s)
                    = properties_config s
                 /\ src_caps_set (invalidate_only s) = false
                 /\ properties_config (invalidate_only s)
                    = properties_config s)) as Htail.
  { intros s. unfold invalidate_and_resize, invalidate_only.
    split; intros ->; simpl; auto. }
  assert (forall (s : GstDiscret11AudioParse)
                 (c : GstDiscret11AudioParseConfig),
             gst_discret11_audio_parse_is_using_sink_caps
               (set_properties_config s c)
             = gst_discret11_audio_parse_is_using_sink_caps s) as Huse
    by reflexivity.
  assert (forall (s : GstDiscret11AudioParse)
                 (c : GstDiscret11AudioParseConfig),
             src_caps_set (set_properties_config s c) = src_caps_set s
             /\ min_frame_size (set_properties_config s c) = min_frame_size s)
    as Hset by (intros; split; reflexivity).
  assert (forall s s0 : GstDiscret11AudioParse,
             gst_discret11_audio_parse_is_using_sink_caps s
             = gst_discret11_audio_parse_is_using_sink_caps self ->
             src_caps_set s = src_caps_set self ->
             min_frame_size s = min_frame_size self ->
             s0 = invalidate_and_resize s ->
             (gst_discret11_audio_parse_is_using_sink_caps self = true ->
              src_caps_set s0 = src_caps_set self
              /\ min_frame_size s0 = min_frame_size self)
             /\ (gst_discret11_audio_parse_is_using_sink_caps self = false ->
                 (properties_config s0 <> properties_config self ->
                  src_caps_set s0 = false)
                 /\ (bpf (properties_config s0) <> bpf (properties_config self) ->
                     min_frame_size s0 = bpf (properties_config s0))))
    as Hresize.
  { intros s s0 Hu Hs Hm ->. split; intros Hself; rewrite <- Hu in Hself.
    - destruct (proj1 (Htail s) Hself) as [-> _]. auto.
    - destruct (proj2 (Htail s) Hself) as (-> & -> & -> & _). auto. }
  assert (forall s s0 : GstDiscret11AudioParse,
             gst_discret11_audio_parse_is_using_sink_caps s
             = gst_discret11_audio_parse_is_using_sink_caps self ->
             src_caps_set s = src_caps_set self ->
             min_frame_size s = min_frame_size self ->
             bpf (properties_config s) = bpf (properties_config self) ->
             s0 = invalidate_only s ->
             (gst_discret11_audio_parse_is_using_sink_caps self = true ->
              src_caps_set s0 = src_caps_set self
              /\ min_frame_size s0 = min_frame_size self)
             /\ (gst_discret11_audio_parse_is_using_sink_caps self = false ->
                 (properties_config s0 <> properties_config self ->
                  src_caps_set s0 = false)
                 /\ (bpf (properties_config s0) <> bpf (properties_config self) ->
                     min_frame_size s0 = bpf (properties_config s0))))
    as Hinvalidate.
  { intros s s0 Hu Hs Hm Hb ->. split; intros Hself; rewrite <- Hu in Hself.
    - destruct (proj1 (Htail s) Hself) as [_ ->]. auto.
    - destruct (proj2 (Htail s) Hself) as (_ & _ & _ & -> & ->).
      split; [auto |]. intros Hne. congruence. }
  assert (forall s0 : GstDiscret11AudioParse,
             properties_config s0 = properties_config self ->
             src_caps_set s0 = src_caps_set self ->
             min_frame_size s0 = min_frame_size self ->
             (gst_discret11_audio_parse_is_using_sink_caps self = true ->
              src_caps_set s0 = src_caps_set self
              /\ min_frame_size s0 = min_frame_size self)
             /\ (gst_discret11_audio_parse_is_using_sink_caps self = false ->
                 (properties_config s0 <> properties_config self ->
                  src_caps_set s0 = false)
                 /\ (bpf (properties_config s0) <> bpf (properties_config self) ->
                     min_frame_size s0 = bpf (properties_config s0))))
    as Hsame.
  { intros s0 Hp Hs Hm. rewrite Hp. split; intros _; [auto |].
    split; intros Hne; congruence. }
  unfold gst_discret11_audio_parse_set_property.
  destruct prop as [f | f | v | v | b | [values |]].
  - destruct (negb _); intros H; inversion H; subst;
      [refine (Hresize _ _ _ _ _ eq_refl); auto | apply Hsame; auto].
  - destruct (negb _); intros H; inversion H; subst;
      [refine (Hresize _ _ _ _ _ eq_refl); auto | apply Hsame; auto].
  - destruct (negb _); intros H; inversion H; subst;
      [refine (Hinvalidate _ _ _ _ _ _ eq_refl); auto | apply Hsame; auto].
  - destruct (negb _); [| intros H; inversion H; subst; apply Hsame; auto].
    destruct (gst_discret11_audio_parse_set_config_channels _ _ _ _)
      as [[ok c1] | |]; simpl; try discriminate.
    intros H; inversion H; subst. refine (Hresize _ _ _ _ _ eq_refl); auto.
  - destruct (negb _); intros H; inversion H; subst;
      [refine (Hinvalidate _ _ _ _ _ _ eq_refl); auto | apply Hsame; auto].
  - destruct values as [| v values'].
    + intros H; inversion H; subst. apply Hsame; auto.
    + cbv beta iota zeta.
      destruct (if negb _ then _ else _) as [c1 | |]; simpl; try discriminate.
      destruct (copy_valarray _ _ _) as [ps | |]; simpl; try discriminate.
      destruct (gst_discret11_audio_parse_update_channel_reordering_flag _)
        as [[ok2 c2] | |]; simpl; try discriminate.
      intros H; inversion H; subst. refine (Hresize _ _ _ _ _ eq_refl); auto.
  - destruct (if 0 <? _ then _ else _) as [s1 | |] eqn:Hs1; simpl;
      try discriminate.
    intros H; inversion H; subst.
    assert (gst_discret11_audio_parse_is_using_sink_caps s1
            = gst_discret11_audio_parse_is_using_sink_caps self
            /\ src_caps_set s1 = src_caps_set self
            /\ min_frame_size s1 = min_frame_size self) as (Hu & Hs & Hm).
    { destruct (0 <? _).
      - destruct (gst_discret11_audio_parse_set_config_channels _ _ _ _)
          as [[ok c1] | |]; simpl in Hs1; inversion Hs1; subst. auto.
      - inversion Hs1; subst. auto. }
    refine (Hresize _ _ _ _ _ eq_refl); auto.
Qed.

End PropertyAccess.

(** ** The current configuration as an argument *)

Section CurrentAlias.

Context {audio : GstAudio}.

(** X9: GST_DISCRET11_PARSE_CONFIG_CURRENT stands for the configuration that
    get_current_config names: the frame size, the ready flag, the alignment,
    the caps and the frame transform asked of CURRENT are those of that
    configuration. *)
Theorem config_current_is_get_current_config (self : GstDiscret11AudioParse) :
  let current := gst_discret11_audio_parse_get_current_config self in
  gst_discret11_audio_parse_get_config_frame_size self
    GST_DISCRET11_PARSE_CONFIG_CURRENT
  = gst_discret11_audio_parse_get_config_frame_size self current
  /\ gst_discret11_audio_parse_is_config_ready self
       GST_DISCRET11_PARSE_CONFIG_CURRENT
     = gst_discret11_audio_parse_is_config_ready self current
  /\ gst_discret11_audio_parse_get_alignment self
       GST_DISCRET11_PARSE_CONFIG_CURRENT
     = gst_discret11_audio_parse_get_alignment self current
  /\ gst_discret11_audio_parse_get_caps_from_config self
       GST_DISCRET11_PARSE_CONFIG_CURRENT
     = gst_discret11_audio_parse_get_caps_from_config self current
  /\ (forall (in_data : GstBuffer) (total valid : Z),
        gst_discret11_audio_parse_process self
          GST_DISCRET11_PARSE_CONFIG_CURRENT in_data total valid
        = gst_discret11_audio_parse_process self current in_data total valid)
  /\ (forall caps : GstCaps,
        gst_discret11_audio_parse_set_config_from_caps self
          GST_DISCRET11_PARSE_CONFIG_CURRENT caps
        = gst_discret11_audio_parse_set_config_from_caps self current caps).
Proof.
  assert (gst_discret11_audio_parse_get_config_ptr self
            GST_DISCRET11_PARSE_CONFIG_CURRENT
          = gst_discret11_audio_parse_get_config_ptr self
              (gst_discret11_audio_parse_get_current_config self)) as Hptr.
  { unfold gst_discret11_audio_parse_get_current_config,
      gst_discret11_audio_parse_is_using_sink_caps,
      gst_discret11_audio_parse_get_config_ptr.
    destruct (current_config self); reflexivity. }
  cbv zeta.
  unfold gst_discret11_audio_parse_get_config_frame_size,
    gst_discret11_audio_parse_is_config_ready,
    gst_discret11_audio_parse_get_alignment,
    gst_discret11_audio_parse_get_caps_from_config,
    gst_discret11_audio_parse_process,
    gst_discret11_audio_parse_set_config_from_caps.
  rewrite Hptr. repeat split; reflexivity.
Qed.

End CurrentAlias.

(** ** Conversions of caps, continued *)

Section MoreCaps.

Context {audio : GstAudio}.

(** A conversion that succeeds leaves the target ready; a conversion that
    returns keeps a positive channel count positive. *)
Lemma caps_to_config_result (caps : GstCaps) (ok : bool)
    (config config' : GstDiscret11AudioParseConfig) :
  gst_discret11_audio_parse_caps_to_config caps config = Ok (ok, config') ->
  (ok = true -> ready config' = true)
  /\ (ok = false -> ready config' = ready config)
  /\ (0 < num_channels config -> 0 < num_channels config').
Proof.
  destruct ok.
  2: { intros H. destruct (caps_to_config_failure_fields _ _ _ H) as [Hr _].
       split; [discriminate |]. split; [auto |]. revert H.
       unfold gst_discret11_audio_parse_caps_to_config.
       set (caps' := if gst_structure_has_name caps "audio/x-unaligned-raw"
                     then gst_structure_set_name caps "audio/x-raw" else caps).
       destruct (gst_structure_has_name caps' "audio/x-raw").
       - destruct (gst_audio_info_from_caps caps') as [info |]; simpl.
         + destruct (gst_discret11_audio_parse_set_config_channels _ _ _ _)
             as [[ok c1] | |]; simpl; try discriminate.
           destruct (memcpy_positions _ _ _); simpl; intros H; inversion H.
         + intros H. inversion H. auto.
       - destruct (gst_structure_has_name caps' "audio/x-alaw"
                   || gst_structure_has_name caps' "audio/x-mulaw").
         + destruct (gst_structure_get_int caps' "rate") as [rate |];
             [| simpl; intros H; inversion H; auto].
           destruct (gst_structure_get_int caps' "channels") as [channels |];
             [| simpl; intros H; inversion H; auto].
           destruct (gst_discret11_audio_parse_set_config_channels _ _ _ _)
             as [[ok c1] | |] eqn:Hset; simpl; try discriminate.
           destruct ok; simpl; intros H; inversion H; subst.
           apply set_config_channels_ready in Hset. intros _. lia.
         + simpl. intros H. inversion H. auto. }
  unfold gst_discret11_audio_parse_caps_to_config.
  set (caps' := if gst_structure_has_name caps "audio/x-unaligned-raw"
                then gst_structure_set_name caps "audio/x-raw" else caps).
  destruct (gst_structure_has_name caps' "audio/x-raw").
  - destruct (gst_audio_info_from_caps caps') as [info |]; simpl;
      [| discriminate].
    destruct (gst_discret11_audio_parse_set_config_channels _ _ _ _)
      as [[ok c1] | |] eqn:Hset; simpl; try discriminate.
    destruct (memcpy_positions _ _ _); simpl; try discriminate.
    intros H. inversion H. subst. simpl.
    apply set_config_channels_ready in Hset.
    split; [auto |]. split; [discriminate |]. intros _. lia.
  - destruct (gst_structure_has_name caps' "audio/x-alaw"
              || gst_structure_has_name caps' "audio/x-mulaw");
      [| simpl; discriminate].
    destruct (gst_structure_get_int caps' "rate") as [rate |];
      [| simpl; discriminate].
    destruct (gst_structure_get_int caps' "channels") as [channels |];
      [| simpl; discriminate].
    destruct (gst_discret11_audio_parse_set_config_channels _ _ _ _)
      as [[ok c1] | |] eqn:Hset; simpl; try discriminate.
    destruct ok; simpl; [| discriminate].
    intros H. inversion H. subst. simpl.
    apply set_config_channels_ready in Hset.
    split; [auto |]. split; [discriminate |]. intros _. lia.
Qed.

(** A conversion of raw caps that returns has copied the positions of
    every channel within both arrays. *)
Lemma caps_to_config_raw_bounds (caps : GstCaps) (info : GstAudioInfo)
    (ok : bool) (config config' : GstDiscret11AudioParseConfig) :
  gst_discret11_audio_parse_caps_to_config caps config = Ok (ok, config') ->
  gst_structure_has_name caps "audio/x-raw"
  || gst_structure_has_name caps "audio/x-unaligned-raw" = true ->
  gst_audio_info_from_caps (gst_structure_set_name caps "audio/x-raw")
  = Some info ->
  (Z.to_nat (to_guint (GST_AUDIO_INFO_CHANNELS info))
   <= length (channel_positions config))%nat
  /\ (Z.to_nat (to_guint (GST_AUDIO_INFO_CHANNELS info))
      <= length (GST_AUDIO_INFO_POSITION info))%nat.
Proof.
  intros Hconv Hname Hfrom. revert Hconv.
  unfold gst_discret11_audio_parse_caps_to_config.
  assert ((if gst_structure_has_name caps "audio/x-unaligned-raw"
           then gst_structure_set_name caps "audio/x-raw" else caps)
          = gst_structure_set_name caps "audio/x-raw") as ->.
  { destruct (gst_structure_has_name caps "audio/x-unaligned-raw");
      [reflexivity |].
    rewrite orb_false_r in Hname. symmetry. apply set_name_same, Hname. }
  assert (gst_structure_has_name (gst_structure_set_name caps "audio/x-raw")
            "audio/x-raw" = true) as -> by reflexivity.
  rewrite Hfrom.
  unfold gst_discret11_audio_parse_set_config_channels, g_assert.
  destruct (0 <? to_guint (GST_AUDIO_INFO_CHANNELS info)); simpl;
    [| discriminate].
  destruct (memcpy_positions _ _ _) as [positions | |] eqn:Hcopy; simpl;
    try discriminate.
  apply memcpy_positions_Ok in Hcopy. simpl in Hcopy. intros _. tauto.
Qed.

(** X10: a call of set_config_from_caps that returns, without a failed
    assertion and without an access past the end of a position array, has
    written the configuration it was given and nothing else: the other
    configuration, the selection of the current configuration and the state
    of the base class are as they were.  When it succeeds the configuration
    is ready; when it fails the ready flag is what it was.  For raw caps it
    returns only when the channel count that the library read from them is
    within the size of channel_positions and of the positions of the
    GstAudioInfo. *)
Theorem set_config_from_caps_frame (self self' : GstDiscret11AudioParse)
    (config : GstDiscret11ParseConfig) (caps : GstCaps) (ok : bool) :
  gst_discret11_audio_parse_set_config_from_caps self config caps
  = Ok (ok, self') ->
  (forall p : ConfigPtr,
      p <> gst_discret11_audio_parse_get_config_ptr self config ->
      deref self' p = deref self p)
  /\ current_config self' = current_config self
  /\ src_caps_set self' = src_caps_set self
  /\ min_frame_size self' = min_frame_size self
  /\ element_errors self' = element_errors self
  /\ gst_discret11_audio_parse_is_config_ready self' config
     = (ok || gst_discret11_audio_parse_is_config_ready self config)
  /\ (forall info : GstAudioInfo,
        gst_structure_has_name caps "audio/x-raw"
        || gst_structure_has_name caps "audio/x-unaligned-raw" = true ->
        gst_audio_info_from_caps (gst_structure_set_name caps "audio/x-raw")
        = Some info ->
        (Z.to_nat (to_guint (GST_AUDIO_INFO_CHANNELS info))
         <= length
              (channel_positions
                 (deref self
                    (gst_discret11_audio_parse_get_config_ptr self config))))%nat
        /\ (Z.to_nat (to_guint (GST_AUDIO_INFO_CHANNELS info))
            <= length (GST_AUDIO_INFO_POSITION info))%nat).
Proof.
  unfold gst_discret11_audio_parse_set_config_from_caps,
    gst_discret11_audio_parse_is_config_ready.
  destruct (gst_discret11_audio_parse_caps_to_config caps _)
    as [[ok' c'] | |] eqn:Hconv; simpl; try discriminate.
  intros H. inversion H. subst. clear H.
  pose proof (fun info : GstAudioInfo =>
                caps_to_config_raw_bounds _ info _ _ _ Hconv) as Hbounds.
  apply caps_to_config_result in Hconv. destruct Hconv as (Hok & Hfail & _).
  assert (gst_discret11_audio_parse_get_config_ptr
            (store self (gst_discret11_audio_parse_get_config_ptr self config)
               c') config
          = gst_discret11_audio_parse_get_config_ptr self config) as ->.
  { destruct config; simpl; try reflexivity.
    destruct (current_config self) eqn:E; simpl; exact E. }
  set (p := gst_discret11_audio_parse_get_config_ptr self config) in *.
  repeat split.
  - intros q Hq. destruct p, q; simpl; congruence.
  - destruct p; reflexivity.
  - destruct p; reflexivity.
  - destruct p; reflexivity.
  - destruct p; reflexivity.
  - assert (deref (store self p c') p = c') as -> by (destruct p; reflexivity).
    destruct ok; simpl; auto.
  - apply (Hbounds info); assumption.
  - apply (Hbounds info); assumption.
Qed.

(** X11: an update of the reordering flag that returns has set the flag to
    the negation of the validity check of the channel positions and has
    written nothing but the flag and the reordered positions.  When the
    positions are in a valid order it succeeds and leaves the reordered
    positions alone; when they are not, it has copied num_channels
    positions, so both position arrays hold that many entries.  A second
    update fails no assertion and yields the same flag; after a valid order
    it returns and changes nothing, and after an invalid order it returns
    when the reordered positions still hold num_channels entries. *)
Theorem update_channel_reordering_flag_idempotent
    (config config' : GstDiscret11AudioParseConfig) (ok : bool) :
  gst_discret11_audio_parse_update_channel_reordering_flag config
  = Ok (ok, config') ->
  needs_channel_reordering config'
  = negb (gst_audio_check_valid_channel_positions (channel_positions config)
            (to_gint (num_channels config)) true)
  /\ channel_positions config' = channel_positions config
  /\ num_channels config' = num_channels config
  /\ bpf config' = bpf config /\ ready config' = ready config
  /\ (needs_channel_reordering config' = false ->
      ok = true
      /\ reordered_channel_positions config'
         = reordered_channel_positions config)
  /\ (needs_channel_reordering config' = true ->
      (Z.to_nat (num_channels config)
       <= length (channel_positions config))%nat
      /\ (Z.to_nat (num_channels config)
          <= length (reordered_channel_positions config))%nat)
  /\ gst_discret11_audio_parse_update_channel_reordering_flag config'
     <> AssertionFailed
  /\ (forall (ok2 : bool) (config'' : GstDiscret11AudioParseConfig),
        gst_discret11_audio_parse_update_channel_reordering_flag config'
        = Ok (ok2, config'') ->
        needs_channel_reordering config'' = needs_channel_reordering config')
  /\ (needs_channel_reordering config' = false ->
      gst_discret11_audio_parse_update_channel_reordering_flag config'
      = Ok (true, config'))
  /\ ((Z.to_nat (num_channels config)
       <= length (reordered_channel_positions config'))%nat ->
      exists (ok2 : bool) (config'' : GstDiscret11AudioParseConfig),
        gst_discret11_audio_parse_update_channel_reordering_flag config'
        = Ok (ok2, config'')).
Proof.
  intros H.
  destruct (update_channel_reordering_flag_fields _ _ _ H)
    as (Hr & _ & _ & Hb & _ & Hn & _ & Hp & Hneeds & Hpos).
  repeat (split; [assumption |]).
  assert (needs_channel_reordering config' = false ->
          gst_discret11_audio_parse_update_channel_reordering_flag config'
          = Ok (true, config')) as Hvalid.
  { intros Hfalse. rewrite Hfalse in Hneeds.
    unfold gst_discret11_audio_parse_update_channel_reordering_flag, g_assert.
    rewrite Hn, Hp.
    assert ((0 <? num_channels config) = true) as ->
      by (apply Z.ltb_lt; lia).
    simpl bind. symmetry in Hneeds. apply negb_false_iff in Hneeds.
    rewrite Hneeds. f_equal. f_equal.
    destruct config'; simpl in *. subst. reflexivity. }
  assert ((needs_channel_reordering config' = false ->
           ok = true
           /\ reordered_channel_positions config'
              = reordered_channel_positions config)
          /\ (needs_channel_reordering config' = true ->
              (Z.to_nat (num_channels config)
               <= length (channel_positions config))%nat
              /\ (Z.to_nat (num_channels config)
                  <= length (reordered_channel_positions config))%nat))
    as [Hfirst Hbounds].
  { revert H.
    unfold gst_discret11_audio_parse_update_channel_reordering_flag, g_assert.
    assert ((0 <? num_channels config) = true) as ->
      by (apply Z.ltb_lt; lia).
    simpl bind.
    destruct (gst_audio_check_valid_channel_positions _ _ _) eqn:Hcheck.
    - intros H. inversion H. subst. simpl. split; [auto | discriminate].
    - destruct (memcpy_positions _ _ _) as [copied | |] eqn:Hcopy; simpl;
        try discriminate.
      apply memcpy_positions_Ok in Hcopy. simpl in Hcopy.
      destruct (gst_audio_channel_positions_to_valid_order _ _) as [b ps].
      intros H. inversion H. subst. simpl.
      split; [discriminate |]. intros _. tauto. }
  split; [exact Hfirst |]. split; [exact Hbounds |].
  split; [| split; [| split; [exact Hvalid |]]].
  - unfold gst_discret11_audio_parse_update_channel_reordering_flag, g_assert.
    rewrite Hn, Hp.
    assert ((0 <? num_channels config) = true) as ->
      by (apply Z.ltb_lt; lia).
    simpl.
    destruct (gst_audio_check_valid_channel_positions _ _ _);
      [intros Hc; discriminate Hc |].
    destruct (memcpy_positions _ _ _) eqn:Hcopy; simpl;
      [| apply memcpy_positions_no_assertion in Hcopy; contradiction
       | intros Hc; discriminate Hc].
    destruct (gst_audio_channel_positions_to_valid_order _ _).
    intros Hc. discriminate Hc.
  - intros ok2 config'' H2.
    destruct (update_channel_reordering_flag_fields _ _ _ H2)
      as (_ & _ & _ & _ & _ & _ & _ & _ & Hneeds2 & _).
    rewrite Hneeds2, Hneeds, Hn, Hp. reflexivity.
  - intros Hlen.
    destruct (needs_channel_reordering config') eqn:Hflag.
    + apply update_channel_reordering_flag_returns.
      * lia.
      * rewrite Hn, Hp. apply Hbounds. reflexivity.
      * rewrite Hn. exact Hlen.
    + eexists. eexists. apply Hvalid. reflexivity.
Qed.

Lemma set_config_channels_zero_mask (config : GstDiscret11AudioParseConfig)
    (n : Z) :
  gst_discret11_audio_parse_set_config_channels config n 0 true
  = gst_discret11_audio_parse_set_config_channels config n
      (gst_audio_channel_get_fallback_mask (to_gint n)) true.
Proof.
  unfold gst_discret11_audio_parse_set_config_channels.
  destruct (g_assert (0 <? n)); simpl; try reflexivity.
  destruct (gst_audio_channel_get_fallback_mask (to_gint n) =? 0) eqn:E;
    reflexivity.
Qed.

(** X12: a channel mask of 0 stands for the fallback mask: setting the
    channels with mask 0 is setting them with the fallback mask of the
    channel count, and A-law or mu-law caps without a channel-mask convert
    exactly like the same caps with a channel-mask of 0. *)
Theorem zero_mask_is_fallback_mask (config : GstDiscret11AudioParseConfig) :
  (forall n : Z,
      gst_discret11_audio_parse_set_config_channels config n 0 true
      = gst_discret11_audio_parse_set_config_channels config n
          (gst_audio_channel_get_fallback_mask (to_gint n)) true)
  /\ (forall caps : GstCaps,
        gst_structure_has_name caps "audio/x-alaw"
        || gst_structure_has_name caps "audio/x-mulaw" = true ->
        gst_structure_get_bitmask caps "channel-mask" = None ->
        gst_discret11_audio_parse_caps_to_config (with_channel_mask caps 0)
          config
        = gst_discret11_audio_parse_caps_to_config caps config).
Proof.
  split; [apply set_config_channels_zero_mask |].
  intros caps Hname Hmask.
  unfold gst_discret11_audio_parse_caps_to_config.
  assert (forall n : string,
             gst_structure_has_name (with_channel_mask caps 0) n
             = gst_structure_has_name caps n) as Hn by reflexivity.
  assert (gst_structure_has_name caps "audio/x-unaligned-raw" = false
          /\ gst_structure_has_name caps "audio/x-raw" = false)
    as [Hun Hraw].
  { unfold gst_structure_has_name in *.
    apply orb_true_iff in Hname.
    destruct Hname as [H | H]; apply String.eqb_eq in H; rewrite H;
      split; reflexivity. }
  rewrite !Hn, Hun, !Hn, Hraw, Hname.
  assert (gst_structure_get_int (with_channel_mask caps 0) "rate"
          = gst_structure_get_int caps "rate") as -> by reflexivity.
  assert (gst_structure_get_int (with_channel_mask caps 0) "channels"
          = gst_structure_get_int caps "channels") as -> by reflexivity.
  assert (gst_structure_get_bitmask (with_channel_mask caps 0) "channel-mask"
          = Some 0) as -> by reflexivity.
  rewrite Hmask.
  destruct (gst_structure_get_int caps "rate") as [rate |]; [| reflexivity].
  destruct (gst_structure_get_int caps "channels") as [channels |];
    [| reflexivity].
  rewrite set_config_channels_zero_mask. reflexivity.
Qed.

(** X13: unaligned raw caps are treated like raw caps: they convert exactly
    like the same caps under the media type audio/x-raw. *)
Theorem unaligned_raw_is_raw (caps : GstCaps)
    (config : GstDiscret11AudioParseConfig) :
  gst_structure_has_name caps "audio/x-unaligned-raw" = true ->
  gst_discret11_audio_parse_caps_to_config caps config
  = gst_discret11_audio_parse_caps_to_config
      (gst_structure_set_name caps "audio/x-raw") config.
Proof.
  intros H. unfold gst_discret11_audio_parse_caps_to_config. rewrite H.
  assert (gst_structure_has_name (gst_structure_set_name caps "audio/x-raw")
            "audio/x-unaligned-raw" = false) as -> by reflexivity.
  reflexivity.
Qed.

(** X14: what the conversion of a configuration to caps returns.  FALSE
    always comes with NULL caps, and it is returned exactly when bpf is 0
    or, for A-law and mu-law, when the published positions have no channel
    mask.  For A-law and mu-law TRUE is returned exactly when caps are.  For
    PCM with a nonzero bpf the result of gst_audio_info_to_caps is returned
    unchecked together with TRUE, so TRUE comes with NULL caps exactly when
    the library builds none. *)
Theorem config_to_caps_result (config : GstDiscret11AudioParseConfig) :
  (fst (gst_discret11_audio_parse_config_to_caps config) = false ->
   snd (gst_discret11_audio_parse_config_to_caps config) = None)
  /\ (fst (gst_discret11_audio_parse_config_to_caps config) = false
      <-> bpf config = 0
          \/ (format config <> GST_DISCRET11_AUDIO_PARSE_FORMAT_PCM
              /\ gst_audio_channel_positions_to_mask
                   (published_positions config)
                   (to_gint (num_channels config)) true = None))
  /\ (format config <> GST_DISCRET11_AUDIO_PARSE_FORMAT_PCM ->
      fst (gst_discret11_audio_parse_config_to_caps config) = true
      <-> is_Some (snd (gst_discret11_audio_parse_config_to_caps config)))
  /\ (gst_discret11_audio_parse_config_to_caps config = (true, None)
      <-> bpf config <> 0
          /\ format config = GST_DISCRET11_AUDIO_PARSE_FORMAT_PCM
          /\ gst_audio_info_to_caps
               (gst_audio_info_set_format gst_audio_info_init
                  (pcm_format config) (to_gint (sample_rate config))
                  (to_gint (num_channels config))
                  (published_positions config)) = None).
Proof.
  unfold gst_discret11_audio_parse_config_to_caps.
  destruct (bpf config =? 0) eqn:Hbpf;
    [apply Z.eqb_eq in Hbpf | apply Z.eqb_neq in Hbpf].
  - simpl. repeat split; auto; try discriminate; try tauto.
    intros [x Hx]. discriminate Hx.
  - destruct (format config) eqn:Hf.
    + simpl. repeat split; try discriminate; try congruence; try tauto.
      intros (_ & _ & ->). reflexivity.
    + destruct (gst_audio_channel_positions_to_mask _ _ _) eqn:Hmask; simpl;
        repeat split; try discriminate; try congruence; eauto;
        try (intros [H | [_ H]]; congruence);
        try (intros (_ & H & _); congruence);
        try (intros [x Hx]; discriminate Hx).
    + destruct (gst_audio_channel_positions_to_mask _ _ _) eqn:Hmask; simpl;
        repeat split; try discriminate; try congruence; eauto;
        try (intros [H | [_ H]]; congruence);
        try (intros (_ & H & _); congruence);
        try (intros [x Hx]; discriminate Hx).
Qed.

End MoreCaps.

Section CapsBack.

Context {audio : GstAudio}.

(** X15: the A-law or mu-law caps that a configuration publishes convert
    back, into any target, without failing an assertion, to the encoding,
    the sample rate and the channel count of that configuration; when the
    conversion succeeds the target is ready and its bpf is the channel
    count. *)
Theorem law_config_caps_config (config target : GstDiscret11AudioParseConfig)
    (caps : GstCaps) :
  format config <> GST_DISCRET11_AUDIO_PARSE_FORMAT_PCM ->
  0 <= sample_rate config < 2 ^ 31 ->
  0 < num_channels config < 2 ^ 31 ->
  gst_discret11_audio_parse_config_to_caps config = (true, Some caps) ->
  exists (ok : bool) (config' : GstDiscret11AudioParseConfig),
    gst_discret11_audio_parse_caps_to_config caps target = Ok (ok, config')
    /\ format config' = format config
    /\ sample_rate config' = sample_rate config
    /\ num_channels config' = num_channels config
    /\ (ok = true -> ready config' = true /\ bpf config' = num_channels config).
Proof.
  intros Hformat Hrate Hchan.
  unfold gst_discret11_audio_parse_config_to_caps.
  destruct (bpf config =? 0); [discriminate |].
  assert (forall (n : string) (m : Z),
             (n = "audio/x-alaw"%string
              /\ format config = GST_DISCRET11_AUDIO_PARSE_FORMAT_ALAW)
             \/ (n = "audio/x-mulaw"%string
                 /\ format config = GST_DISCRET11_AUDIO_PARSE_FORMAT_MULAW) ->
             exists (ok : bool) (config' : GstDiscret11AudioParseConfig),
               gst_discret11_audio_parse_caps_to_config
                 (gst_caps_new_simple n (sample_rate config)
                    (num_channels config) m) target
               = Ok (ok, config')
               /\ format config' = format config
               /\ sample_rate config' = sample_rate config
               /\ num_channels config' = num_channels config
               /\ (ok = true ->
                   ready config' = true /\ bpf config' = num_channels config))
    as Hback.
  { intros n m Hn.
    unfold gst_discret11_audio_parse_caps_to_config.
    assert (gst_structure_get_int
              (gst_caps_new_simple n (sample_rate config)
                 (num_channels config) m) "rate"
            = Some (sample_rate config)) as Hr.
    { unfold gst_structure_get_int, gst_caps_new_simple. simpl.
      rewrite to_gint_small by (unfold is_gint; lia). reflexivity. }
    assert (gst_structure_get_int
              (gst_caps_new_simple n (sample_rate config)
                 (num_channels config) m) "channels"
            = Some (num_channels config)) as Hc.
    { unfold gst_structure_get_int, gst_caps_new_simple. simpl.
      rewrite to_gint_small by (unfold is_gint; lia). reflexivity. }
    assert (gst_structure_has_name
              (gst_caps_new_simple n (sample_rate config)
                 (num_channels config) m) "audio/x-unaligned-raw" = false
            /\ gst_structure_has_name
                 (gst_caps_new_simple n (sample_rate config)
                    (num_channels config) m) "audio/x-raw" = false
            /\ gst_structure_has_name
                 (gst_caps_new_simple n (sample_rate config)
                    (num_channels config) m) "audio/x-alaw"
               || gst_structure_has_name
                    (gst_caps_new_simple n (sample_rate config)
                       (num_channels config) m) "audio/x-mulaw" = true
            /\ (if gst_structure_has_name
                     (gst_caps_new_simple n (sample_rate config)
                        (num_channels config) m) "audio/x-alaw"
                then GST_DISCRET11_AUDIO_PARSE_FORMAT_ALAW
                else GST_DISCRET11_AUDIO_PARSE_FORMAT_MULAW) = format config)
      as (-> & -> & -> & ->).
    { destruct Hn as [[-> ->] | [-> ->]]; repeat split; reflexivity. }
    rewrite Hr, Hc.
    rewrite (to_guint_small (num_channels config)) by (unfold is_guint; lia).
    rewrite (to_guint_small (sample_rate config)) by (unfold is_guint; lia).
    unfold gst_discret11_audio_parse_set_config_channels, g_assert.
    assert ((0 <? num_channels config) = true) as -> by (apply Z.ltb_lt; lia).
    simpl bind.
    destruct (gst_audio_channel_positions_from_mask _ _ _) as [b ps].
    simpl. destruct b; simpl; eexists; eexists;
      (split; [reflexivity |]); simpl; repeat split; auto; try discriminate.
    rewrite Z.mul_1_l. apply to_guint_small. unfold is_guint. lia. }
  destruct (format config) eqn:Hf; [congruence | |];
    (destruct (gst_audio_channel_positions_to_mask _ _ _) as [m |];
     [| discriminate]);
    simpl; intros H; inversion H as [Hcaps].
  - apply (Hback "audio/x-mulaw"%string m (or_intror (conj eq_refl eq_refl))).
  - apply (Hback "audio/x-alaw"%string m (or_introl (conj eq_refl eq_refl))).
Qed.

(** X17: A-law and mu-law caps need a rate and a channel count: without an
    integer rate the conversion returns FALSE with only the encoding
    written; with a rate but without an integer channel count it returns
    FALSE with the encoding and the sample rate written; and with a channel
    count that is 0 as a [guint] it fails the assertion of
    set_config_channels.  Caps of any other media type than the four that
    are supported leave the target as it is and return FALSE. *)
Theorem caps_to_config_missing_attributes (caps : GstCaps)
    (config : GstDiscret11AudioParseConfig) :
  let encoding :=
    if gst_structure_has_name caps "audio/x-alaw"
    then GST_DISCRET11_AUDIO_PARSE_FORMAT_ALAW
    else GST_DISCRET11_AUDIO_PARSE_FORMAT_MULAW in
  (gst_structure_has_name caps "audio/x-alaw"
   || gst_structure_has_name caps "audio/x-mulaw" = true ->
   (gst_structure_get_int caps "rate" = None ->
    gst_discret11_audio_parse_caps_to_config caps config
    = Ok (false, set_format config encoding))
   /\ (forall rate : Z,
         gst_structure_get_int caps "rate" = Some rate ->
         gst_structure_get_int caps "channels" = None ->
         gst_discret11_audio_parse_caps_to_config caps config
         = Ok (false,
               set_sample_rate (set_format config encoding) (to_guint rate)))
   /\ (forall rate channels : Z,
         gst_structure_get_int caps "rate" = Some rate ->
         gst_structure_get_int caps "channels" = Some channels ->
         to_guint channels = 0 ->
         gst_discret11_audio_parse_caps_to_config caps config
         = AssertionFailed))
  /\ (gst_structure_has_name caps "audio/x-raw" = false ->
      gst_structure_has_name caps "audio/x-unaligned-raw" = false ->
      gst_structure_has_name caps "audio/x-alaw" = false ->
      gst_structure_has_name caps "audio/x-mulaw" = false ->
      gst_discret11_audio_parse_caps_to_config caps config
      = Ok (false, config)).
Proof.
  cbv zeta. split.
  - intros Hname.
    assert (gst_structure_has_name caps "audio/x-unaligned-raw" = false
            /\ gst_structure_has_name caps "audio/x-raw" = false)
      as [Hun Hraw].
    { unfold gst_structure_has_name in *.
      apply orb_true_iff in Hname.
      destruct Hname as [H | H]; apply String.eqb_eq in H; rewrite H;
        split; reflexivity. }
    unfold gst_discret11_audio_parse_caps_to_config.
    rewrite Hun, Hraw, Hname. repeat split.
    + intros ->. reflexivity.
    + intros rate -> ->. reflexivity.
    + intros rate channels -> -> Hzero.
      unfold gst_discret11_audio_parse_set_config_channels. rewrite Hzero.
      reflexivity.
  - intros Hraw Hun Halaw Hmulaw.
    unfold gst_discret11_audio_parse_caps_to_config.
    rewrite Hun, Hraw, Halaw, Hmulaw. reflexivity.
Qed.

End CapsBack.

(** ** Construction and sequences of operations *)

Section Lifecycle.

Context {audio : GstAudio}.

(** X16: instance initialisation never fails an assertion.  It selects the
    properties configuration, which it leaves ready with the bpf of two
    channels of the default PCM format; it leaves the sink caps
    configuration not ready with bpf 0, so that no caps can be made from it;
    and it gives both configurations the defaults: PCM, 44100 Hz, 2
    channels, interleaved, no reordering. *)
Theorem init_defaults (self : GstDiscret11AudioParse) :
  exists self' : GstDiscret11AudioParse,
    gst_discret11_audio_parse_init self = Ok self'
    /\ gst_discret11_audio_parse_get_current_config self'
       = GST_DISCRET11_PARSE_CONFIG_PROPERTIES
    /\ gst_discret11_audio_parse_is_config_ready self'
         GST_DISCRET11_PARSE_CONFIG_PROPERTIES = true
    /\ gst_discret11_audio_parse_is_config_ready self'
         GST_DISCRET11_PARSE_CONFIG_SINKCAPS = false
    /\ gst_discret11_audio_parse_get_config_frame_size self'
         GST_DISCRET11_PARSE_CONFIG_PROPERTIES
       = to_guint
           (to_guint
              (GST_AUDIO_FORMAT_INFO_WIDTH
                 (gst_audio_format_get_info GST_AUDIO_FORMAT_S16)) * 2) / 8
    /\ gst_discret11_audio_parse_get_config_frame_size self'
         GST_DISCRET11_PARSE_CONFIG_SINKCAPS = 0
    /\ gst_discret11_audio_parse_get_caps_from_config self'
         GST_DISCRET11_PARSE_CONFIG_SINKCAPS = (false, None)
    /\ (forall p : ConfigPtr,
          format (deref self' p) = GST_DISCRET11_AUDIO_PARSE_FORMAT_PCM
          /\ pcm_format (deref self' p) = GST_AUDIO_FORMAT_S16
          /\ sample_rate (deref self' p) = 44100
          /\ num_channels (deref self' p) = 2
          /\ interleaved (deref self' p) = true
          /\ needs_channel_reordering (deref self' p) = false)
    /\ src_caps_set self' = src_caps_set self
    /\ min_frame_size self' = min_frame_size self.
Proof.
  unfold gst_discret11_audio_parse_init, gst_discret11_audio_parse_init_config,
    gst_discret11_audio_parse_set_config_channels, g_assert.
  simpl.
  destruct (gst_audio_channel_positions_from_mask _ _ _) as [ok1 ps1]. simpl.
  destruct (gst_audio_channel_positions_from_mask _ _ _) as [ok2 ps2]. simpl.
  eexists. split; [reflexivity |].
  unfold gst_discret11_audio_parse_get_caps_from_config,
    gst_discret11_audio_parse_config_to_caps,
    gst_discret11_audio_parse_get_config_frame_size,
    gst_discret11_audio_parse_is_config_ready,
    gst_discret11_audio_parse_get_current_config,
    gst_discret11_audio_parse_update_config_bpf. simpl.
  repeat split; try reflexivity; destruct p; reflexivity.
Qed.

Lemma set_property_keeps (self self' : GstDiscret11AudioParse)
    (prop : Property) :
  gst_discret11_audio_parse_set_property self prop = Ok self' ->
  0 < num_channels (properties_config self) ->
  0 < num_channels (properties_config self').
Proof.
  unfold gst_discret11_audio_parse_set_property.
  assert (forall s : GstDiscret11AudioParse,
             num_channels (properties_config (invalidate_and_resize s))
             = num_channels (properties_config s)
             /\ num_channels (properties_config (invalidate_only s))
                = num_channels (properties_config s)) as Htail.
  { intros s.
    rewrite (proj1 (invalidate_and_resize_configs s)),
      (proj1 (invalidate_only_configs s)). auto. }
  assert (forall c : GstDiscret11AudioParseConfig,
             num_channels (gst_discret11_audio_parse_update_config_bpf c)
             = num_channels c) as Hbpf
    by (intros c; apply (update_config_bpf_fields c)).
  destruct prop as [f | f | v | v | b | [values |]].
  - destruct (negb _); intros H; inversion H; subst; auto.
    rewrite (proj1 (Htail _)). simpl. rewrite Hbpf. auto.
  - destruct (negb _); intros H; inversion H; subst; auto.
    rewrite (proj1 (Htail _)). simpl. rewrite Hbpf. auto.
  - destruct (negb _); intros H; inversion H; subst; auto.
    rewrite (proj2 (Htail _)). simpl. auto.
  - destruct (negb _); [| intros H; inversion H; subst; auto].
    destruct (gst_discret11_audio_parse_set_config_channels _ _ _ _)
      as [[ok c1] | |] eqn:Hset; simpl; try discriminate.
    intros H; inversion H; subst.
    rewrite (proj1 (Htail _)). simpl. rewrite Hbpf. simpl.
    apply set_config_channels_ready in Hset. intros _. lia.
  - destruct (negb _); intros H; inversion H; subst; auto.
    rewrite (proj2 (Htail _)). simpl. auto.
  - destruct values as [| v values'].
    + intros H; inversion H; subst. auto.
    + cbv beta iota zeta.
      destruct (if negb _ then _ else _) as [c1 | |]; simpl; try discriminate.
      destruct (copy_valarray _ _ _) as [ps | |]; simpl; try discriminate.
      destruct (gst_discret11_audio_parse_update_channel_reordering_flag _)
        as [[ok2 c2] | |] eqn:Hflag; simpl; try discriminate.
      intros H; inversion H; subst.
      rewrite (proj1 (Htail _)). simpl. rewrite Hbpf.
      apply update_channel_reordering_flag_fields in Hflag.
      destruct Hflag as (_ & _ & _ & _ & _ & -> & _ & _ & _ & Hpos).
      simpl in *. intros _. exact Hpos.
  - destruct (0 <? num_channels (properties_config self)) eqn:Hpos.
    + destruct (gst_discret11_audio_parse_set_config_channels _ _ _ _)
        as [[ok c1] | |] eqn:Hset; simpl; try discriminate.
      intros H; inversion H; subst.
      rewrite (proj1 (Htail _)). simpl. rewrite Hbpf. simpl.
      apply set_config_channels_ready in Hset. intros _. lia.
    + simpl. intros H; inversion H; subst.
      rewrite (proj1 (Htail _)). simpl. rewrite Hbpf. auto.
Qed.

Lemma run_operation_invariant (self self' : GstDiscret11AudioParse)
    (op : Operation) :
  run_operation self op = Ok self' ->
  ready (properties_config self) = true
  /\ 0 < num_channels (properties_config self)
  /\ 0 < num_channels (sink_caps_config self) ->
  ready (properties_config self') = true
  /\ 0 < num_channels (properties_config self')
  /\ 0 < num_channels (sink_caps_config self').
Proof.
  intros Hrun (Hready & Hprops & Hsink). destruct op; simpl in Hrun.
  - destruct (set_property_keeps_frame _ _ _ Hrun) as (-> & _ & ->).
    pose proof (set_property_keeps _ _ _ Hrun Hprops). auto.
  - inversion Hrun. subst. simpl. auto.
  - destruct config; simpl in Hrun; inversion Hrun; subst; simpl; auto.
  - unfold gst_discret11_audio_parse_set_config_from_caps in Hrun.
    destruct (gst_discret11_audio_parse_caps_to_config caps _)
      as [[ok c'] | |] eqn:Hconv; simpl in Hrun; try discriminate.
    inversion Hrun. subst. clear Hrun.
    destruct (caps_to_config_result _ _ _ _ Hconv) as (Hok & Hfail & Hn).
    destruct (gst_discret11_audio_parse_get_config_ptr self config);
      simpl in *.
    + split; [destruct ok; [auto | rewrite Hfail; auto] |]. auto.
    + auto.
Qed.

(** X18: in every state that a sequence of property settings, stream stops,
    selections of the current configuration and conversions of caps reaches
    from a newly initialised element, each of them returning without a
    failed assertion and without an access past the end of a position
    array, the properties configuration is ready and both configurations
    have a nonzero channel count. *)
Theorem reachable_invariant (parent self0 self : GstDiscret11AudioParse)
    (ops : list Operation) :
  gst_discret11_audio_parse_init parent = Ok self0 ->
  run_operations self0 ops = Ok self ->
  gst_discret11_audio_parse_is_config_ready self
    GST_DISCRET11_PARSE_CONFIG_PROPERTIES = true
  /\ 0 < num_channels (properties_config self)
  /\ 0 < num_channels (sink_caps_config self).
Proof.
  intros Hinit Hrun.
  assert (ready (properties_config self0) = true
          /\ 0 < num_channels (properties_config self0)
          /\ 0 < num_channels (sink_caps_config self0)) as Hinv.
  { revert Hinit.
    unfold gst_discret11_audio_parse_init,
      gst_discret11_audio_parse_init_config,
      gst_discret11_audio_parse_set_config_channels, g_assert.
    simpl.
    destruct (gst_audio_channel_positions_from_mask _ _ _) as [ok1 ps1]. simpl.
    destruct (gst_audio_channel_positions_from_mask _ _ _) as [ok2 ps2]. simpl.
    intros H. inversion H. subst. simpl.
    unfold DEFAULT_NUM_CHANNELS. repeat split; lia. }
  clear Hinit. revert self0 Hinv Hrun.
  induction ops as [| op ops IH]; intros self0 Hinv Hrun; simpl in Hrun.
  - inversion Hrun. subst. exact Hinv.
  - destruct (run_operation self0 op) as [self1 | |] eqn:Hstep;
      simpl in Hrun; try discriminate.
    apply (IH self1); [| exact Hrun].
    apply (run_operation_invariant _ _ _ Hstep Hinv).
Qed.

End Lifecycle.

(** ** Accesses past the end of the position arrays *)

Section OutOfBounds.

Context {audio : GstAudio}.

(** X19: where the parser runs past the end of channel_positions, an array
    of 64 entries.  With a channel count above 64, which the num-channels
    property accepts, reading the channel-positions property reads
    channel_positions[64], and the update of the reordering flag, when the
    positions are not in a valid order, copies past the end of both position
    arrays.  The conversion of raw caps for which the library reports more
    than 64 channels copies past the end of channel_positions. *)
Theorem position_arrays_out_of_bounds
    (config : GstDiscret11AudioParseConfig) :
  length (channel_positions config) = array_size ->
  (forall self : GstDiscret11AudioParse,
      properties_config self = config ->
      Z.of_nat array_size < num_channels config ->
      gst_discret11_audio_parse_get_property self ID_PROP_CHANNEL_POSITIONS
      = OutOfBounds)
  /\ (Z.of_nat array_size < num_channels config ->
      gst_audio_check_valid_channel_positions (channel_positions config)
        (to_gint (num_channels config)) true = false ->
      gst_discret11_audio_parse_update_channel_reordering_flag config
      = OutOfBounds)
  /\ (forall (caps : GstCaps) (info : GstAudioInfo),
        gst_structure_has_name caps "audio/x-raw"
        || gst_structure_has_name caps "audio/x-unaligned-raw" = true ->
        gst_audio_info_from_caps (gst_structure_set_name caps "audio/x-raw")
        = Some info ->
        Z.of_nat array_size < to_guint (GST_AUDIO_INFO_CHANNELS info) ->
        gst_discret11_audio_parse_caps_to_config caps config = OutOfBounds).
Proof.
  intros Hsize. unfold array_size in *. split; [| split].
  - intros self Hself Hn.
    unfold gst_discret11_audio_parse_get_property. rewrite Hself.
    assert ((0 <? num_channels config) = true) as ->
      by (apply Z.ltb_lt; lia).
    rewrite valarray_of_positions_out_of_bounds by lia. reflexivity.
  - intros Hn Hcheck.
    unfold gst_discret11_audio_parse_update_channel_reordering_flag, g_assert.
    assert ((0 <? num_channels config) = true) as ->
      by (apply Z.ltb_lt; lia).
    simpl. rewrite Hcheck.
    rewrite (proj2 (memcpy_positions_OutOfBounds _ _ _)); [reflexivity |].
    left. simpl. lia.
  - intros caps info Hname Hfrom Hn.
    unfold gst_discret11_audio_parse_caps_to_config.
    assert ((if gst_structure_has_name caps "audio/x-unaligned-raw"
             then gst_structure_set_name caps "audio/x-raw" else caps)
            = gst_structure_set_name caps "audio/x-raw") as ->.
    { destruct (gst_structure_has_name caps "audio/x-unaligned-raw");
        [reflexivity |].
      rewrite orb_false_r in Hname. symmetry. apply set_name_same, Hname. }
    assert (gst_structure_has_name
              (gst_structure_set_name caps "audio/x-raw") "audio/x-raw"
            = true) as -> by reflexivity.
    rewrite Hfrom.
    unfold gst_discret11_audio_parse_set_config_channels, g_assert.
    assert ((0 <? to_guint (GST_AUDIO_INFO_CHANNELS info)) = true) as ->
      by (apply Z.ltb_lt; lia).
    simpl.
    rewrite (proj2 (memcpy_positions_OutOfBounds _ _ _)); [reflexivity |].
    right. lia.
Qed.

End OutOfBounds.

(** ** The further theorems at concrete inputs *)

(** After the channel count was set to 100, reading the channel positions
    runs past the end of the array. *)
Lemma position_arrays_out_of_bounds_witness :
  gst_discret11_audio_parse_get_property
    MoreExamples.element_hundred_channels ID_PROP_CHANNEL_POSITIONS
  = OutOfBounds.
Proof.
  refine (proj1 (position_arrays_out_of_bounds (audio := Reference.audio)
                   (properties_config MoreExamples.element_hundred_channels)
                   eq_refl)
            MoreExamples.element_hundred_channels eq_refl _).
  vm_compute. reflexivity.
Defined.

Lemma set_swapped_stereo :
  gst_discret11_audio_parse_set_property (audio := Reference.audio)
    Examples.element MoreExamples.swapped_stereo
  = Ok Examples.element_swapped_stereo.
Proof. vm_compute. reflexivity. Qed.

Lemma get_property_after_set_witness :
  gst_discret11_audio_parse_get_property Examples.element_swapped_stereo
    (property_id MoreExamples.swapped_stereo)
  = Ok MoreExamples.swapped_stereo.
Proof.
  assert (readable_back Examples.element MoreExamples.swapped_stereo) as Hback.
  { split; [discriminate |]. split; [| reflexivity].
    apply Nat.leb_le. vm_compute. reflexivity. }
  exact (get_property_after_set (audio := Reference.audio) Examples.element
           Examples.element_swapped_stereo MoreExamples.swapped_stereo
           Hback set_swapped_stereo).
Defined.

Lemma set_property_frame_witness :
  sink_caps_config Examples.element_swapped_stereo
  = sink_caps_config Examples.element
  /\ current_config Examples.element_swapped_stereo
     = current_config Examples.element
  /\ ready (properties_config Examples.element_swapped_stereo)
     = ready (properties_config Examples.element)
  /\ (forall values : list GstAudioChannelPosition,
        MoreExamples.swapped_stereo = PROP_CHANNEL_POSITIONS (Some values) ->
        values <> [] ->
        Z.of_nat (length values) < 2 ^ 32 ->
        (length values
         <= length (channel_positions (properties_config Examples.element)))%nat).
Proof.
  exact (set_property_frame (audio := Reference.audio) Examples.element
           Examples.element_swapped_stereo MoreExamples.swapped_stereo
           set_swapped_stereo).
Defined.

Lemma set_property_same_value_witness :
  exists prop : Property,
    gst_discret11_audio_parse_get_property Examples.element
      ID_PROP_SAMPLE_RATE = Ok prop
    /\ gst_discret11_audio_parse_set_property (audio := Reference.audio)
         Examples.element prop = Ok Examples.element.
Proof.
  apply (set_property_same_value (audio := Reference.audio) Examples.element
           ID_PROP_SAMPLE_RATE).
  - vm_compute. repeat split; discriminate.
  - vm_compute. reflexivity.
  - vm_compute. reflexivity.
  - discriminate.
Defined.

Lemma set_property_notifies_base_parse_witness :
  (gst_discret11_audio_parse_is_using_sink_caps Examples.element = true ->
   src_caps_set Examples.element_swapped_stereo
   = src_caps_set Examples.element
   /\ min_frame_size Examples.element_swapped_stereo
      = min_frame_size Examples.element)
  /\ (gst_discret11_audio_parse_is_using_sink_caps Examples.element = false ->
      (properties_config Examples.element_swapped_stereo
       <> properties_config Examples.element ->
       src_caps_set Examples.element_swapped_stereo = false)
      /\ (bpf (properties_config Examples.element_swapped_stereo)
          <> bpf (properties_config Examples.element) ->
          min_frame_size Examples.element_swapped_stereo
          = bpf (properties_config Examples.element_swapped_stereo))).
Proof.
  exact (set_property_notifies_base_parse (audio := Reference.audio)
           Examples.element Examples.element_swapped_stereo
           MoreExamples.swapped_stereo set_swapped_stereo).
Defined.

Lemma set_config_from_caps_frame_witness :
  let self' :=
    set_sink_caps_config Examples.element Examples.negotiated_raw in
  (forall p : ConfigPtr,
      p <> gst_discret11_audio_parse_get_config_ptr Examples.element
             GST_DISCRET11_PARSE_CONFIG_SINKCAPS ->
      deref self' p = deref Examples.element p)
  /\ current_config self' = current_config Examples.element
  /\ src_caps_set self' = src_caps_set Examples.element
  /\ min_frame_size self' = min_frame_size Examples.element
  /\ element_errors self' = element_errors Examples.element
  /\ gst_discret11_audio_parse_is_config_ready self'
       GST_DISCRET11_PARSE_CONFIG_SINKCAPS
     = (true
        || gst_discret11_audio_parse_is_config_ready Examples.element
             GST_DISCRET11_PARSE_CONFIG_SINKCAPS)
  /\ (forall info : GstAudioInfo,
        gst_structure_has_name Examples.unaligned_s16le_48000_stereo
          "audio/x-raw"
        || gst_structure_has_name Examples.unaligned_s16le_48000_stereo
             "audio/x-unaligned-raw" = true ->
        gst_audio_info_from_caps (GstAudio := Reference.audio)
          (gst_structure_set_name Examples.unaligned_s16le_48000_stereo
             "audio/x-raw")
        = Some info ->
        (Z.to_nat (to_guint (GST_AUDIO_INFO_CHANNELS info))
         <= length
              (channel_positions
                 (deref Examples.element
                    (gst_discret11_audio_parse_get_config_ptr
                       Examples.element
                       GST_DISCRET11_PARSE_CONFIG_SINKCAPS))))%nat
        /\ (Z.to_nat (to_guint (GST_AUDIO_INFO_CHANNELS info))
            <= length (GST_AUDIO_INFO_POSITION info))%nat).
Proof.
  assert (gst_discret11_audio_parse_set_config_from_caps
            (audio := Reference.audio) Examples.element
            GST_DISCRET11_PARSE_CONFIG_SINKCAPS
            Examples.unaligned_s16le_48000_stereo
          = Ok (true,
                set_sink_caps_config Examples.element Examples.negotiated_raw))
    as Hset by (vm_compute; reflexivity).
  exact (set_config_from_caps_frame (audio := Reference.audio)
           Examples.element
           (set_sink_caps_config Examples.element Examples.negotiated_raw)
           GST_DISCRET11_PARSE_CONFIG_SINKCAPS
           Examples.unaligned_s16le_48000_stereo true Hset).
Defined.

Lemma update_channel_reordering_flag_idempotent_witness :
  needs_channel_reordering (properties_config Examples.element_swapped_stereo)
  = negb (gst_audio_check_valid_channel_positions
            (GstAudio := Reference.audio)
            (channel_positions
               (properties_config Examples.element_swapped_stereo))
            (to_gint
               (num_channels
                  (properties_config Examples.element_swapped_stereo)))
            true).
Proof.
  assert (gst_discret11_audio_parse_update_channel_reordering_flag
            (audio := Reference.audio)
            (properties_config Examples.element_swapped_stereo)
          = Ok (true, properties_config Examples.element_swapped_stereo))
    as Hflag by (vm_compute; reflexivity).
  exact (proj1 (update_channel_reordering_flag_idempotent
                  (audio := Reference.audio)
                  (properties_config Examples.element_swapped_stereo)
                  (properties_config Examples.element_swapped_stereo) true
                  Hflag)).
Defined.

Lemma unaligned_raw_is_raw_witness :
  gst_discret11_audio_parse_caps_to_config (audio := Reference.audio)
    Examples.unaligned_s16le_48000_stereo (sink_caps_config Examples.element)
  = gst_discret11_audio_parse_caps_to_config (audio := Reference.audio)
      (gst_structure_set_name Examples.unaligned_s16le_48000_stereo
         "audio/x-raw")
      (sink_caps_config Examples.element).
Proof.
  exact (unaligned_raw_is_raw (audio := Reference.audio)
           Examples.unaligned_s16le_48000_stereo
           (sink_caps_config Examples.element) eq_refl).
Defined.

Lemma law_config_caps_config_witness :
  exists (ok : bool) (config' : GstDiscret11AudioParseConfig),
    gst_discret11_audio_parse_caps_to_config (audio := Reference.audio)
      MoreExamples.alaw_published (properties_config Examples.element)
    = Ok (ok, config')
    /\ format config'
       = format (sink_caps_config Examples.element_negotiated_alaw)
    /\ sample_rate config'
       = sample_rate (sink_caps_config Examples.element_negotiated_alaw)
    /\ num_channels config'
       = num_channels (sink_caps_config Examples.element_negotiated_alaw)
    /\ (ok = true ->
        ready config' = true
        /\ bpf config'
           = num_channels (sink_caps_config Examples.element_negotiated_alaw)).
Proof.
  assert (format (sink_caps_config Examples.element_negotiated_alaw)
          <> GST_DISCRET11_AUDIO_PARSE_FORMAT_PCM) as Hformat
    by (vm_compute; discriminate).
  assert (0 <= sample_rate (sink_caps_config Examples.element_negotiated_alaw)
          < 2 ^ 31) as Hrate
    by (vm_compute; split; [discriminate | reflexivity]).
  assert (0 < num_channels (sink_caps_config Examples.element_negotiated_alaw)
          < 2 ^ 31) as Hchan by (vm_compute; split; reflexivity).
  assert (gst_discret11_audio_parse_config_to_caps (audio := Reference.audio)
            (sink_caps_config Examples.element_negotiated_alaw)
          = (true, Some MoreExamples.alaw_published)) as Hcaps
    by (vm_compute; reflexivity).
  exact (law_config_caps_config (audio := Reference.audio)
           (sink_caps_config Examples.element_negotiated_alaw)
           (properties_config Examples.element) MoreExamples.alaw_published
           Hformat Hrate Hchan Hcaps).
Defined.

Lemma reachable_invariant_witness :
  gst_discret11_audio_parse_is_config_ready
    MoreExamples.element_after_operations
    GST_DISCRET11_PARSE_CONFIG_PROPERTIES = true
  /\ 0 < num_channels
           (properties_config MoreExamples.element_after_operations)
  /\ 0 < num_channels
           (sink_caps_config MoreExamples.element_after_operations).
Proof.
  assert (gst_discret11_audio_parse_init (audio := Reference.audio)
            Reference.zeroed_element = Ok Examples.element) as Hinit
    by (vm_compute; reflexivity).
  assert (run_operations (audio := Reference.audio) Examples.element
            MoreExamples.operations
          = Ok MoreExamples.element_after_operations) as Hrun
    by (vm_compute; reflexivity).
  exact (reachable_invariant (audio := Reference.audio)
           Reference.zeroed_element Examples.element
           MoreExamples.element_after_operations MoreExamples.operations
           Hinit Hrun).
Defined.
